(** * lib/layers.py: building blocks of the separation network

    A shallow embedding of [lib/layers.py] (the blocks [CBAM],
    [Conv2DBNActiv], [SeperableConv2DBNActiv], [Encoder], [Decoder],
    [DecoderV2] and [ASPPModule]) together with a model of the part of the
    PyTorch interface those blocks call.

    - A tensor is its [size] (a list of Python integers) and its content,
      read by index.  Scalars are kept abstract in the class [Float].
    - A Python call is a computation in [M]: it reads and writes the
      [World] (the random source and the running statistics of the batch
      normalisation layers) and either returns or raises an exception.
    - Batch normalisation and dropout carry their [training] flag;
      [train(mode)] sets it on every layer of a block, and [eval()] is
      [train(False)].  A block is constructed in training mode.
    - A constructor reads the initial value of its weights from the random
      source, so a constructed block stands for the block with any weights. *)

From Stdlib Require Import ZArith List Lia Bool QArith.
Import ListNotations.
Open Scope Z_scope.

Set Implicit Arguments.

(** ** Python results *)

Inductive exn : Type :=
| TypeError
| ValueError
| RuntimeError
| IndexError
| ZeroDivisionError.

Inductive result (A : Type) : Type :=
| Ok (a : A)
| Raise (e : exn).

Arguments Ok {A} a.
Arguments Raise {A} e.

(** An argument that is either a Python integer or [None]. *)
Inductive pyint : Type :=
| PyInt (z : Z)
| PyNone.

Coercion PyInt : Z >-> pyint.

(** ** Computations: a state and exception monad *)

Definition ST (S A : Type) : Type := S -> result A * S.

Definition ret {S A} (a : A) : ST S A := fun w => (Ok a, w).

Definition raise {S A} (e : exn) : ST S A := fun w => (Raise e, w).

Definition bind {S A B} (m : ST S A) (k : A -> ST S B) : ST S B :=
  fun w =>
    match m w with
    | (Ok a, w') => k a w'
    | (Raise e, w') => (Raise e, w')
    end.

Definition lift {S A} (r : result A) : ST S A := fun w => (r, w).

Declare Scope py_scope.
Delimit Scope py_scope with py.
Notation "x <- c1 ;; c2" := (bind c1 (fun x => c2))
  (at level 61, c1 at next level, right associativity) : py_scope.
Open Scope py_scope.

(** ** Scalars *)

Class Float (T : Type) : Type := {
  f0 : T;
  f1 : T;
  fadd : T -> T -> T;
  fsub : T -> T -> T;
  fmul : T -> T -> T;
  fdiv : T -> T -> T;
  fsqrt : T -> T;
  fexp : T -> T;
  fltb : T -> T -> bool;
  of_Z : Z -> T
}.

(** ** Index ranges *)

Definition range (n : Z) : list Z := map Z.of_nat (seq 0 (Z.to_nat n)).

Fixpoint set_nth (k : nat) (v : Z) (l : list Z) : list Z :=
  match l, k with
  | [], _ => []
  | _ :: l', O => v :: l'
  | a :: l', S k' => a :: set_nth k' v l'
  end.

Definition numel (s : list Z) : Z := fold_right Z.mul 1 s.

(** Row-major offset of the index [idx] in a tensor of size [s]. *)
Fixpoint offset (s idx : list Z) : Z :=
  match s, idx with
  | _ :: s', i :: idx' => i * numel s' + offset s' idx'
  | _, _ => 0
  end.

(** Output length of a convolution along one axis:
    [floor((n + 2*pad - dilation*(ksize-1) - 1) / stride) + 1]. *)
Definition conv_out (n ksize stride pad dilation : Z) : Z :=
  (n + 2 * pad - dilation * (ksize - 1) - 1) / stride + 1.

Section Layers.

Context {T : Type} {FT : Float T}.

Definition ratio (a b : Z) : T := fdiv (of_Z a) (of_Z b).

(** A Python float literal. *)
Definition of_Q (q : Q) : T := ratio (Qnum q) (Zpos (Qden q)).

Definition fsum (n : Z) (f : Z -> T) : T :=
  fold_left (fun acc i => fadd acc (f i)) (range n) f0.

(** ** Tensors *)

Record Tensor : Type := mkTensor {
  size : list Z;
  item : list Z -> T
}.

Definition tmap (f : T -> T) (x : Tensor) : Tensor :=
  {| size := size x; item := fun idx => f (item x idx) |}.

Definition full (s : list Z) (v : T) : Tensor :=
  {| size := s; item := fun _ => v |}.

(** ** The world of a run *)

(** Running statistics of one batch normalisation layer. *)
Record BNStats : Type := mkBNStats {
  running_mean : Tensor;
  running_var : Tensor;
  num_batches_tracked : Z
}.

Record World : Type := mkWorld {
  source : nat -> T;          (* the random source *)
  drawn : nat;                (* how much of it has been consumed *)
  buffers : nat -> BNStats;   (* the running statistics, by address *)
  allocated : nat             (* next free address *)
}.

Definition M (A : Type) : Type := ST World A.

Definition with_drawn (w : World) (k : nat) : World :=
  {| source := source w; drawn := k;
     buffers := buffers w; allocated := allocated w |}.

Definition with_buffer (w : World) (a : nat) (st : BNStats) : World :=
  {| source := source w; drawn := drawn w;
     buffers := fun b => if Nat.eqb b a then st else buffers w b;
     allocated := allocated w |}.

(** ** torch: tensor creation *)

Definition negative_dim (s : list Z) : bool := existsb (fun d => d <? 0) s.

(** [torch.empty(s)] followed by the random initialisation of a parameter:
    the content is read from the random source. *)
Definition torch_empty (s : list Z) : M Tensor :=
  fun w =>
    if negative_dim s then (Raise RuntimeError, w)
    else (Ok {| size := s;
                item := fun idx => source w (drawn w + Z.to_nat (offset s idx))%nat |},
          with_drawn w (drawn w + Z.to_nat (numel s))%nat).

Definition torch_full (s : list Z) (v : T) : M Tensor :=
  if negative_dim s then raise RuntimeError else ret (full s v).

Definition torch_zeros (s : list Z) : M Tensor := torch_full s f0.
Definition torch_ones (s : list Z) : M Tensor := torch_full s f1.

(** ** nn.Conv2d *)

Record Conv2d : Type := mkConv2d {
  in_channels : Z;
  out_channels : Z;
  kernel_size : Z;
  stride : Z;
  padding : Z;
  dilation : Z;
  groups : Z;
  weight : Tensor;
  bias : option Tensor
}.

(** [nn.Conv2d(in_channels, out_channels, kernel_size, stride, padding,
    dilation, groups, bias)].  The constructor evaluates
    [in_channels % groups], which raises TypeError on [None]. *)
Definition nn_Conv2d (in_channels : pyint) (out_channels kernel_size stride
    padding dilation groups : Z) (bias : bool) : M Conv2d :=
  if groups <=? 0 then raise ValueError else
  match in_channels with
  | PyNone => raise TypeError
  | PyInt nin =>
    if negb (nin mod groups =? 0) then raise ValueError else
    if negb (out_channels mod groups =? 0) then raise ValueError else
    w <- torch_empty [out_channels; nin / groups; kernel_size; kernel_size] ;;
    b <- (if bias then (t <- torch_empty [out_channels] ;; ret (Some t))
          else ret None) ;;
    ret {| in_channels := nin; out_channels := out_channels;
           kernel_size := kernel_size; stride := stride; padding := padding;
           dilation := dilation; groups := groups; weight := w; bias := b |}
  end.

(** The input read with zero padding around its [h] x [w] plane. *)
Definition padded (x : Tensor) (h w b c i j : Z) : T :=
  if (0 <=? i) && (i <? h) && (0 <=? j) && (j <? w)
  then item x [b; c; i; j] else f0.

Definition conv2d_item (self : Conv2d) (x : Tensor) (h w : Z) (idx : list Z) : T :=
  match idx with
  | [b; co; i; j] =>
    let cg := in_channels self / groups self in
    let og := out_channels self / groups self in
    let g := co / og in
    let acc :=
      fsum cg (fun ci =>
        fsum (kernel_size self) (fun ki =>
          fsum (kernel_size self) (fun kj =>
            fmul (item (weight self) [co; ci; ki; kj])
                 (padded x h w b (g * cg + ci)
                    (i * stride self - padding self + ki * dilation self)
                    (j * stride self - padding self + kj * dilation self))))) in
    match bias self with
    | Some bt => fadd acc (item bt [co])
    | None => acc
    end
  | _ => f0
  end.

(** The convolution of a batch of [n] samples with [c] channels and an
    [h] x [w] plane. *)
Definition conv2d_batched (self : Conv2d) (x : Tensor) (n c h w : Z)
  : result Tensor :=
  if negb (c =? in_channels self) then Raise RuntimeError
  else if (kernel_size self <=? 0) || (stride self <=? 0)
          || (padding self <? 0) || (dilation self <=? 0)
  then Raise RuntimeError
  else
    let span := dilation self * (kernel_size self - 1) + 1 in
    if (h + 2 * padding self <? span) || (w + 2 * padding self <? span)
    then Raise RuntimeError
    else Ok {| size := [n; out_channels self;
                        conv_out h (kernel_size self) (stride self)
                                 (padding self) (dilation self);
                        conv_out w (kernel_size self) (stride self)
                                 (padding self) (dilation self)];
               item := conv2d_item self x h w |}.

(** An unbatched tensor seen as a batch of one sample, and back. *)
Definition unsqueeze0 (x : Tensor) : Tensor :=
  {| size := 1 :: size x; item := fun idx => item x (tl idx) |}.

Definition squeeze0 (x : Tensor) : Tensor :=
  {| size := tl (size x); item := fun idx => item x (0 :: idx) |}.

(** A 4-D input is a batch; a 3-D input is one unbatched sample (accepted
    since PyTorch 1.11; earlier releases raise RuntimeError there); any
    other rank is rejected. *)
Definition Conv2d_call (self : Conv2d) (x : Tensor) : result Tensor :=
  match size x with
  | [n; c; h; w] => conv2d_batched self x n c h w
  | [c; h; w] =>
    match conv2d_batched self (unsqueeze0 x) 1 c h w with
    | Ok y => Ok (squeeze0 y)
    | Raise e => Raise e
    end
  | _ => Raise RuntimeError
  end.

(** ** nn.BatchNorm2d *)

Record BatchNorm2d : Type := mkBatchNorm2d {
  num_features : Z;
  eps : T;
  momentum : T;
  bn_weight : Tensor;
  bn_bias : Tensor;
  bn_stats : nat;       (* address of the running statistics *)
  bn_training : bool
}.

Definition register_stats (num_features : Z) : M nat :=
  fun w =>
    (Ok (allocated w),
     {| source := source w; drawn := drawn w;
        buffers := fun b =>
          if Nat.eqb b (allocated w)
          then {| running_mean := full [num_features] f0;
                  running_var := full [num_features] f1;
                  num_batches_tracked := 0 |}
          else buffers w b;
        allocated := S (allocated w) |}).

Definition nn_BatchNorm2d (num_features : Z) : M BatchNorm2d :=
  g <- torch_ones [num_features] ;;
  b <- torch_zeros [num_features] ;;
  a <- register_stats num_features ;;
  ret {| num_features := num_features; eps := of_Q (1 # 100000);
         momentum := of_Q (1 # 10); bn_weight := g; bn_bias := b;
         bn_stats := a; bn_training := true |}.

(** Sum of [f] over the batch and the plane of channel [c]. *)
Definition channel_sum (x : Tensor) (n h w c : Z) (f : T -> T) : T :=
  fsum n (fun b => fsum h (fun i => fsum w (fun j => f (item x [b; c; i; j])))).

Definition batch_mean (x : Tensor) (n h w c : Z) : T :=
  fdiv (channel_sum x n h w c (fun v => v)) (of_Z (n * h * w)).

Definition batch_sqdev (x : Tensor) (n h w c : Z) : T :=
  let m := batch_mean x n h w c in
  channel_sum x n h w c (fun v => fmul (fsub v m) (fsub v m)).

Definition normalize (self : BatchNorm2d) (mean var : Z -> T) (x : Tensor) : Tensor :=
  {| size := size x;
     item := fun idx =>
       match idx with
       | [b; c; i; j] =>
         fadd (fmul (fdiv (fsub (item x idx) (mean c))
                          (fsqrt (fadd (var c) (eps self))))
                    (item (bn_weight self) [c]))
              (item (bn_bias self) [c])
       | _ => f0
       end |}.

(** Exponential moving average of the running statistics. *)
Definition lerp (m : T) (old new : T) : T :=
  fadd (fmul (fsub f1 m) old) (fmul m new).

(** [num_batches_tracked.add_(1)]. *)
Definition count_batch (a : nat) : M unit :=
  fun w =>
    let st := buffers w a in
    (Ok tt,
     with_buffer w a
       {| running_mean := running_mean st;
          running_var := running_var st;
          num_batches_tracked := num_batches_tracked st + 1 |}).

(** The update of the running mean and variance. *)
Definition track (self : BatchNorm2d) (mean var : Z -> T) : M unit :=
  fun w =>
    let st := buffers w (bn_stats self) in
    (Ok tt,
     with_buffer w (bn_stats self)
       {| running_mean :=
            {| size := size (running_mean st);
               item := fun idx =>
                 lerp (momentum self) (item (running_mean st) idx)
                      (mean (hd 0 idx)) |};
          running_var :=
            {| size := size (running_var st);
               item := fun idx =>
                 lerp (momentum self) (item (running_var st) idx)
                      (var (hd 0 idx)) |};
          num_batches_tracked := num_batches_tracked st |}).

Definition read_stats (a : nat) : M BNStats := fun w => (Ok (buffers w a), w).

(** The input has to be 4-D.  When training, the batch is counted first;
    then one value per channel is rejected, then a wrong channel count, and
    only then are the running mean and variance updated. *)
Definition BatchNorm2d_call (self : BatchNorm2d) (x : Tensor) : M Tensor :=
  match size x with
  | [n; c; h; w] =>
    if bn_training self then
      _ <- count_batch (bn_stats self) ;;
      (* more than one value per channel is required when training *)
      if n * h * w =? 1 then raise ValueError
      else if negb (c =? num_features self) then raise RuntimeError
      else
        let mean := batch_mean x n h w in
        let sq := batch_sqdev x n h w in
        _ <- track self mean (fun c => fdiv (sq c) (of_Z (n * h * w - 1))) ;;
        ret (normalize self mean (fun c => fdiv (sq c) (of_Z (n * h * w))) x)
    else
      if negb (c =? num_features self) then raise RuntimeError
      else
        st <- read_stats (bn_stats self) ;;
        ret (normalize self (fun c => item (running_mean st) [c])
                       (fun c => item (running_var st) [c]) x)
  | _ => raise ValueError
  end.

(** What a batch normalisation layer returns in each mode. *)
Definition BatchNorm2d_result (b : BatchNorm2d) (mode : bool) (x : Tensor)
    (n h w : Z) (wd : World) : Tensor :=
  if mode then
    normalize b (batch_mean x n h w)
              (fun c => fdiv (batch_sqdev x n h w c) (of_Z (n * h * w))) x
  else
    normalize b (fun c => item (running_mean (buffers wd (bn_stats b))) [c])
              (fun c => item (running_var (buffers wd (bn_stats b))) [c]) x.

(** ** Activations *)

(** The activation classes this file instantiates. *)
Inductive activ : Type :=
| nn_ReLU
| nn_LeakyReLU.

Definition relu (v : T) : T := if fltb v f0 then f0 else v.

Definition leaky_relu (slope v : T) : T := if fltb v f0 then fmul slope v else v.

Definition activ_fn (a : activ) : T -> T :=
  match a with
  | nn_ReLU => relu
  | nn_LeakyReLU => leaky_relu (of_Q (1 # 100))
  end.

Definition activ_call (a : activ) (x : Tensor) : Tensor := tmap (activ_fn a) x.

(** ** nn.Dropout2d *)

Record Dropout2d : Type := mkDropout2d {
  dp_p : Q;
  dp_training : bool
}.

(** [nn.Dropout2d(p)]: the probability has to lie between 0 and 1. *)
Definition nn_Dropout2d (p : Q) : M Dropout2d :=
  if Qle_bool 0 p && Qle_bool p 1
  then ret {| dp_p := p; dp_training := true |}
  else raise ValueError.

(** When training, whole channels are zeroed by a mask drawn from the random
    source and the others are scaled by [1/(1-p)]; otherwise the identity. *)
Definition Dropout2d_call (self : Dropout2d) (x : Tensor) : M Tensor :=
  if dp_training self then
    match size x with
    | n :: c :: _ =>
      fun w =>
        (Ok {| size := size x;
               item := fun idx =>
                 match idx with
                 | b :: ch :: _ =>
                   if fltb (source w (drawn w + Z.to_nat (b * c + ch))%nat)
                           (of_Q (dp_p self))
                   then f0
                   else fdiv (item x idx) (fsub f1 (of_Q (dp_p self)))
                 | _ => f0
                 end |},
         with_drawn w (drawn w + Z.to_nat (n * c))%nat)
    | _ => raise RuntimeError
    end
  else ret x.

(** ** F.interpolate *)

Inductive interp_mode : Type :=
| bilinear.

(** Source coordinate of output position [i], as a fraction. *)
Definition source_coord (align_corners : bool) (n_in n_out i : Z) : Z * Z :=
  if align_corners then
    if n_out <=? 1 then (0, 1) else (i * (n_in - 1), n_out - 1)
  else (Z.max 0 ((2 * i + 1) * n_in - n_out), 2 * n_out).

Definition bilinear_item (x : Tensor) (align_corners : bool)
    (h w oh ow : Z) (idx : list Z) : T :=
  match idx with
  | [b; c; i; j] =>
    let '(nh, dh) := source_coord align_corners h oh i in
    let '(nw, dw) := source_coord align_corners w ow j in
    let i0 := nh / dh in
    let j0 := nw / dw in
    let i1 := Z.min (i0 + 1) (h - 1) in
    let j1 := Z.min (j0 + 1) (w - 1) in
    let lh := ratio (nh mod dh) dh in
    let lw := ratio (nw mod dw) dw in
    let row (r : Z) :=
      fadd (fmul (fsub f1 lw) (item x [b; c; r; j0]))
           (fmul lw (item x [b; c; r; j1])) in
    fadd (fmul (fsub f1 lh) (row i0)) (fmul lh (row i1))
  | _ => f0
  end.

Definition resize (x : Tensor) (align_corners : bool) (n c h w oh ow : Z)
  : result Tensor :=
  if (h <=? 0) || (w <=? 0) || (oh <=? 0) || (ow <=? 0) then Raise RuntimeError
  else Ok {| size := [n; c; oh; ow];
             item := bilinear_item x align_corners h w oh ow |}.

(** [F.interpolate(x, size=..., scale_factor=..., mode=..., align_corners=...)]
    on a 4-D input; exactly one of [size] and [scale_factor] is given. *)
Definition F_interpolate (x : Tensor) (out_size : option (Z * Z))
    (scale_factor : option Z) (mode : interp_mode) (align_corners : bool)
  : result Tensor :=
  match size x with
  | [n; c; h; w] =>
    match out_size, scale_factor with
    | Some (oh, ow), None => resize x align_corners n c h w oh ow
    | None, Some s => resize x align_corners n c h w (h * s) (w * s)
    | _, _ => Raise ValueError
    end
  | _ => Raise ValueError
  end.

(** ** torch.cat *)

Fixpoint sizes_eqb (s1 s2 : list Z) : bool :=
  match s1, s2 with
  | [], [] => true
  | a :: s1', b :: s2' => (a =? b) && sizes_eqb s1' s2'
  | _, _ => false
  end.

Fixpoint cat_item (ts : list Tensor) (dim : nat) (idx : list Z) : T :=
  match ts with
  | [] => f0
  | t :: ts' =>
    let k := nth dim idx 0 in
    let d := nth dim (size t) 0 in
    if k <? d then item t idx else cat_item ts' dim (set_nth dim (k - d) idx)
  end.

Definition torch_cat (ts : list Tensor) (dim : nat) : result Tensor :=
  match ts with
  | [] => Raise RuntimeError
  | t :: ts' =>
    if (length (size t) <=? dim)%nat then Raise IndexError
    else if forallb (fun u => sizes_eqb (set_nth dim 0 (size u))
                                        (set_nth dim 0 (size t))) ts'
    then Ok {| size := set_nth dim
                 (fold_right (fun u acc => nth dim (size u) 0 + acc) 0 ts)
                 (size t);
               item := cat_item ts dim |}
    else Raise RuntimeError
  end.

(** ** nn.AdaptiveAvgPool2d *)

Record AdaptiveAvgPool2d : Type := mkAdaptiveAvgPool2d {
  output_size : Z * Z
}.

Definition nn_AdaptiveAvgPool2d (output_size : Z * Z) : M AdaptiveAvgPool2d :=
  ret {| output_size := output_size |}.

(** The bin of output position [i]: [floor(i*n/o), ceil((i+1)*n/o)). *)
Definition bin_start (n o i : Z) : Z := i * n / o.
Definition bin_end (n o i : Z) : Z := - ((- ((i + 1) * n)) / o).

Definition AdaptiveAvgPool2d_call (self : AdaptiveAvgPool2d) (x : Tensor)
  : result Tensor :=
  let '(oh, ow) := output_size self in
  match size x with
  | [n; c; h; w] =>
    if (h <=? 0) || (w <=? 0) || (c <=? 0) then Raise RuntimeError
    else Ok {| size := [n; c; oh; ow];
               item := fun idx =>
                 match idx with
                 | [b; ch; i; j] =>
                   let hs := bin_start h oh i in
                   let ws := bin_start w ow j in
                   let kh := bin_end h oh i - hs in
                   let kw := bin_end w ow j - ws in
                   fdiv (fsum kh (fun di => fsum kw (fun dj =>
                           item x [b; ch; hs + di; ws + dj])))
                        (of_Z (kh * kw))
                 | _ => f0
                 end |}
  | _ => Raise RuntimeError
  end.

(** ** nn.Linear *)

Record Linear : Type := mkLinear {
  in_features : Z;
  out_features : Z;
  lin_weight : Tensor;
  lin_bias : Tensor
}.

Definition nn_Linear (in_features out_features : Z) : M Linear :=
  w <- torch_empty [out_features; in_features] ;;
  b <- torch_empty [out_features] ;;
  ret {| in_features := in_features; out_features := out_features;
         lin_weight := w; lin_bias := b |}.

Definition Linear_call (self : Linear) (x : Tensor) : result Tensor :=
  match rev (size x) with
  | d :: _ =>
    if d =? in_features self then
      Ok {| size := removelast (size x) ++ [out_features self];
            item := fun idx =>
              let o := last idx 0 in
              fadd (fsum (in_features self) (fun k =>
                      fmul (item x (removelast idx ++ [k]))
                           (item (lin_weight self) [o; k])))
                   (item (lin_bias self) [o]) |}
    else Raise RuntimeError
  | [] => Raise RuntimeError
  end.

(** ** Tensor methods and pointwise functions *)

(** A [dim] argument: one axis or a tuple of axes. *)
Inductive dimarg : Type :=
| Dim (d : nat)
| Dims (ds : list nat).

(** What a tensor method may return. *)
Inductive pyobj : Type :=
| PTensor (t : Tensor)
| PTuple (values indices : Tensor).

Fixpoint insert_at (k : nat) (v : Z) (l : list Z) : list Z :=
  match k, l with
  | O, _ => v :: l
  | S k', a :: l' => a :: insert_at k' v l'
  | S _, [] => [v]
  end.

Fixpoint remove_at (k : nat) (l : list Z) : list Z :=
  match k, l with
  | _, [] => []
  | O, _ :: l' => l'
  | S k', a :: l' => a :: remove_at k' l'
  end.

Definition mean_along (d : nat) (x : Tensor) : result Tensor :=
  if (length (size x) <=? d)%nat then Raise IndexError
  else
    let n := nth d (size x) 0 in
    Ok {| size := remove_at d (size x);
          item := fun idx =>
            fdiv (fsum n (fun k => item x (insert_at d k idx))) (of_Z n) |}.

(** [x.mean(dim=...)]; the axes of a tuple are reduced from the last. *)
Definition Tensor_mean (x : Tensor) (dim : dimarg) : result Tensor :=
  match dim with
  | Dim d => mean_along d x
  | Dims ds =>
    fold_right (fun d acc =>
                  match acc with
                  | Ok t => mean_along d t
                  | Raise e => Raise e
                  end) (Ok x) ds
  end.

(** Position and value of the largest of [f 0 .. f (n-1)]. *)
Definition best (n : Z) (f : Z -> T) : Z * T :=
  fold_left (fun acc k => if fltb (snd acc) (f k) then (k, f k) else acc)
            (range n) (0, f 0).

(** [x.max(dim=...)] takes one axis and returns the pair (values, indices);
    a tuple of axes is rejected with TypeError. *)
Definition Tensor_max (x : Tensor) (dim : dimarg) : result pyobj :=
  match dim with
  | Dims _ => Raise TypeError
  | Dim d =>
    if (length (size x) <=? d)%nat then Raise IndexError
    else
      let n := nth d (size x) 0 in
      if n <=? 0 then Raise RuntimeError
      else
        let pick idx := best n (fun k => item x (insert_at d k idx)) in
        Ok (PTuple {| size := remove_at d (size x);
                      item := fun idx => snd (pick idx) |}
                   {| size := remove_at d (size x);
                      item := fun idx => of_Z (fst (pick idx)) |})
  end.

(** Passing an object where a tensor is expected. *)
Definition as_tensor (o : pyobj) : result Tensor :=
  match o with
  | PTensor t => Ok t
  | PTuple _ _ => Raise TypeError
  end.

(** [o[:, None]]: a tuple cannot be indexed by a tuple. *)
Definition getitem_colon_None (o : pyobj) : result Tensor :=
  match o with
  | PTensor t =>
    match size t with
    | [] => Raise IndexError
    | _ :: _ =>
      Ok {| size := insert_at 1 1 (size t);
            item := fun idx => item t (remove_at 1 idx) |}
    end
  | PTuple _ _ => Raise TypeError
  end.

(** [t[:, :, None, None]]. *)
Definition getitem_colon_colon_None_None (t : Tensor) : result Tensor :=
  match size t with
  | _ :: _ :: _ =>
    Ok {| size := insert_at 3 1 (insert_at 2 1 (size t));
          item := fun idx => item t (remove_at 2 (remove_at 3 idx)) |}
  | _ => Raise IndexError
  end.

(** Broadcasting of two sizes, aligned at their last axis (sizes reversed). *)
Fixpoint broadcast_rev (s1 s2 : list Z) : option (list Z) :=
  match s1, s2 with
  | [], s => Some s
  | s, [] => Some s
  | a :: s1', b :: s2' =>
    if (a =? b) || (b =? 1) then option_map (cons a) (broadcast_rev s1' s2')
    else if a =? 1 then option_map (cons b) (broadcast_rev s1' s2')
    else None
  end.

(** The index read in an operand of size [s] for the broadcast index [idx]. *)
Definition bidx (s idx : list Z) : list Z :=
  rev (map (fun di => if fst di =? 1 then 0 else snd di)
           (combine (rev s) (rev idx))).

Definition broadcast (f : T -> T -> T) (a b : Tensor) : result Tensor :=
  match broadcast_rev (rev (size a)) (rev (size b)) with
  | Some s =>
    Ok {| size := rev s;
          item := fun idx =>
            f (item a (bidx (size a) idx)) (item b (bidx (size b) idx)) |}
  | None => Raise RuntimeError
  end.

Definition tadd : Tensor -> Tensor -> result Tensor := broadcast fadd.
Definition tmul : Tensor -> Tensor -> result Tensor := broadcast fmul.

Definition sigmoid (v : T) : T := fdiv f1 (fadd f1 (fexp (fsub f0 v))).

Definition F_sigmoid (x : Tensor) : Tensor := tmap sigmoid x.
Definition F_relu (x : Tensor) : Tensor := tmap relu x.

(** Python's [a // b]. *)
Definition floordiv (a b : Z) : result Z :=
  if b =? 0 then Raise ZeroDivisionError else Ok (a / b).

(** ** lib.spec_utils *)

(** Modelled from the spec: [spec_utils.crop_center] lives in
    [lib/spec_utils.py], which is not among the sources.  The spec describes
    it as a utility that accepts an oversized tensor and a reference tensor
    and returns the oversized tensor cropped to the reference's spatial
    dimensions, trimming symmetrically, the odd leftover pixel going to one
    side.  The spec gives no result for a tensor that is smaller than the
    reference along an axis; the model raises there.  The leftover pixel is
    trimmed at the end (the start offset is the floor of half the excess). *)
Definition crop_center (h1 h2 : Tensor) : result Tensor :=
  match size h1, size h2 with
  | [n; c; a1; b1], [_; _; a2; b2] =>
    if (a2 <=? a1) && (b2 <=? b1) then
      let s := (a1 - a2) / 2 in
      let t := (b1 - b2) / 2 in
      Ok {| size := [n; c; a2; b2];
            item := fun idx =>
              match idx with
              | [p; q; i; j] => item h1 [p; q; s + i; t + j]
              | _ => f0
              end |}
    else Raise ValueError
  | _, _ => Raise ValueError
  end.

(** ** nn.Module.train(mode) on the leaves; [eval()] is [train(False)] *)

Definition BatchNorm2d_train (mode : bool) (self : BatchNorm2d) : BatchNorm2d :=
  {| num_features := num_features self; eps := eps self;
     momentum := momentum self; bn_weight := bn_weight self;
     bn_bias := bn_bias self; bn_stats := bn_stats self;
     bn_training := mode |}.

Definition Dropout2d_train (mode : bool) (self : Dropout2d) : Dropout2d :=
  {| dp_p := dp_p self; dp_training := mode |}.

(** * lib/layers.py *)

(** ** class CBAM *)

Record CBAM : Type := mkCBAM {
  CBAM_sqz : Linear;
  CBAM_ext : Linear;
  CBAM_conv : Conv2d
}.

Definition CBAM_init (ch ratio : Z) : M CBAM :=
  hidden <- lift (floordiv ch ratio) ;;
  sqz <- nn_Linear ch hidden ;;
  hidden <- lift (floordiv ch ratio) ;;
  ext <- nn_Linear hidden ch ;;
  conv <- nn_Conv2d PyNone 1 3 1 1 1 1 false ;;
  ret {| CBAM_sqz := sqz; CBAM_ext := ext; CBAM_conv := conv |}.

(** The argument [e] is accepted and not used. *)
Definition CBAM_call (self : CBAM) (x : Tensor) (e : option Tensor) : M Tensor :=
  gap <- lift (Tensor_mean x (Dims [2; 3]%nat)) ;;
  gmp <- lift (Tensor_max x (Dims [2; 3]%nat)) ;;
  a <- lift (Linear_call (CBAM_sqz self) gap) ;;
  gap <- lift (Linear_call (CBAM_ext self) (F_relu a)) ;;
  gmp <- lift (as_tensor gmp) ;;
  a <- lift (Linear_call (CBAM_sqz self) gmp) ;;
  gmp <- lift (Linear_call (CBAM_ext self) (F_relu a)) ;;
  a <- lift (tadd gap gmp) ;;
  a <- lift (getitem_colon_colon_None_None (F_sigmoid a)) ;;
  x <- lift (tmul a x) ;;

  a <- lift (Tensor_mean x (Dim 1)) ;;
  gap <- lift (getitem_colon_None (PTensor a)) ;;
  a <- lift (Tensor_max x (Dim 1)) ;;
  gmp <- lift (getitem_colon_None a) ;;
  a <- lift (torch_cat [gap; gmp] 1) ;;
  h <- lift (Conv2d_call (CBAM_conv self) a) ;;
  h <- lift (tmul (F_sigmoid h) x) ;;

  ret h.

(** ** class Conv2DBNActiv *)

(** [self.conv] is an [nn.Sequential] of three modules. *)
Record Conv2DBNActiv : Type := mkConv2DBNActiv {
  Conv2DBNActiv_conv_0 : Conv2d;
  Conv2DBNActiv_conv_1 : BatchNorm2d;
  Conv2DBNActiv_conv_2 : activ
}.

Definition Conv2DBNActiv_init (nin nout ksize stride pad dilation : Z)
    (activ : activ) : M Conv2DBNActiv :=
  c <- nn_Conv2d nin nout ksize stride pad dilation 1 false ;;
  b <- nn_BatchNorm2d nout ;;
  ret {| Conv2DBNActiv_conv_0 := c; Conv2DBNActiv_conv_1 := b;
         Conv2DBNActiv_conv_2 := activ |}.

(** [Conv2DBNActiv(nin, nout)]: every other argument at its default,
    [ksize=3, stride=1, pad=1, dilation=1, activ=nn.ReLU]. *)
Definition Conv2DBNActiv_new (nin nout : Z) : M Conv2DBNActiv :=
  Conv2DBNActiv_init nin nout 3 1 1 1 nn_ReLU.

Definition Conv2DBNActiv_call (self : Conv2DBNActiv) (x : Tensor) : M Tensor :=
  h <- lift (Conv2d_call (Conv2DBNActiv_conv_0 self) x) ;;
  h <- BatchNorm2d_call (Conv2DBNActiv_conv_1 self) h ;;
  ret (activ_call (Conv2DBNActiv_conv_2 self) h).

Definition Conv2DBNActiv_train (mode : bool) (self : Conv2DBNActiv) : Conv2DBNActiv :=
  {| Conv2DBNActiv_conv_0 := Conv2DBNActiv_conv_0 self;
     Conv2DBNActiv_conv_1 := BatchNorm2d_train mode (Conv2DBNActiv_conv_1 self);
     Conv2DBNActiv_conv_2 := Conv2DBNActiv_conv_2 self |}.

(** ** class SeperableConv2DBNActiv *)

(** [self.conv] is an [nn.Sequential] of four modules. *)
Record SeperableConv2DBNActiv : Type := mkSeperableConv2DBNActiv {
  SeperableConv2DBNActiv_conv_0 : Conv2d;
  SeperableConv2DBNActiv_conv_1 : Conv2d;
  SeperableConv2DBNActiv_conv_2 : BatchNorm2d;
  SeperableConv2DBNActiv_conv_3 : activ
}.

Definition SeperableConv2DBNActiv_init (nin nout ksize stride pad dilation : Z)
    (activ : activ) : M SeperableConv2DBNActiv :=
  d <- nn_Conv2d nin nin ksize stride pad dilation nin false ;;
  p <- nn_Conv2d nin nout 1 1 0 1 1 false ;;
  b <- nn_BatchNorm2d nout ;;
  ret {| SeperableConv2DBNActiv_conv_0 := d;
         SeperableConv2DBNActiv_conv_1 := p;
         SeperableConv2DBNActiv_conv_2 := b;
         SeperableConv2DBNActiv_conv_3 := activ |}.

Definition SeperableConv2DBNActiv_call (self : SeperableConv2DBNActiv)
    (x : Tensor) : M Tensor :=
  h <- lift (Conv2d_call (SeperableConv2DBNActiv_conv_0 self) x) ;;
  h <- lift (Conv2d_call (SeperableConv2DBNActiv_conv_1 self) h) ;;
  h <- BatchNorm2d_call (SeperableConv2DBNActiv_conv_2 self) h ;;
  ret (activ_call (SeperableConv2DBNActiv_conv_3 self) h).

Definition SeperableConv2DBNActiv_train (mode : bool)
    (self : SeperableConv2DBNActiv) : SeperableConv2DBNActiv :=
  {| SeperableConv2DBNActiv_conv_0 := SeperableConv2DBNActiv_conv_0 self;
     SeperableConv2DBNActiv_conv_1 := SeperableConv2DBNActiv_conv_1 self;
     SeperableConv2DBNActiv_conv_2 :=
       BatchNorm2d_train mode (SeperableConv2DBNActiv_conv_2 self);
     SeperableConv2DBNActiv_conv_3 := SeperableConv2DBNActiv_conv_3 self |}.

(** ** class Encoder *)

Record Encoder : Type := mkEncoder {
  Encoder_conv1 : Conv2DBNActiv;
  Encoder_conv2 : Conv2DBNActiv
}.

Definition Encoder_init (nin nout ksize stride pad : Z) (activ : activ)
  : M Encoder :=
  conv1 <- Conv2DBNActiv_init nin nout ksize 1 pad 1 activ ;;
  conv2 <- Conv2DBNActiv_init nout nout ksize stride pad 1 activ ;;
  ret {| Encoder_conv1 := conv1; Encoder_conv2 := conv2 |}.

Definition Encoder_call (self : Encoder) (x : Tensor) : M (Tensor * Tensor) :=
  skip <- Conv2DBNActiv_call (Encoder_conv1 self) x ;;
  h <- Conv2DBNActiv_call (Encoder_conv2 self) skip ;;

  ret (h, skip).

Definition Encoder_train (mode : bool) (self : Encoder) : Encoder :=
  {| Encoder_conv1 := Conv2DBNActiv_train mode (Encoder_conv1 self);
     Encoder_conv2 := Conv2DBNActiv_train mode (Encoder_conv2 self) |}.

(** ** class Decoder *)

Record Decoder : Type := mkDecoder {
  Decoder_conv : Conv2DBNActiv;
  Decoder_dropout : option Dropout2d
}.

(** [stride] is accepted and not used: the convolution is built with 1. *)
Definition Decoder_init (nin nout ksize stride pad : Z) (dropout : bool)
  : M Decoder :=
  conv <- Conv2DBNActiv_init nin nout ksize 1 pad 1 nn_ReLU ;;
  dropout <- (if dropout then (d <- nn_Dropout2d (1 # 10) ;; ret (Some d))
              else ret None) ;;
  ret {| Decoder_conv := conv; Decoder_dropout := dropout |}.

Definition Decoder_call (self : Decoder) (x : Tensor) (skip : option Tensor)
  : M Tensor :=
  x <- lift (F_interpolate x None (Some 2) bilinear true) ;;
  x <- match skip with
       | Some skip => lift (crop_center x skip)
       | None => ret x
       end ;;
  h <- Conv2DBNActiv_call (Decoder_conv self) x ;;

  h <- match Decoder_dropout self with
       | Some dropout => Dropout2d_call dropout h
       | None => ret h
       end ;;

  ret h.

Definition Decoder_train (mode : bool) (self : Decoder) : Decoder :=
  {| Decoder_conv := Conv2DBNActiv_train mode (Decoder_conv self);
     Decoder_dropout := option_map (Dropout2d_train mode) (Decoder_dropout self) |}.

(** ** class DecoderV2 *)

Record DecoderV2 : Type := mkDecoderV2 {
  DecoderV2_conv1 : Conv2DBNActiv;
  DecoderV2_conv2 : Conv2DBNActiv;
  DecoderV2_dropout : option Dropout2d
}.

Definition DecoderV2_init (nin nout ksize stride pad : Z) (dropout : bool)
  : M DecoderV2 :=
  conv1 <- Conv2DBNActiv_init nin nout 1 1 0 1 nn_ReLU ;;
  conv2 <- Conv2DBNActiv_init nout nout ksize 1 pad 1 nn_ReLU ;;
  dropout <- (if dropout then (d <- nn_Dropout2d (1 # 10) ;; ret (Some d))
              else ret None) ;;
  ret {| DecoderV2_conv1 := conv1; DecoderV2_conv2 := conv2;
         DecoderV2_dropout := dropout |}.

Definition DecoderV2_call (self : DecoderV2) (x : Tensor) (skip : option Tensor)
  : M Tensor :=
  x <- match skip with
       | Some skip => lift (torch_cat [x; skip] 1)
       | None => ret x
       end ;;
  h <- Conv2DBNActiv_call (DecoderV2_conv1 self) x ;;
  h <- lift (F_interpolate h None (Some 2) bilinear true) ;;
  h <- Conv2DBNActiv_call (DecoderV2_conv2 self) h ;;

  h <- match DecoderV2_dropout self with
       | Some dropout => Dropout2d_call dropout h
       | None => ret h
       end ;;

  ret h.

Definition DecoderV2_train (mode : bool) (self : DecoderV2) : DecoderV2 :=
  {| DecoderV2_conv1 := Conv2DBNActiv_train mode (DecoderV2_conv1 self);
     DecoderV2_conv2 := Conv2DBNActiv_train mode (DecoderV2_conv2 self);
     DecoderV2_dropout :=
       option_map (Dropout2d_train mode) (DecoderV2_dropout self) |}.

(** ** class ASPPModule *)

Record ASPPModule : Type := mkASPPModule {
  ASPPModule_conv1_0 : AdaptiveAvgPool2d;
  ASPPModule_conv1_1 : Conv2DBNActiv;
  ASPPModule_conv2 : Conv2DBNActiv;
  ASPPModule_conv3 : SeperableConv2DBNActiv;
  ASPPModule_conv4 : SeperableConv2DBNActiv;
  ASPPModule_conv5 : SeperableConv2DBNActiv;
  ASPPModule_bottleneck_0 : Conv2DBNActiv;
  ASPPModule_bottleneck_1 : Dropout2d
}.

Definition ASPPModule_init (nin : Z) (dilations : Z * Z * Z) : M ASPPModule :=
  let '(d0, d1, d2) := dilations in
  pool <- nn_AdaptiveAvgPool2d (1, 1) ;;
  conv1 <- Conv2DBNActiv_init nin nin 1 1 0 1 nn_LeakyReLU ;;
  conv2 <- Conv2DBNActiv_init nin nin 1 1 0 1 nn_LeakyReLU ;;
  conv3 <- SeperableConv2DBNActiv_init nin nin 3 1 d0 d0 nn_LeakyReLU ;;
  conv4 <- SeperableConv2DBNActiv_init nin nin 3 1 d1 d1 nn_LeakyReLU ;;
  conv5 <- SeperableConv2DBNActiv_init nin nin 3 1 d2 d2 nn_LeakyReLU ;;
  bottleneck <- Conv2DBNActiv_init (nin * 5) nin 1 1 0 1 nn_LeakyReLU ;;
  dropout <- nn_Dropout2d (1 # 10) ;;
  ret {| ASPPModule_conv1_0 := pool; ASPPModule_conv1_1 := conv1;
         ASPPModule_conv2 := conv2; ASPPModule_conv3 := conv3;
         ASPPModule_conv4 := conv4; ASPPModule_conv5 := conv5;
         ASPPModule_bottleneck_0 := bottleneck;
         ASPPModule_bottleneck_1 := dropout |}.

(** [ASPPModule(nin)]: [dilations] at its default, [(4, 8, 16)]. *)
Definition ASPPModule_new (nin : Z) : M ASPPModule :=
  ASPPModule_init nin (4, 8, 16).

Definition ASPPModule_forward (self : ASPPModule) (x : Tensor) : M Tensor :=
  match size x with
  | [_; _; h; w] =>
    p <- lift (AdaptiveAvgPool2d_call (ASPPModule_conv1_0 self) x) ;;
    p <- Conv2DBNActiv_call (ASPPModule_conv1_1 self) p ;;
    feat1 <- lift (F_interpolate p (Some (h, w)) None bilinear true) ;;
    feat2 <- Conv2DBNActiv_call (ASPPModule_conv2 self) x ;;
    feat3 <- SeperableConv2DBNActiv_call (ASPPModule_conv3 self) x ;;
    feat4 <- SeperableConv2DBNActiv_call (ASPPModule_conv4 self) x ;;
    feat5 <- SeperableConv2DBNActiv_call (ASPPModule_conv5 self) x ;;
    out <- lift (torch_cat [feat1; feat2; feat3; feat4; feat5] 1) ;;
    b <- Conv2DBNActiv_call (ASPPModule_bottleneck_0 self) out ;;
    bottle <- Dropout2d_call (ASPPModule_bottleneck_1 self) b ;;
    ret bottle
  | _ => raise ValueError
  end.

Definition ASPPModule_train (mode : bool) (self : ASPPModule) : ASPPModule :=
  {| ASPPModule_conv1_0 := ASPPModule_conv1_0 self;
     ASPPModule_conv1_1 := Conv2DBNActiv_train mode (ASPPModule_conv1_1 self);
     ASPPModule_conv2 := Conv2DBNActiv_train mode (ASPPModule_conv2 self);
     ASPPModule_conv3 := SeperableConv2DBNActiv_train mode (ASPPModule_conv3 self);
     ASPPModule_conv4 := SeperableConv2DBNActiv_train mode (ASPPModule_conv4 self);
     ASPPModule_conv5 := SeperableConv2DBNActiv_train mode (ASPPModule_conv5 self);
     ASPPModule_bottleneck_0 :=
       Conv2DBNActiv_train mode (ASPPModule_bottleneck_0 self);
     ASPPModule_bottleneck_1 :=
       Dropout2d_train mode (ASPPModule_bottleneck_1 self) |}.

(** * Vocabulary of the statements *)

(** A batch normalisation layer accepts [n] x [h] x [w] values per channel:
    when training it needs more than one. *)
Definition bn_ok (mode : bool) (n h w : Z) : Prop :=
  mode = false \/ n * h * w <> 1.

(** The kernel fits in the padded input along an axis of length [n]. *)
Definition fits (n ksize pad dilation : Z) : Prop :=
  dilation * (ksize - 1) + 1 <= n + 2 * pad.

(** The hyper-parameters of a bias-free convolution. *)
Definition conv_is (c : Conv2d) (nin nout k s p d g : Z) : Prop :=
  in_channels c = nin /\ out_channels c = nout /\ kernel_size c = k /\
  stride c = s /\ padding c = p /\ dilation c = d /\ groups c = g /\
  bias c = None.

Definition Conv2DBNActiv_is (self : Conv2DBNActiv)
    (nin nout ksize stride pad dilation : Z) (a : activ) (mode : bool) : Prop :=
  conv_is (Conv2DBNActiv_conv_0 self) nin nout ksize stride pad dilation 1 /\
  num_features (Conv2DBNActiv_conv_1 self) = nout /\
  bn_training (Conv2DBNActiv_conv_1 self) = mode /\
  Conv2DBNActiv_conv_2 self = a.

Definition SeperableConv2DBNActiv_is (self : SeperableConv2DBNActiv)
    (nin nout ksize stride pad dilation : Z) (a : activ) (mode : bool) : Prop :=
  conv_is (SeperableConv2DBNActiv_conv_0 self)
          nin nin ksize stride pad dilation nin /\
  conv_is (SeperableConv2DBNActiv_conv_1 self) nin nout 1 1 0 1 1 /\
  num_features (SeperableConv2DBNActiv_conv_2 self) = nout /\
  bn_training (SeperableConv2DBNActiv_conv_2 self) = mode /\
  SeperableConv2DBNActiv_conv_3 self = a.

(** The optional dropout of a decoder is in mode [mode]. *)
Definition dropout_is (d : option Dropout2d) (present mode : bool) : Prop :=
  match d with
  | Some dp => present = true /\ dp_training dp = mode
  | None => present = false
  end.

(** The tensor a convolution returns on an input whose plane is [h] x [w]. *)
Definition conv_result (c : Conv2d) (x : Tensor) (n h w : Z) : Tensor :=
  {| size := [n; out_channels c;
              conv_out h (kernel_size c) (stride c) (padding c) (dilation c);
              conv_out w (kernel_size c) (stride c) (padding c) (dilation c)];
     item := conv2d_item c x h w |}.

(** A computation whose result depends on the world only through the
    running statistics, and which leaves the world as it found it: it draws
    nothing from the random source and tracks no statistics. *)
Definition reads_only_stats {A : Type} (m : M A) : Prop :=
  forall w w2 : World,
    buffers w2 = buffers w ->
    fst (m w2) = fst (m w) /\ snd (m w) = w.

(** A deterministic computation: its result does not depend on the random
    source, and running it again returns the same result. *)
Definition deterministic {A : Type} (m : M A) : Prop :=
  reads_only_stats m /\
  forall w : World, fst (m (snd (m w))) = fst (m w).

(** Two tensors agree on channel [c]. *)
Definition same_channel (c : Z) (x x' : Tensor) : Prop :=
  forall b i j, item x [b; c; i; j] = item x' [b; c; i; j].

(** * Vocabulary of the statements about effects *)

(** The result of a computation does not depend on the world at all. *)
Definition ignores_world {A : Type} (m : M A) : Prop :=
  forall w w2 : World, fst (m w) = fst (m w2).

(** Between [w] and [w'] one more batch was tracked at address [a]. *)
Definition tracked_once (a : nat) (w w' : World) : Prop :=
  num_batches_tracked (buffers w' a) = num_batches_tracked (buffers w a) + 1.

(** Between [w] and [w'] nothing changed except the running statistics at
    the addresses [addrs]. *)
Definition frame (addrs : list nat) (w w' : World) : Prop :=
  source w' = source w /\ drawn w' = drawn w /\ allocated w' = allocated w /\
  forall b, ~ In b addrs -> buffers w' b = buffers w b.

(** Between [w] and [w'] the batch was counted at address [a] and nothing
    else changed: the running mean and variance are as they were. *)
Definition counted_only (a : nat) (w w' : World) : Prop :=
  frame [a] w w' /\ tracked_once a w w' /\
  running_mean (buffers w' a) = running_mean (buffers w a) /\
  running_var (buffers w' a) = running_var (buffers w a).

(** The address of the running statistics of a block. *)
Definition Conv2DBNActiv_stats (self : Conv2DBNActiv) : nat :=
  bn_stats (Conv2DBNActiv_conv_1 self).

End Layers.

(** * A concrete scalar type for running the model *)

(** Rational numbers stand in for floating-point numbers when the model is
    run on examples; the square root and the exponential are rational
    approximations (Newton steps, a Taylor polynomial). *)
Definition qsqrt (a : Q) : Q :=
  let step x := Qred ((x + a / x) / 2) in
  step (step (step (step (step 1%Q)))).

Definition qexp (x : Q) : Q :=
  Qred (1 + x * (1 + x / 2 * (1 + x / 3 * (1 + x / 4 * (1 + x / 5))))).

Definition Q_float : Float Q :=
  {| f0 := 0%Q; f1 := 1%Q;
     fadd := Qplus; fsub := Qminus; fmul := Qmult; fdiv := Qdiv;
     fsqrt := qsqrt; fexp := qexp;
     fltb := fun a b => negb (Qle_bool b a);
     of_Z := inject_Z |}.

(** A world to start from: a fixed random source, nothing drawn, nothing
    allocated. *)
Definition world0 : @World Q :=
  {| source := fun k => (inject_Z (Z.of_nat (k mod 10)) / 10)%Q;
     drawn := 0%nat;
     buffers := fun _ =>
       {| running_mean := @full Q [] 0%Q;
          running_var := @full Q [] 1%Q;
          num_batches_tracked := 0 |};
     allocated := 0%nat |}.

(** A 1 x 1 x 2 x 2 and a 1 x 1 x 3 x 3 tensor that count their entries. *)
Definition x22 : @Tensor Q :=
  {| size := [1; 1; 2; 2];
     item := fun idx =>
       match idx with
       | [_; _; i; j] => inject_Z (2 * i + j)
       | _ => 0%Q
       end |}.

Definition x33 : @Tensor Q :=
  {| size := [1; 1; 3; 3];
     item := fun idx =>
       match idx with
       | [_; _; i; j] => inject_Z (3 * i + j + 1)
       | _ => 0%Q
       end |}.

(** A 3 x 3 convolution of one channel whose weights are all 1. *)
Definition box3 (stride : Z) : @Conv2d Q :=
  {| in_channels := 1; out_channels := 1; kernel_size := 3; stride := stride;
     padding := 1; dilation := 1; groups := 1;
     weight := full [1; 1; 3; 3] 1%Q; bias := None |}.

(** The entries of the first plane of a tensor, reduced. *)
Definition plane (h w : Z) (r : result (@Tensor Q)) : list (list Q) :=
  match r with
  | Ok t => map (fun i => map (fun j => Qred (item t [0; 0; i; j])) (range w))
                (range h)
  | Raise _ => []
  end.

(** * Properties *)

Unset Implicit Arguments.

Section Properties.

Context {T : Type} {FT : Float T}.

(** ** Running computations *)

Lemma bind_Ok {S A B} (m : ST S A) (k : A -> ST S B) w a w' :
  m w = (Ok a, w') -> bind m k w = k a w'.
Proof. intros H. unfold bind. rewrite H. reflexivity. Qed.

Lemma bind_Raise {S A B} (m : ST S A) (k : A -> ST S B) w e w' :
  m w = (Raise e, w') -> bind m k w = (Raise e, w').
Proof. intros H. unfold bind. rewrite H. reflexivity. Qed.

Arguments bind_Ok {S A B m} k {w a w'} _.
Arguments bind_Raise {S A B m} k {w e w'} _.

Lemma bind_lift_Ok {S A B} (r : result A) (k : A -> ST S B) w a :
  r = Ok a -> bind (lift r) k w = k a w.
Proof. intros ->. reflexivity. Qed.

Lemma bind_lift_Raise {S A B} (r : result A) (k : A -> ST S B) w e :
  r = Raise e -> bind (lift r) k w = (Raise e, w).
Proof. intros ->. reflexivity. Qed.

Arguments bind_lift_Ok {S A B r} k w {a} _.
Arguments bind_lift_Raise {S A B r} k w {e} _.

(** ** Constructors *)

Lemma torch_empty_Ok (s : list Z) (w : @World T) :
  negative_dim s = false ->
  exists t w', torch_empty s w = (Ok t, w') /\ size t = s.
Proof.
  intros H. unfold torch_empty. rewrite H.
  eexists. eexists. split; reflexivity.
Qed.

Lemma negative_dim_false (s : list Z) :
  Forall (fun d => 0 <= d) s -> negative_dim s = false.
Proof.
  unfold negative_dim. induction 1 as [|d s Hd _ IH]; simpl.
  - reflexivity.
  - rewrite IH. destruct (Z.ltb_spec d 0); [lia | reflexivity].
Qed.

Lemma nn_Conv2d_Ok (nin nout k s p d g : Z) (w : @World T) :
  0 < g -> nin mod g = 0 -> nout mod g = 0 ->
  0 <= nin -> 0 <= nout -> 0 <= k ->
  exists c w', nn_Conv2d nin nout k s p d g false w = (Ok c, w') /\
               conv_is c nin nout k s p d g.
Proof.
  intros Hg Hi Ho Hnin Hnout Hk. unfold nn_Conv2d.
  destruct (Z.leb_spec g 0); [lia|].
  rewrite Hi, Ho. simpl.
  destruct (torch_empty_Ok [nout; nin / g; k; k] w) as (t & w' & Ht & _).
  { apply negative_dim_false. repeat constructor; try lia.
    apply Z.div_pos; lia. }
  rewrite (bind_Ok _ Ht). simpl.
  eexists. eexists. split; [reflexivity|].
  repeat split.
Qed.

Lemma nn_BatchNorm2d_Ok (nf : Z) (w : @World T) :
  0 <= nf ->
  exists b w', nn_BatchNorm2d nf w = (Ok b, w') /\
               num_features b = nf /\ bn_training b = true.
Proof.
  intros H. unfold nn_BatchNorm2d, torch_ones, torch_zeros, torch_full.
  rewrite negative_dim_false by (repeat constructor; lia).
  eexists. eexists. split; [reflexivity|]. split; reflexivity.
Qed.

Lemma Conv2DBNActiv_init_Ok (nin nout ksize stride pad dilation : Z)
    (a : activ) (w : @World T) :
  0 <= nin -> 0 <= nout -> 0 <= ksize ->
  exists self w',
    Conv2DBNActiv_init nin nout ksize stride pad dilation a w = (Ok self, w') /\
    Conv2DBNActiv_is self nin nout ksize stride pad dilation a true.
Proof.
  intros Hnin Hnout Hk. unfold Conv2DBNActiv_init.
  destruct (nn_Conv2d_Ok nin nout ksize stride pad dilation 1 w)
    as (c & w1 & Hc & Hcis); try lia; try apply Z.mod_1_r.
  destruct (nn_BatchNorm2d_Ok nout w1) as (b & w2 & Hb & Hnf & Htr); [lia|].
  rewrite (bind_Ok _ Hc), (bind_Ok _ Hb).
  eexists. eexists. split; [reflexivity|].
  repeat split; simpl; try apply Hcis; assumption.
Qed.

(** ** Calls of the PyTorch layers *)

Lemma Conv2d_call_Ok (c : Conv2d) (x : @Tensor T) nin nout k s p d g n h w :
  conv_is c nin nout k s p d g ->
  size x = [n; nin; h; w] ->
  1 <= k -> 1 <= s -> 0 <= p -> 1 <= d ->
  fits h k p d -> fits w k p d ->
  Conv2d_call c x =
  Ok {| size := [n; nout; conv_out h k s p d; conv_out w k s p d];
        item := conv2d_item c x h w |}.
Proof.
  intros (Hi & Ho & Hk & Hs & Hp & Hd & _ & _) Hx Hk1 Hs1 Hp0 Hd1 Fh Fw.
  unfold fits in *. unfold Conv2d_call. rewrite Hx. unfold conv2d_batched.
  rewrite Hi, Ho, Hk, Hs, Hp, Hd.
  rewrite Z.eqb_refl.
  rewrite (proj2 (Z.leb_gt k 0)), (proj2 (Z.leb_gt s 0)),
          (proj2 (Z.ltb_ge p 0)), (proj2 (Z.leb_gt d 0)) by lia.
  cbv zeta.
  rewrite (proj2 (Z.ltb_ge (h + 2 * p) (d * (k - 1) + 1))),
          (proj2 (Z.ltb_ge (w + 2 * p) (d * (k - 1) + 1))) by lia.
  reflexivity.
Qed.

Lemma BatchNorm2d_call_Ok (b : BatchNorm2d) (mode : bool) (x : @Tensor T)
    n c h w (wd : World) :
  num_features b = c ->
  size x = [n; c; h; w] ->
  bn_ok mode n h w ->
  exists wd',
    BatchNorm2d_call (BatchNorm2d_train mode b) x wd =
      (Ok (BatchNorm2d_result b mode x n h w wd), wd') /\
    (mode = false -> wd' = wd).
Proof.
  intros Hc Hx Hok. unfold BatchNorm2d_call. rewrite Hx. simpl.
  rewrite Hc, Z.eqb_refl. simpl. destruct mode.
  - destruct Hok as [Hm | Hn]; [discriminate|].
    destruct (Z.eqb_spec (n * h * w) 1); [contradiction|].
    eexists. split; [reflexivity | discriminate].
  - exists wd. split; reflexivity.
Qed.

Lemma BatchNorm2d_result_size (b : BatchNorm2d) mode (x : @Tensor T) n h w wd :
  size (BatchNorm2d_result b mode x n h w wd) = size x.
Proof. destruct mode; reflexivity. Qed.

Lemma activ_call_size (a : activ) (x : @Tensor T) :
  size (activ_call a x) = size x.
Proof. reflexivity. Qed.

(** ** Conv2DBNActiv *)

Lemma Conv2DBNActiv_call_Ok (self : @Conv2DBNActiv T) nin nout k s p d a m mode
    (x : Tensor) n h w (wd : World) :
  Conv2DBNActiv_is self nin nout k s p d a m ->
  size x = [n; nin; h; w] ->
  1 <= k -> 1 <= s -> 0 <= p -> 1 <= d ->
  fits h k p d -> fits w k p d ->
  bn_ok mode n (conv_out h k s p d) (conv_out w k s p d) ->
  exists wd',
    Conv2DBNActiv_call (Conv2DBNActiv_train mode self) x wd =
      (Ok (activ_call a
             (BatchNorm2d_result (Conv2DBNActiv_conv_1 self) mode
                (conv_result (Conv2DBNActiv_conv_0 self) x n h w)
                n (conv_out h k s p d) (conv_out w k s p d) wd)), wd') /\
    (mode = false -> wd' = wd).
Proof.
  intros (Hc & Hn & _ & Ha) Hx Hk Hs Hp Hd Fh Fw Hok.
  pose proof (Conv2d_call_Ok _ _ _ _ _ _ _ _ _ _ _ _ Hc Hx Hk Hs Hp Hd Fh Fw) as Hcall.
  destruct Hc as (Hi & Ho & Hks & Hst & Hpd & Hdl & _ & _).
  assert (Hres : conv_result (Conv2DBNActiv_conv_0 self) x n h w =
                 {| size := [n; nout; conv_out h k s p d; conv_out w k s p d];
                    item := conv2d_item (Conv2DBNActiv_conv_0 self) x h w |}).
  { unfold conv_result. rewrite Ho, Hks, Hst, Hpd, Hdl. reflexivity. }
  rewrite <- Hres in Hcall.
  destruct (BatchNorm2d_call_Ok (Conv2DBNActiv_conv_1 self) mode
              (conv_result (Conv2DBNActiv_conv_0 self) x n h w)
              n nout (conv_out h k s p d) (conv_out w k s p d) wd Hn)
    as (wd' & Hbn & Hw); [rewrite Hres; reflexivity | assumption |].
  exists wd'. split; [|assumption].
  unfold Conv2DBNActiv_call.
  change (Conv2DBNActiv_conv_0 (Conv2DBNActiv_train mode self))
    with (Conv2DBNActiv_conv_0 self).
  rewrite (bind_lift_Ok _ wd Hcall).
  change (Conv2DBNActiv_conv_1 (Conv2DBNActiv_train mode self))
    with (BatchNorm2d_train mode (Conv2DBNActiv_conv_1 self)).
  rewrite (bind_Ok _ Hbn).
  change (Conv2DBNActiv_conv_2 (Conv2DBNActiv_train mode self))
    with (Conv2DBNActiv_conv_2 self).
  rewrite Ha. reflexivity.
Qed.

(** The shape of what [Conv2DBNActiv] returns. *)
Lemma Conv2DBNActiv_call_size (self : @Conv2DBNActiv T) nin nout k s p d a m mode
    (x : Tensor) n h w (wd : World) :
  Conv2DBNActiv_is self nin nout k s p d a m ->
  size x = [n; nin; h; w] ->
  1 <= k -> 1 <= s -> 0 <= p -> 1 <= d ->
  fits h k p d -> fits w k p d ->
  bn_ok mode n (conv_out h k s p d) (conv_out w k s p d) ->
  exists y wd',
    Conv2DBNActiv_call (Conv2DBNActiv_train mode self) x wd = (Ok y, wd') /\
    size y = [n; nout; conv_out h k s p d; conv_out w k s p d] /\
    (mode = false -> wd' = wd).
Proof.
  intros His Hx Hk Hs Hp Hd Fh Fw Hok.
  destruct (Conv2DBNActiv_call_Ok self nin nout k s p d a m mode x n h w wd)
    as (wd' & Hcall & Hw); try assumption.
  eexists. exists wd'. split; [exact Hcall|]. split; [|assumption].
  rewrite activ_call_size, BatchNorm2d_result_size.
  destruct His as ((_ & Ho & Hks & Hst & Hpd & Hdl & _ & _) & _).
  unfold conv_result. simpl. rewrite Ho, Hks, Hst, Hpd, Hdl. reflexivity.
Qed.

Lemma fsum_ext (n : Z) (f g : Z -> T) :
  (forall i, f i = g i) -> fsum n f = fsum n g.
Proof.
  intros H. unfold fsum. generalize (@f0 T FT).
  induction (range n) as [|i l IH]; intros acc; simpl.
  - reflexivity.
  - rewrite H. apply IH.
Qed.

(** With one group every output channel sums over all the input channels,
    and nothing is added to the sum. *)
Lemma conv2d_item_dense (c : Conv2d) (x : @Tensor T) nin nout k s p d h w
    (b co i j : Z) :
  conv_is c nin nout k s p d 1 ->
  0 <= co < nout ->
  conv2d_item c x h w [b; co; i; j] =
  fsum nin (fun ci => fsum k (fun ki => fsum k (fun kj =>
    fmul (item (weight c) [co; ci; ki; kj])
         (padded x h w b ci (i * s - p + ki * d) (j * s - p + kj * d))))).
Proof.
  intros (Hi & Ho & Hk & Hs & Hp & Hd & Hg & Hb) Hco.
  unfold conv2d_item. rewrite Hb, Hi, Ho, Hk, Hs, Hp, Hd, Hg.
  rewrite !Z.div_1_r, (Z.div_small co nout) by lia.
  apply fsum_ext; intros ci. replace (0 * nin + ci) with ci by lia.
  reflexivity.
Qed.

(** C6.  [Conv2DBNActiv(nin, nout, ksize, stride, pad, dilation, activ)] is
    built for every admissible configuration, and on an input with [nin]
    channels in which the kernel fits it applies a convolution without bias
    (every output channel is the plain weighted sum over the zero-padded
    input), then batch normalisation (with the statistics of the batch and
    the plane when training, the running ones otherwise), then the
    activation, pointwise.  The result has [nout] channels and its height and
    width are [floor((n + 2*pad - dilation*(ksize-1) - 1) / stride) + 1] of
    the input's.  Without an [activ] argument the activation is the rectified
    linear one. *)
Theorem Conv2DBNActiv_contract
    (nin nout ksize stride pad dilation : Z) (a : activ) (mode : bool)
    (x : @Tensor T) (n h w : Z) (w0 wd : World) :
  1 <= nin -> 1 <= nout ->
  1 <= ksize -> 1 <= stride -> 0 <= pad -> 1 <= dilation ->
  size x = [n; nin; h; w] -> 1 <= n ->
  fits h ksize pad dilation -> fits w ksize pad dilation ->
  bn_ok mode n (conv_out h ksize stride pad dilation)
               (conv_out w ksize stride pad dilation) ->
  exists self w1 wd',
    Conv2DBNActiv_init nin nout ksize stride pad dilation a w0 = (Ok self, w1) /\
    let conv := Conv2DBNActiv_conv_0 self in
    let c := conv_result conv x n h w in
    let y := activ_call a
               (BatchNorm2d_result (Conv2DBNActiv_conv_1 self) mode c n
                  (conv_out h ksize stride pad dilation)
                  (conv_out w ksize stride pad dilation) wd) in
    conv_is conv nin nout ksize stride pad dilation 1 /\
    Conv2d_call conv x = Ok c /\
    (forall b co i j, 0 <= co < nout ->
       item c [b; co; i; j] =
       fsum nin (fun ci => fsum ksize (fun ki => fsum ksize (fun kj =>
         fmul (item (weight conv) [co; ci; ki; kj])
              (padded x h w b ci (i * stride - pad + ki * dilation)
                      (j * stride - pad + kj * dilation)))))) /\
    Conv2DBNActiv_call (Conv2DBNActiv_train mode self) x wd = (Ok y, wd') /\
    (forall idx, item y idx = activ_fn a (item (BatchNorm2d_result
       (Conv2DBNActiv_conv_1 self) mode c n
       (conv_out h ksize stride pad dilation)
       (conv_out w ksize stride pad dilation) wd) idx)) /\
    size y = [n; nout;
              (h + 2 * pad - dilation * (ksize - 1) - 1) / stride + 1;
              (w + 2 * pad - dilation * (ksize - 1) - 1) / stride + 1] /\
    (mode = false -> wd' = wd) /\
    exists s0 w2, Conv2DBNActiv_new nin nout w0 = (Ok s0, w2) /\
                  Conv2DBNActiv_conv_2 s0 = nn_ReLU.
Proof.
  intros Hnin Hnout Hk Hs Hp Hd Hx Hn1 Fh Fw Hok.
  destruct (Conv2DBNActiv_init_Ok nin nout ksize stride pad dilation a w0)
    as (self & w1 & Hinit & His); try lia.
  destruct (Conv2DBNActiv_call_Ok self nin nout ksize stride pad dilation a
              true mode x n h w wd His Hx Hk Hs Hp Hd Fh Fw Hok)
    as (wd' & Hcall & Hw).
  exists self, w1, wd'. split; [exact Hinit|]. cbv zeta.
  pose proof His as (Hc & Hn & _ & Ha).
  pose proof Hc as (Hi & Ho & Hks & Hst & Hpd & Hdl & _ & _).
  assert (Hres : conv_result (Conv2DBNActiv_conv_0 self) x n h w =
                 {| size := [n; nout; conv_out h ksize stride pad dilation;
                             conv_out w ksize stride pad dilation];
                    item := conv2d_item (Conv2DBNActiv_conv_0 self) x h w |}).
  { unfold conv_result. rewrite Ho, Hks, Hst, Hpd, Hdl. reflexivity. }
  split; [exact Hc|]. split.
  { rewrite Hres. apply (Conv2d_call_Ok _ _ _ _ _ _ _ _ _ _ _ _ Hc Hx);
      assumption. }
  split.
  { intros b co i j Hco. rewrite Hres. cbn [item].
    apply (conv2d_item_dense _ _ _ _ _ _ _ _ _ _ _ _ _ _ Hc Hco). }
  split; [exact Hcall|]. split; [reflexivity|]. split.
  { rewrite activ_call_size, BatchNorm2d_result_size, Hres. reflexivity. }
  split; [exact Hw|].
  destruct (Conv2DBNActiv_init_Ok nin nout 3 1 1 1 nn_ReLU w0)
    as (s0 & w2 & Hinit0 & (_ & _ & _ & Ha0)); try lia.
  exists s0, w2. split; assumption.
Qed.

(** A block is constructed in training mode: [train(True)] changes nothing. *)
Lemma BatchNorm2d_train_same (b : @BatchNorm2d T) :
  BatchNorm2d_train (bn_training b) b = b.
Proof. destruct b; reflexivity. Qed.

Lemma Conv2DBNActiv_train_same (self : @Conv2DBNActiv T) (m : bool) :
  bn_training (Conv2DBNActiv_conv_1 self) = m ->
  Conv2DBNActiv_train m self = self.
Proof.
  intros <-. destruct self as [c b a]. unfold Conv2DBNActiv_train. cbn.
  rewrite BatchNorm2d_train_same. reflexivity.
Qed.

(** ** Encoder *)

Lemma conv_out_unit_stride (n k p : Z) : conv_out n k 1 p 1 = n + 2 * p - k + 1.
Proof. unfold conv_out. rewrite Z.div_1_r. lia. Qed.

Lemma Encoder_init_Ok (nin nout ksize stride pad : Z) (a : activ) (w : @World T) :
  0 <= nin -> 0 <= nout -> 0 <= ksize ->
  exists self w',
    Encoder_init nin nout ksize stride pad a w = (Ok self, w') /\
    Conv2DBNActiv_is (Encoder_conv1 self) nin nout ksize 1 pad 1 a true /\
    Conv2DBNActiv_is (Encoder_conv2 self) nout nout ksize stride pad 1 a true.
Proof.
  intros Hnin Hnout Hk. unfold Encoder_init.
  destruct (Conv2DBNActiv_init_Ok nin nout ksize 1 pad 1 a w)
    as (c1 & w1 & H1 & I1); try assumption.
  destruct (Conv2DBNActiv_init_Ok nout nout ksize stride pad 1 a w1)
    as (c2 & w2 & H2 & I2); try assumption.
  rewrite (bind_Ok _ H1), (bind_Ok _ H2).
  exists {| Encoder_conv1 := c1; Encoder_conv2 := c2 |}, w2.
  split; [reflexivity|]. split; assumption.
Qed.

(** C1.  [Encoder(nin, nout, ksize, stride, pad, activ)] returns the pair
    (downsampled output, skip): the skip is what the first [Conv2DBNActiv],
    built with stride 1, returns on the input, and the output is what the
    second one, built with the configured stride, returns on the skip.  When
    [ksize = 2*pad + 1] (the default 3 and 1) the skip has the height and
    width of the input, and the output has those of the skip divided by the
    stride as the convolution formula rounds. *)
Theorem Encoder_contract
    (nin nout ksize stride pad : Z) (a : activ) (mode : bool)
    (x : @Tensor T) (n h w : Z) (w0 wd : World) :
  1 <= nin -> 1 <= nout -> 1 <= ksize -> 1 <= stride -> 0 <= pad ->
  size x = [n; nin; h; w] -> 1 <= n ->
  fits h ksize pad 1 -> fits w ksize pad 1 ->
  fits (conv_out h ksize 1 pad 1) ksize pad 1 ->
  fits (conv_out w ksize 1 pad 1) ksize pad 1 ->
  bn_ok mode n (conv_out h ksize 1 pad 1) (conv_out w ksize 1 pad 1) ->
  bn_ok mode n (conv_out (conv_out h ksize 1 pad 1) ksize stride pad 1)
               (conv_out (conv_out w ksize 1 pad 1) ksize stride pad 1) ->
  exists self w1 skip out wd1 wd2,
    Encoder_init nin nout ksize stride pad a w0 = (Ok self, w1) /\
    Conv2DBNActiv_is (Encoder_conv1 self) nin nout ksize 1 pad 1 a true /\
    Conv2DBNActiv_is (Encoder_conv2 self) nout nout ksize stride pad 1 a true /\
    Conv2DBNActiv_call (Encoder_conv1 (Encoder_train mode self)) x wd =
      (Ok skip, wd1) /\
    Conv2DBNActiv_call (Encoder_conv2 (Encoder_train mode self)) skip wd1 =
      (Ok out, wd2) /\
    Encoder_call (Encoder_train mode self) x wd = (Ok (out, skip), wd2) /\
    size skip = [n; nout; h + 2 * pad - ksize + 1; w + 2 * pad - ksize + 1] /\
    size out = [n; nout;
                (h + 2 * pad - ksize + 1 + 2 * pad - (ksize - 1) - 1) / stride + 1;
                (w + 2 * pad - ksize + 1 + 2 * pad - (ksize - 1) - 1) / stride + 1] /\
    (ksize = 2 * pad + 1 ->
     size skip = [n; nout; h; w] /\
     size out = [n; nout; (h - 1) / stride + 1; (w - 1) / stride + 1]) /\
    Encoder_train true self = self.
Proof.
  intros Hnin Hnout Hk Hs Hp Hx Hn1 Fh Fw Fh2 Fw2 Hok1 Hok2.
  destruct (Encoder_init_Ok nin nout ksize stride pad a w0)
    as (self & w1 & Hinit & I1 & I2); try lia.
  destruct (Conv2DBNActiv_call_size (Encoder_conv1 self) nin nout ksize 1 pad 1
              a true mode x n h w wd I1 Hx)
    as (skip & wd1 & Hc1 & Hs1 & _); try assumption; try lia.
  destruct (Conv2DBNActiv_call_size (Encoder_conv2 self) nout nout ksize stride
              pad 1 a true mode skip n _ _ wd1 I2 Hs1)
    as (out & wd2 & Hc2 & Hs2 & _); try assumption; try lia.
  exists self, w1, skip, out, wd1, wd2.
  split; [exact Hinit|].
  split; [exact I1|]. split; [exact I2|].
  split; [exact Hc1|]. split; [exact Hc2|].
  split.
  { unfold Encoder_call.
    change (Encoder_conv1 (Encoder_train mode self))
      with (Conv2DBNActiv_train mode (Encoder_conv1 self)).
    rewrite (bind_Ok _ Hc1).
    change (Encoder_conv2 (Encoder_train mode self))
      with (Conv2DBNActiv_train mode (Encoder_conv2 self)).
    rewrite (bind_Ok _ Hc2). reflexivity. }
  rewrite !conv_out_unit_stride in Hs1, Hs2.
  split; [exact Hs1|].
  split.
  { rewrite Hs2. unfold conv_out.
    replace (1 * (ksize - 1)) with (ksize - 1) by lia. reflexivity. }
  split.
  { intros Hkp. split.
    - rewrite Hs1. repeat f_equal; lia.
    - rewrite Hs2. unfold conv_out. repeat f_equal; lia. }
  destruct self as [c1 c2]. unfold Encoder_train. cbn in *.
  rewrite !Conv2DBNActiv_train_same; [reflexivity | apply I2 | apply I1].
Qed.

(** ** Decoder *)

Lemma F_interpolate_scale2 (x : @Tensor T) (n c h w : Z) :
  size x = [n; c; h; w] -> 1 <= h -> 1 <= w ->
  F_interpolate x None (Some 2) bilinear true =
  Ok {| size := [n; c; 2 * h; 2 * w];
        item := bilinear_item x true h w (h * 2) (w * 2) |}.
Proof.
  intros Hx Hh Hw. unfold F_interpolate, resize. rewrite Hx.
  rewrite (proj2 (Z.leb_gt h 0)), (proj2 (Z.leb_gt w 0)),
          (proj2 (Z.leb_gt (h * 2) 0)), (proj2 (Z.leb_gt (w * 2) 0)) by lia.
  cbn [orb]. rewrite (Z.mul_comm h 2), (Z.mul_comm w 2). reflexivity.
Qed.

Lemma crop_center_Ok (h1 h2 : @Tensor T) (n c a1 b1 n2 c2 a2 b2 : Z) :
  size h1 = [n; c; a1; b1] -> size h2 = [n2; c2; a2; b2] ->
  a2 <= a1 -> b2 <= b1 ->
  exists y, crop_center h1 h2 = Ok y /\ size y = [n; c; a2; b2] /\
    forall p q i j,
      item y [p; q; i; j] = item h1 [p; q; (a1 - a2) / 2 + i; (b1 - b2) / 2 + j].
Proof.
  intros H1 H2 Ha Hb. unfold crop_center. rewrite H1, H2.
  rewrite (proj2 (Z.leb_le a2 a1)), (proj2 (Z.leb_le b2 b1)) by lia.
  cbn [andb]. eexists. split; [reflexivity|]. split; reflexivity.
Qed.

(** Whatever [crop_center] returns has the plane of the reference. *)
Lemma crop_center_size (h1 h2 y : @Tensor T) :
  crop_center h1 h2 = Ok y ->
  exists n c n2 c2 a b,
    size h2 = [n2; c2; a; b] /\ size y = [n; c; a; b].
Proof.
  unfold crop_center. intros H.
  destruct (size h1) as [|n [|c [|a1 [|b1 [|]]]]]; try discriminate.
  destruct (size h2) as [|n2 [|c2 [|a2 [|b2 [|]]]]]; try discriminate.
  destruct ((a2 <=? a1) && (b2 <=? b1)); [|discriminate].
  injection H as <-. exists n, c, n2, c2, a2, b2. split; reflexivity.
Qed.

Lemma Dropout2d_call_Ok (d : Dropout2d) (mode : bool) (x : @Tensor T)
    (n c : Z) (rest : list Z) (wd : World) :
  size x = n :: c :: rest ->
  exists y wd',
    Dropout2d_call (Dropout2d_train mode d) x wd = (Ok y, wd') /\
    size y = size x /\
    (mode = false -> y = x /\ wd' = wd).
Proof.
  intros Hx. unfold Dropout2d_call. cbn [dp_training Dropout2d_train].
  destruct mode.
  - rewrite Hx. eexists. eexists. split; [reflexivity|].
    split; [reflexivity | discriminate].
  - exists x, wd. repeat split.
Qed.

(** The optional dropout at the end of both decoders. *)
Lemma optional_dropout_Ok (d : option Dropout2d) (mode : bool) (x : @Tensor T)
    (n c : Z) (rest : list Z) (wd : World) :
  size x = n :: c :: rest ->
  exists y wd',
    match option_map (Dropout2d_train mode) d with
    | Some dropout => Dropout2d_call dropout x
    | None => ret x
    end wd = (Ok y, wd') /\
    size y = size x /\
    (mode = false -> y = x /\ wd' = wd).
Proof.
  intros Hx. destruct d as [d|]; cbn [option_map].
  - apply (Dropout2d_call_Ok d mode x n c rest wd Hx).
  - exists x, wd. repeat split.
Qed.

Lemma Decoder_init_Ok (nin nout ksize stride pad : Z) (dropout : bool)
    (w : @World T) :
  0 <= nin -> 0 <= nout -> 0 <= ksize ->
  exists self w',
    Decoder_init nin nout ksize stride pad dropout w = (Ok self, w') /\
    Conv2DBNActiv_is (Decoder_conv self) nin nout ksize 1 pad 1 nn_ReLU true /\
    dropout_is (Decoder_dropout self) dropout true.
Proof.
  intros Hnin Hnout Hk. unfold Decoder_init.
  destruct (Conv2DBNActiv_init_Ok nin nout ksize 1 pad 1 nn_ReLU w)
    as (c & w1 & Hc & Ic); try assumption.
  rewrite (bind_Ok _ Hc). destruct dropout.
  - eexists. eexists. split; [reflexivity|]. split; [exact Ic|].
    split; reflexivity.
  - eexists. eexists. split; [reflexivity|]. split; [exact Ic|]. reflexivity.
Qed.

(** What the decoders do once the input of the convolution block is known. *)
Lemma Decoder_tail (self : @Decoder T) nin nout pad (dropout m mode : bool)
    (z : Tensor) n hz wz (wd : World) :
  Conv2DBNActiv_is (Decoder_conv self) nin nout (2 * pad + 1) 1 pad 1 nn_ReLU m ->
  0 <= pad ->
  size z = [n; nin; hz; wz] -> 1 <= hz -> 1 <= wz ->
  bn_ok mode n hz wz ->
  exists c y wd1 wd',
    Conv2DBNActiv_call (Decoder_conv (Decoder_train mode self)) z wd =
      (Ok c, wd1) /\
    size c = [n; nout; hz; wz] /\
    match Decoder_dropout (Decoder_train mode self) with
    | Some dropout => Dropout2d_call dropout c
    | None => ret c
    end wd1 = (Ok y, wd') /\
    size y = [n; nout; hz; wz] /\
    (Decoder_dropout self = None -> y = c /\ wd' = wd1) /\
    (mode = false -> y = c /\ wd' = wd).
Proof.
  intros Ic Hp Hz Hh Hw Hok.
  assert (Eh : conv_out hz (2 * pad + 1) 1 pad 1 = hz)
    by (rewrite conv_out_unit_stride; lia).
  assert (Ew : conv_out wz (2 * pad + 1) 1 pad 1 = wz)
    by (rewrite conv_out_unit_stride; lia).
  destruct (Conv2DBNActiv_call_size (Decoder_conv self) nin nout (2 * pad + 1)
              1 pad 1 nn_ReLU m mode z n hz wz wd Ic Hz)
    as (c & wd1 & Hc & Hsc & Hwc);
    try (unfold fits; lia); try (rewrite Eh, Ew; assumption).
  rewrite Eh, Ew in Hsc.
  destruct (optional_dropout_Ok (Decoder_dropout self) mode c n nout [hz; wz]
              wd1 Hsc) as (y & wd' & Hd & Hsy & Hev).
  exists c, y, wd1, wd'.
  split; [exact Hc|]. split; [exact Hsc|]. split; [exact Hd|].
  split; [congruence|]. split.
  - intros Hnone. cbn [Decoder_dropout Decoder_train] in Hd.
    rewrite Hnone in Hd. cbn in Hd. injection Hd as <- <-. split; reflexivity.
  - intros ->. destruct (Hev eq_refl) as (-> & ->).
    split; [reflexivity | apply Hwc; reflexivity].
Qed.

(** C2.  [Decoder] first doubles the height and width of its input by
    bilinear interpolation with aligned corners; given a skip tensor whose
    plane is not larger than the upsampled one, it crops the upsampled tensor
    about its centre to the plane of the skip, and applies its convolution
    block (and its optional dropout) to the crop.  With [ksize = 2*pad + 1]
    (the default 3 and 1) the result has exactly the height and width of the
    skip, whatever the excess of the upsampled tensor. *)
Theorem Decoder_contract_skip
    (nin nout ksize stride pad : Z) (dropout mode : bool)
    (x skip : @Tensor T) (n h w n2 c2 hs ws : Z) (w0 wd : World) :
  1 <= nin -> 1 <= nout -> 0 <= pad -> ksize = 2 * pad + 1 ->
  size x = [n; nin; h; w] -> 1 <= n -> 1 <= h -> 1 <= w ->
  size skip = [n2; c2; hs; ws] -> 1 <= hs -> 1 <= ws ->
  hs <= 2 * h -> ws <= 2 * w ->
  bn_ok mode n hs ws ->
  exists self w1 up cropped c y wd1 wd',
    Decoder_init nin nout ksize stride pad dropout w0 = (Ok self, w1) /\
    F_interpolate x None (Some 2) bilinear true = Ok up /\
    size up = [n; nin; 2 * h; 2 * w] /\
    crop_center up skip = Ok cropped /\
    size cropped = [n; nin; hs; ws] /\
    (forall p q i j,
       item cropped [p; q; i; j] =
       item up [p; q; (2 * h - hs) / 2 + i; (2 * w - ws) / 2 + j]) /\
    Conv2DBNActiv_call (Decoder_conv (Decoder_train mode self)) cropped wd =
      (Ok c, wd1) /\
    Decoder_call (Decoder_train mode self) x (Some skip) wd = (Ok y, wd') /\
    size y = [n; nout; hs; ws] /\
    (dropout = false -> y = c /\ wd' = wd1) /\
    (mode = false -> y = c /\ wd' = wd).
Proof.
  intros Hnin Hnout Hp Hk Hx Hn1 Hh Hw Hsk Hhs Hws Lh Lw Hok. subst ksize.
  destruct (Decoder_init_Ok nin nout (2 * pad + 1) stride pad dropout w0)
    as (self & w1 & Hinit & Ic & Id); try lia.
  pose proof (F_interpolate_scale2 x n nin h w Hx Hh Hw) as Hup.
  set (up := {| size := [n; nin; 2 * h; 2 * w];
                item := bilinear_item x true h w (h * 2) (w * 2) |}) in *.
  destruct (crop_center_Ok up skip n nin (2 * h) (2 * w) n2 c2 hs ws
              eq_refl Hsk Lh Lw) as (cropped & Hcrop & Hsc & Hitem).
  destruct (Decoder_tail self nin nout pad dropout true mode cropped n hs ws wd
              Ic Hp Hsc Hhs Hws Hok)
    as (c & y & wd1 & wd' & Hc & _ & Hd & Hsy & Hnone & Hev).
  exists self, w1, up, cropped, c, y, wd1, wd'.
  split; [exact Hinit|]. split; [exact Hup|]. split; [reflexivity|].
  split; [exact Hcrop|]. split; [exact Hsc|]. split; [exact Hitem|].
  split; [exact Hc|]. split.
  { unfold Decoder_call. rewrite (bind_lift_Ok _ wd Hup).
    rewrite (bind_lift_Ok _ wd Hcrop). rewrite (bind_Ok _ Hc).
    rewrite (bind_Ok _ Hd). reflexivity. }
  split; [exact Hsy|]. split; [|exact Hev].
  intros ->. apply Hnone. destruct (Decoder_dropout self); [|reflexivity].
  destruct Id as (Hf & _). discriminate.
Qed.

(** C10.  Without a skip nothing is cropped: the convolution block receives
    the upsampled tensor itself, whose height and width are twice those of
    the input, and with [ksize = 2*pad + 1] (the default 3 and 1) so are
    those of the result. *)
Theorem Decoder_contract_no_skip
    (nin nout ksize stride pad : Z) (dropout mode : bool)
    (x : @Tensor T) (n h w : Z) (w0 wd : World) :
  1 <= nin -> 1 <= nout -> 0 <= pad -> ksize = 2 * pad + 1 ->
  size x = [n; nin; h; w] -> 1 <= n -> 1 <= h -> 1 <= w ->
  exists self w1 up c y wd1 wd',
    Decoder_init nin nout ksize stride pad dropout w0 = (Ok self, w1) /\
    F_interpolate x None (Some 2) bilinear true = Ok up /\
    size up = [n; nin; 2 * h; 2 * w] /\
    Conv2DBNActiv_call (Decoder_conv (Decoder_train mode self)) up wd =
      (Ok c, wd1) /\
    Decoder_call (Decoder_train mode self) x None wd = (Ok y, wd') /\
    size y = [n; nout; 2 * h; 2 * w] /\
    (dropout = false -> y = c /\ wd' = wd1) /\
    (mode = false -> y = c /\ wd' = wd).
Proof.
  intros Hnin Hnout Hp Hk Hx Hn1 Hh Hw. subst ksize.
  assert (Hok : bn_ok mode n (2 * h) (2 * w)) by (right; nia).
  destruct (Decoder_init_Ok nin nout (2 * pad + 1) stride pad dropout w0)
    as (self & w1 & Hinit & Ic & Id); try lia.
  pose proof (F_interpolate_scale2 x n nin h w Hx Hh Hw) as Hup.
  set (up := {| size := [n; nin; 2 * h; 2 * w];
                item := bilinear_item x true h w (h * 2) (w * 2) |}) in *.
  destruct (Decoder_tail self nin nout pad dropout true mode up n (2 * h)
              (2 * w) wd Ic Hp eq_refl)
    as (c & y & wd1 & wd' & Hc & _ & Hd & Hsy & Hnone & Hev);
    try lia; try assumption.
  exists self, w1, up, c, y, wd1, wd'.
  split; [exact Hinit|]. split; [exact Hup|]. split; [reflexivity|].
  split; [exact Hc|]. split.
  { unfold Decoder_call. rewrite (bind_lift_Ok _ wd Hup).
    unfold bind at 1. unfold ret at 1. rewrite (bind_Ok _ Hc).
    rewrite (bind_Ok _ Hd). reflexivity. }
  split; [exact Hsy|]. split; [|exact Hev].
  intros ->. apply Hnone. destruct (Decoder_dropout self); [|reflexivity].
  destruct Id as (Hf & _). discriminate.
Qed.

(** ** SeperableConv2DBNActiv *)

Lemma fsum_1 (f : Z -> T) : fsum 1 f = fadd f0 (f 0).
Proof. reflexivity. Qed.

Lemma conv_out_pos (n k s p d : Z) :
  1 <= s -> fits n k p d -> 1 <= conv_out n k s p d.
Proof.
  unfold fits, conv_out. intros Hs Hf.
  assert (0 <= (n + 2 * p - d * (k - 1) - 1) / s) by (apply Z.div_pos; lia).
  lia.
Qed.

Lemma conv_out_pointwise (n : Z) : conv_out n 1 1 0 1 = n.
Proof. rewrite conv_out_unit_stride. lia. Qed.

(** With as many groups as channels, output channel [co] is the convolution
    of input channel [co] alone with its own kernel. *)
Lemma conv2d_item_depthwise (c : Conv2d) (x : @Tensor T) nin k s p d h w
    (b co i j : Z) :
  conv_is c nin nin k s p d nin ->
  1 <= nin ->
  conv2d_item c x h w [b; co; i; j] =
  fadd f0 (fsum k (fun ki => fsum k (fun kj =>
    fmul (item (weight c) [co; 0; ki; kj])
         (padded x h w b co (i * s - p + ki * d) (j * s - p + kj * d))))).
Proof.
  intros (Hi & Ho & Hk & Hs & Hp & Hd & Hg & Hb) Hnin.
  unfold conv2d_item. rewrite Hb, Hi, Ho, Hk, Hs, Hp, Hd, Hg.
  rewrite Z.div_same by lia. rewrite Z.div_1_r, fsum_1.
  replace (co * 1 + 0) with co by lia. reflexivity.
Qed.

Lemma padded_same_channel (x x' : @Tensor T) (h w b c i j : Z) :
  same_channel c x x' -> padded x h w b c i j = padded x' h w b c i j.
Proof.
  intros H. unfold padded.
  destruct ((0 <=? i) && (i <? h) && (0 <=? j) && (j <? w)); [apply H|reflexivity].
Qed.

(** A kernel of size 1 with unit stride reads the pixel it writes. *)
Lemma conv2d_item_pointwise (c : Conv2d) (x : @Tensor T) nin nout h w
    (b co i j : Z) :
  conv_is c nin nout 1 1 0 1 1 ->
  0 <= co < nout -> 0 <= i < h -> 0 <= j < w ->
  conv2d_item c x h w [b; co; i; j] =
  fsum nin (fun ci =>
    fadd f0 (fadd f0 (fmul (item (weight c) [co; ci; 0; 0])
                           (item x [b; ci; i; j])))).
Proof.
  intros Hc Hco Hi Hj.
  rewrite (conv2d_item_dense c x nin nout 1 1 0 1 h w b co i j Hc Hco).
  apply fsum_ext; intros ci. rewrite !fsum_1.
  replace (i * 1 - 0 + 0 * 1) with i by lia.
  replace (j * 1 - 0 + 0 * 1) with j by lia.
  unfold padded.
  rewrite (proj2 (Z.leb_le 0 i)), (proj2 (Z.ltb_lt i h)),
          (proj2 (Z.leb_le 0 j)), (proj2 (Z.ltb_lt j w)) by lia.
  reflexivity.
Qed.

Lemma SeperableConv2DBNActiv_init_Ok (nin nout ksize stride pad dilation : Z)
    (a : activ) (w : @World T) :
  1 <= nin -> 0 <= nout -> 0 <= ksize ->
  exists self w',
    SeperableConv2DBNActiv_init nin nout ksize stride pad dilation a w =
      (Ok self, w') /\
    SeperableConv2DBNActiv_is self nin nout ksize stride pad dilation a true.
Proof.
  intros Hnin Hnout Hk. unfold SeperableConv2DBNActiv_init.
  destruct (nn_Conv2d_Ok nin nin ksize stride pad dilation nin w)
    as (dw & w1 & Hdw & Idw); try lia; try (apply Z.mod_same; lia).
  destruct (nn_Conv2d_Ok nin nout 1 1 0 1 1 w1)
    as (pw & w2 & Hpw & Ipw); try lia; try apply Z.mod_1_r.
  destruct (nn_BatchNorm2d_Ok nout w2) as (b & w3 & Hb & Hnf & Htr); [lia|].
  rewrite (bind_Ok _ Hdw), (bind_Ok _ Hpw), (bind_Ok _ Hb).
  eexists. eexists. split; [reflexivity|].
  split; [exact Idw|]. split; [exact Ipw|]. repeat split; assumption.
Qed.

Lemma conv_result_eq (c : Conv2d) (x : @Tensor T) nin nout k s p d g n h w :
  conv_is c nin nout k s p d g ->
  conv_result c x n h w =
  {| size := [n; nout; conv_out h k s p d; conv_out w k s p d];
     item := conv2d_item c x h w |}.
Proof.
  intros (_ & Ho & Hk & Hs & Hp & Hd & _ & _).
  unfold conv_result. rewrite Ho, Hk, Hs, Hp, Hd. reflexivity.
Qed.

Lemma SeperableConv2DBNActiv_call_Ok (self : @SeperableConv2DBNActiv T)
    nin nout k s p d a m mode (x : Tensor) n h w (wd : World) :
  SeperableConv2DBNActiv_is self nin nout k s p d a m ->
  1 <= nin ->
  size x = [n; nin; h; w] ->
  1 <= k -> 1 <= s -> 0 <= p -> 1 <= d ->
  fits h k p d -> fits w k p d ->
  bn_ok mode n (conv_out h k s p d) (conv_out w k s p d) ->
  let dw := conv_result (SeperableConv2DBNActiv_conv_0 self) x n h w in
  let pw := conv_result (SeperableConv2DBNActiv_conv_1 self) dw n
              (conv_out h k s p d) (conv_out w k s p d) in
  Conv2d_call (SeperableConv2DBNActiv_conv_0 self) x = Ok dw /\
  size dw = [n; nin; conv_out h k s p d; conv_out w k s p d] /\
  Conv2d_call (SeperableConv2DBNActiv_conv_1 self) dw = Ok pw /\
  size pw = [n; nout; conv_out h k s p d; conv_out w k s p d] /\
  exists wd',
    SeperableConv2DBNActiv_call (SeperableConv2DBNActiv_train mode self) x wd =
      (Ok (activ_call a
             (BatchNorm2d_result (SeperableConv2DBNActiv_conv_2 self) mode pw
                n (conv_out h k s p d) (conv_out w k s p d) wd)), wd') /\
    (mode = false -> wd' = wd).
Proof.
  intros (Idw & Ipw & Hnf & _ & Ha) Hnin Hx Hk Hs Hp Hd Fh Fw Hok dw pw.
  pose proof (conv_out_pos h k s p d Hs Fh) as Ph.
  pose proof (conv_out_pos w k s p d Hs Fw) as Pw.
  assert (Edw : dw = {| size := [n; nin; conv_out h k s p d; conv_out w k s p d];
                        item := conv2d_item (SeperableConv2DBNActiv_conv_0 self)
                                            x h w |})
    by (apply (conv_result_eq _ _ _ _ _ _ _ _ _ _ _ _ Idw)).
  assert (Hdw : Conv2d_call (SeperableConv2DBNActiv_conv_0 self) x = Ok dw).
  { rewrite Edw. apply (Conv2d_call_Ok _ _ _ _ _ _ _ _ _ _ _ _ Idw Hx);
      assumption. }
  assert (Sdw : size dw = [n; nin; conv_out h k s p d; conv_out w k s p d])
    by (rewrite Edw; reflexivity).
  assert (Epw : pw = {| size := [n; nout; conv_out h k s p d; conv_out w k s p d];
                        item := conv2d_item (SeperableConv2DBNActiv_conv_1 self)
                                  dw (conv_out h k s p d) (conv_out w k s p d) |}).
  { unfold pw. rewrite (conv_result_eq _ _ _ _ _ _ _ _ _ _ _ _ Ipw).
    rewrite !conv_out_pointwise. reflexivity. }
  assert (Hpw : Conv2d_call (SeperableConv2DBNActiv_conv_1 self) dw = Ok pw).
  { rewrite Epw.
    rewrite (Conv2d_call_Ok _ _ _ _ _ _ _ _ _ _ _ _ Ipw Sdw);
      try (unfold fits; lia).
    rewrite !conv_out_pointwise. reflexivity. }
  assert (Spw : size pw = [n; nout; conv_out h k s p d; conv_out w k s p d])
    by (rewrite Epw; reflexivity).
  split; [exact Hdw|]. split; [exact Sdw|]. split; [exact Hpw|].
  split; [exact Spw|].
  destruct (BatchNorm2d_call_Ok (SeperableConv2DBNActiv_conv_2 self) mode pw
              n nout (conv_out h k s p d) (conv_out w k s p d) wd Hnf Spw Hok)
    as (wd' & Hbn & Hw).
  exists wd'. split; [|exact Hw].
  unfold SeperableConv2DBNActiv_call.
  change (SeperableConv2DBNActiv_conv_0 (SeperableConv2DBNActiv_train mode self))
    with (SeperableConv2DBNActiv_conv_0 self).
  rewrite (bind_lift_Ok _ wd Hdw).
  change (SeperableConv2DBNActiv_conv_1 (SeperableConv2DBNActiv_train mode self))
    with (SeperableConv2DBNActiv_conv_1 self).
  rewrite (bind_lift_Ok _ wd Hpw).
  change (SeperableConv2DBNActiv_conv_2 (SeperableConv2DBNActiv_train mode self))
    with (BatchNorm2d_train mode (SeperableConv2DBNActiv_conv_2 self)).
  rewrite (bind_Ok _ Hbn).
  change (SeperableConv2DBNActiv_conv_3 (SeperableConv2DBNActiv_train mode self))
    with (SeperableConv2DBNActiv_conv_3 self).
  rewrite Ha. reflexivity.
Qed.

(** C8.  [SeperableConv2DBNActiv(nin, nout, ksize, stride, pad, dilation,
    activ)] first applies a depthwise convolution: it keeps the [nin]
    channels, and output channel [co] is the convolution of input channel
    [co] alone with its own kernel, so it does not depend on the other
    channels.  It then applies a pointwise convolution (kernel 1, stride 1)
    from [nin] to [nout] channels, which at each pixel reads only that pixel,
    and then the batch normalisation and the activation exactly as
    [Conv2DBNActiv] applies them after its convolution. *)
Theorem SeperableConv2DBNActiv_contract
    (nin nout ksize stride pad dilation : Z) (a : activ) (mode : bool)
    (x : @Tensor T) (n h w : Z) (w0 wd : World) :
  1 <= nin -> 1 <= nout ->
  1 <= ksize -> 1 <= stride -> 0 <= pad -> 1 <= dilation ->
  size x = [n; nin; h; w] -> 1 <= n ->
  fits h ksize pad dilation -> fits w ksize pad dilation ->
  bn_ok mode n (conv_out h ksize stride pad dilation)
               (conv_out w ksize stride pad dilation) ->
  exists self w1 wd',
    SeperableConv2DBNActiv_init nin nout ksize stride pad dilation a w0 =
      (Ok self, w1) /\
    let oh := conv_out h ksize stride pad dilation in
    let ow := conv_out w ksize stride pad dilation in
    let depthwise := SeperableConv2DBNActiv_conv_0 self in
    let pointwise := SeperableConv2DBNActiv_conv_1 self in
    let bn := SeperableConv2DBNActiv_conv_2 self in
    let dw := conv_result depthwise x n h w in
    let pw := conv_result pointwise dw n oh ow in
    let y := activ_call a (BatchNorm2d_result bn mode pw n oh ow wd) in
    conv_is depthwise nin nin ksize stride pad dilation nin /\
    conv_is pointwise nin nout 1 1 0 1 1 /\
    Conv2d_call depthwise x = Ok dw /\
    size dw = [n; nin; oh; ow] /\
    (forall b co i j,
       item dw [b; co; i; j] =
       fadd f0 (fsum ksize (fun ki => fsum ksize (fun kj =>
         fmul (item (weight depthwise) [co; 0; ki; kj])
              (padded x h w b co (i * stride - pad + ki * dilation)
                      (j * stride - pad + kj * dilation)))))) /\
    (forall (x' : Tensor) co,
       same_channel co x x' ->
       same_channel co dw (conv_result depthwise x' n h w)) /\
    Conv2d_call pointwise dw = Ok pw /\
    size pw = [n; nout; oh; ow] /\
    (forall b co i j, 0 <= co < nout -> 0 <= i < oh -> 0 <= j < ow ->
       item pw [b; co; i; j] =
       fsum nin (fun ci =>
         fadd f0 (fadd f0 (fmul (item (weight pointwise) [co; ci; 0; 0])
                                (item dw [b; ci; i; j]))))) /\
    SeperableConv2DBNActiv_call (SeperableConv2DBNActiv_train mode self) x wd =
      (Ok y, wd') /\
    size y = [n; nout; oh; ow] /\
    (mode = false -> wd' = wd) /\
    (forall (block : Conv2DBNActiv) (z : Tensor),
       Conv2DBNActiv_conv_1 block = bn ->
       Conv2DBNActiv_conv_2 block = a ->
       Conv2d_call (Conv2DBNActiv_conv_0 block) z = Ok pw ->
       Conv2DBNActiv_call (Conv2DBNActiv_train mode block) z wd = (Ok y, wd')).
Proof.
  intros Hnin Hnout Hk Hs Hp Hd Hx Hn1 Fh Fw Hok.
  destruct (SeperableConv2DBNActiv_init_Ok nin nout ksize stride pad dilation
              a w0) as (self & w1 & Hinit & His); try lia.
  destruct (SeperableConv2DBNActiv_call_Ok self nin nout ksize stride pad
              dilation a true mode x n h w wd His Hnin Hx Hk Hs Hp Hd Fh Fw Hok)
    as (Hdw & Sdw & Hpw & Spw & wd' & Hcall & Hw).
  pose proof His as (Idw & Ipw & Hnf & _ & Ha).
  exists self, w1, wd'. split; [exact Hinit|]. cbv zeta.
  split; [exact Idw|]. split; [exact Ipw|].
  split; [exact Hdw|]. split; [exact Sdw|].
  split.
  { intros b co i j. unfold conv_result. cbn [item].
    apply (conv2d_item_depthwise _ _ _ _ _ _ _ _ _ _ _ _ _ Idw Hnin). }
  split.
  { intros x' co Hsame b i j. unfold conv_result. cbn [item].
    rewrite !(conv2d_item_depthwise _ _ _ _ _ _ _ _ _ _ _ _ _ Idw Hnin).
    f_equal. apply fsum_ext; intros ki. apply fsum_ext; intros kj.
    f_equal. apply padded_same_channel. exact Hsame. }
  split; [exact Hpw|]. split; [exact Spw|].
  split.
  { intros b co i j Hco Hi Hj. unfold conv_result at 1. cbn [item].
    apply (conv2d_item_pointwise _ _ _ _ _ _ _ _ _ _ Ipw Hco Hi Hj). }
  split; [exact Hcall|].
  split.
  { rewrite activ_call_size, BatchNorm2d_result_size. exact Spw. }
  split; [exact Hw|].
  intros block z Hbn Hact Hz.
  unfold SeperableConv2DBNActiv_call in Hcall.
  change (SeperableConv2DBNActiv_conv_0 (SeperableConv2DBNActiv_train mode self))
    with (SeperableConv2DBNActiv_conv_0 self) in Hcall.
  rewrite (bind_lift_Ok _ wd Hdw) in Hcall.
  change (SeperableConv2DBNActiv_conv_1 (SeperableConv2DBNActiv_train mode self))
    with (SeperableConv2DBNActiv_conv_1 self) in Hcall.
  rewrite (bind_lift_Ok _ wd Hpw) in Hcall.
  unfold Conv2DBNActiv_call.
  change (Conv2DBNActiv_conv_0 (Conv2DBNActiv_train mode block))
    with (Conv2DBNActiv_conv_0 block).
  rewrite (bind_lift_Ok _ wd Hz).
  change (Conv2DBNActiv_conv_1 (Conv2DBNActiv_train mode block))
    with (BatchNorm2d_train mode (Conv2DBNActiv_conv_1 block)).
  change (Conv2DBNActiv_conv_2 (Conv2DBNActiv_train mode block))
    with (Conv2DBNActiv_conv_2 block).
  rewrite Hbn, Hact.
  change (SeperableConv2DBNActiv_conv_2 (SeperableConv2DBNActiv_train mode self))
    with (BatchNorm2d_train mode (SeperableConv2DBNActiv_conv_2 self)) in Hcall.
  change (SeperableConv2DBNActiv_conv_3 (SeperableConv2DBNActiv_train mode self))
    with (SeperableConv2DBNActiv_conv_3 self) in Hcall.
  rewrite Ha in Hcall. exact Hcall.
Qed.

(** ** DecoderV2 *)

Lemma torch_cat_channels (x skip : @Tensor T) (n c1 c2 h w : Z) :
  size x = [n; c1; h; w] -> size skip = [n; c2; h; w] ->
  exists cat,
    torch_cat [x; skip] 1 = Ok cat /\
    size cat = [n; c1 + c2; h; w] /\
    (forall b c i j, c < c1 -> item cat [b; c; i; j] = item x [b; c; i; j]) /\
    (forall b c i j, c1 <= c < c1 + c2 ->
       item cat [b; c; i; j] = item skip [b; c - c1; i; j]).
Proof.
  intros Hx Hs. unfold torch_cat. cbn [forallb fold_right].
  rewrite Hx, Hs. cbn.
  rewrite !Z.eqb_refl. cbn. rewrite Z.add_0_r.
  eexists. split; [reflexivity|]. split; [reflexivity|]. split.
  - intros b c i j Hc. cbn. rewrite Hx. cbn.
    rewrite (proj2 (Z.ltb_lt c c1)) by lia. reflexivity.
  - intros b c i j Hc. cbn. rewrite Hx, Hs. cbn.
    rewrite (proj2 (Z.ltb_ge c c1)), (proj2 (Z.ltb_lt (c - c1) c2)) by lia.
    reflexivity.
Qed.

(** Concatenation does not adapt a plane or a batch that differs. *)
Lemma torch_cat_mismatch (x skip : @Tensor T) (n c1 h w n2 c2 h2 w2 : Z) :
  size x = [n; c1; h; w] -> size skip = [n2; c2; h2; w2] ->
  n2 <> n \/ h2 <> h \/ w2 <> w ->
  torch_cat [x; skip] 1 = Raise RuntimeError.
Proof.
  intros Hx Hs Hne. unfold torch_cat. cbn [forallb fold_right].
  rewrite Hx, Hs. cbn.
  destruct (Z.eqb_spec n2 n); cbn; [|reflexivity].
  destruct (Z.eqb_spec h2 h); cbn; [|reflexivity].
  destruct (Z.eqb_spec w2 w); cbn; [|reflexivity].
  exfalso. destruct Hne as [H | [H | H]]; contradiction.
Qed.

Lemma optional_dropout_init (dropout : bool) (w : @World T) :
  (if dropout then (d <- nn_Dropout2d (1 # 10) ;; ret (Some d)) else ret None) w =
  (Ok (if dropout then Some {| dp_p := 1 # 10; dp_training := true |} else None),
   w).
Proof. destruct dropout; reflexivity. Qed.

(** The optional channel-wise dropout that ends both decoders, as built by
    their constructors. *)
Lemma dropout_tail (dropout mode : bool) (c : @Tensor T) (n ch : Z)
    (rest : list Z) (wd1 : World) :
  size c = n :: ch :: rest ->
  exists y wd',
    match option_map (Dropout2d_train mode)
            (if dropout then Some {| dp_p := 1 # 10; dp_training := true |}
             else None) with
    | Some d => Dropout2d_call d c
    | None => ret c
    end wd1 = (Ok y, wd') /\
    size y = size c /\
    (dropout = false -> y = c /\ wd' = wd1) /\
    (mode = false -> y = c /\ wd' = wd1) /\
    (dropout = true -> mode = true ->
     forall b k idx,
       item y (b :: k :: idx) =
       if fltb (source wd1 (drawn wd1 + Z.to_nat (b * ch + k))%nat) (of_Q (1 # 10))
       then f0
       else fdiv (item c (b :: k :: idx)) (fsub f1 (of_Q (1 # 10)))).
Proof.
  intros Hc. destruct dropout; cbn [option_map].
  - unfold Dropout2d_call. cbn [dp_training Dropout2d_train dp_p].
    destruct mode.
    + rewrite Hc. eexists. eexists. split; [reflexivity|].
      split; [reflexivity|]. split; [discriminate|]. split; [discriminate|].
      intros _ _ b k idx. reflexivity.
    + exists c, wd1. split; [reflexivity|]. split; [reflexivity|].
      split; [discriminate|]. split; [split; reflexivity | discriminate].
  - exists c, wd1. split; [reflexivity|]. split; [reflexivity|].
    split; [split; reflexivity|]. split; [split; reflexivity | discriminate].
Qed.

Lemma DecoderV2_init_Ok (nin nout ksize stride pad : Z) (dropout : bool)
    (w : @World T) :
  0 <= nin -> 0 <= nout -> 0 <= ksize ->
  exists self w',
    DecoderV2_init nin nout ksize stride pad dropout w = (Ok self, w') /\
    Conv2DBNActiv_is (DecoderV2_conv1 self) nin nout 1 1 0 1 nn_ReLU true /\
    Conv2DBNActiv_is (DecoderV2_conv2 self) nout nout ksize 1 pad 1 nn_ReLU true /\
    DecoderV2_dropout self =
      (if dropout then Some {| dp_p := 1 # 10; dp_training := true |} else None).
Proof.
  intros Hnin Hnout Hk. unfold DecoderV2_init.
  destruct (Conv2DBNActiv_init_Ok nin nout 1 1 0 1 nn_ReLU w)
    as (c1 & w1 & H1 & I1); try lia.
  destruct (Conv2DBNActiv_init_Ok nout nout ksize 1 pad 1 nn_ReLU w1)
    as (c2 & w2 & H2 & I2); try lia.
  rewrite (bind_Ok _ H1), (bind_Ok _ H2).
  rewrite (bind_Ok _ (optional_dropout_init dropout w2)).
  eexists. eexists. split; [reflexivity|].
  split; [exact I1|]. split; [exact I2|]. reflexivity.
Qed.

(** C7.  Given a skip tensor with the batch and plane of the input,
    [DecoderV2] concatenates input and skip along the channel axis at the
    resolution of the input, before any resizing, and crops nothing: a skip
    whose batch or plane differs is rejected.  It then applies its 1x1
    convolution block to the concatenation, doubles height and width by
    bilinear interpolation with aligned corners, applies its second
    ([ksize] x [ksize]) convolution block, and, when built with
    [dropout=True], a dropout of rate 0.1 that when training zeroes whole
    channels. *)
Theorem DecoderV2_contract
    (nin nout ksize stride pad : Z) (dropout mode : bool)
    (x skip : @Tensor T) (n c1 c2 h w : Z) (w0 wd : World) :
  1 <= nout -> 1 <= ksize -> 0 <= pad ->
  size x = [n; c1; h; w] -> size skip = [n; c2; h; w] ->
  1 <= c1 -> 1 <= c2 -> nin = c1 + c2 ->
  1 <= n -> 1 <= h -> 1 <= w ->
  fits (2 * h) ksize pad 1 -> fits (2 * w) ksize pad 1 ->
  bn_ok mode n h w ->
  bn_ok mode n (2 * h + 2 * pad - ksize + 1) (2 * w + 2 * pad - ksize + 1) ->
  exists self w1 cat h1 up h2 y wd1 wd2 wd',
    DecoderV2_init nin nout ksize stride pad dropout w0 = (Ok self, w1) /\
    (* the concatenation, at the resolution of the input *)
    torch_cat [x; skip] 1 = Ok cat /\
    size cat = [n; c1 + c2; h; w] /\
    (forall b c i j, c < c1 -> item cat [b; c; i; j] = item x [b; c; i; j]) /\
    (forall b c i j, c1 <= c < c1 + c2 ->
       item cat [b; c; i; j] = item skip [b; c - c1; i; j]) /\
    (* no cropping *)
    (forall (skip' : Tensor) n' c' h' w',
       size skip' = [n'; c'; h'; w'] -> n' <> n \/ h' <> h \/ w' <> w ->
       DecoderV2_call (DecoderV2_train mode self) x (Some skip') wd =
         (Raise RuntimeError, wd)) /\
    (* 1x1 block, upsampling, ksize x ksize block *)
    conv_is (Conv2DBNActiv_conv_0 (DecoderV2_conv1 self)) nin nout 1 1 0 1 1 /\
    Conv2DBNActiv_call (DecoderV2_conv1 (DecoderV2_train mode self)) cat wd =
      (Ok h1, wd1) /\
    size h1 = [n; nout; h; w] /\
    F_interpolate h1 None (Some 2) bilinear true = Ok up /\
    size up = [n; nout; 2 * h; 2 * w] /\
    conv_is (Conv2DBNActiv_conv_0 (DecoderV2_conv2 self))
            nout nout ksize 1 pad 1 1 /\
    Conv2DBNActiv_call (DecoderV2_conv2 (DecoderV2_train mode self)) up wd1 =
      (Ok h2, wd2) /\
    size h2 = [n; nout; 2 * h + 2 * pad - ksize + 1; 2 * w + 2 * pad - ksize + 1] /\
    (* optional dropout *)
    DecoderV2_dropout self =
      (if dropout then Some {| dp_p := 1 # 10; dp_training := true |} else None) /\
    DecoderV2_call (DecoderV2_train mode self) x (Some skip) wd = (Ok y, wd') /\
    size y = size h2 /\
    (dropout = false -> y = h2 /\ wd' = wd2) /\
    (mode = false -> y = h2 /\ wd' = wd) /\
    (dropout = true -> mode = true ->
     forall b k idx,
       item y (b :: k :: idx) =
       if fltb (source wd2 (drawn wd2 + Z.to_nat (b * nout + k))%nat) (of_Q (1 # 10))
       then f0
       else fdiv (item h2 (b :: k :: idx)) (fsub f1 (of_Q (1 # 10)))).
Proof.
  intros Hnout Hk Hp Hx Hsk Hc1' Hc2' Hnin Hn1 Hh Hw Fh Fw Hok1 Hok2.
  destruct (DecoderV2_init_Ok nin nout ksize stride pad dropout w0)
    as (self & w1 & Hinit & I1 & I2 & Hdrop); try lia.
  destruct (torch_cat_channels x skip n c1 c2 h w Hx Hsk)
    as (cat & Hcat & Scat & Hlow & Hhigh).
  rewrite <- Hnin in Scat.
  destruct (Conv2DBNActiv_call_size (DecoderV2_conv1 self) nin nout 1 1 0 1
              nn_ReLU true mode cat n h w wd I1 Scat)
    as (h1 & wd1 & Hc1 & Sh1 & Hw1);
    try (unfold fits; lia); try (rewrite !conv_out_pointwise; assumption).
  rewrite !conv_out_pointwise in Sh1.
  pose proof (F_interpolate_scale2 h1 n nout h w Sh1 Hh Hw) as Hup.
  set (up := {| size := [n; nout; 2 * h; 2 * w];
                item := bilinear_item h1 true h w (h * 2) (w * 2) |}) in *.
  destruct (Conv2DBNActiv_call_size (DecoderV2_conv2 self) nout nout ksize 1
              pad 1 nn_ReLU true mode up n (2 * h) (2 * w) wd1 I2 eq_refl)
    as (h2 & wd2 & Hc2 & Sh2 & Hw2);
    try assumption; try lia;
    try (rewrite !conv_out_unit_stride; assumption).
  rewrite !conv_out_unit_stride in Sh2.
  destruct (dropout_tail dropout mode h2 n nout _ wd2 Sh2)
    as (y & wd' & Hd & Sy & Hnone & Hev & Hmask).
  exists self, w1, cat, h1, up, h2, y, wd1, wd2, wd'.
  split; [exact Hinit|]. split; [exact Hcat|].
  split; [rewrite <- Hnin; exact Scat|].
  split; [exact Hlow|]. split; [exact Hhigh|].
  split.
  { intros skip' n' c' h' w' Hs' Hne. unfold DecoderV2_call.
    apply bind_lift_Raise.
    apply (torch_cat_mismatch x skip' n c1 h w n' c' h' w' Hx Hs' Hne). }
  split; [apply I1|]. split; [exact Hc1|]. split; [exact Sh1|].
  split; [exact Hup|]. split; [reflexivity|].
  split; [apply I2|]. split; [exact Hc2|]. split; [exact Sh2|].
  split; [exact Hdrop|].
  split.
  { unfold DecoderV2_call. rewrite (bind_lift_Ok _ wd Hcat).
    rewrite (bind_Ok _ Hc1). rewrite (bind_lift_Ok _ wd1 Hup).
    rewrite (bind_Ok _ Hc2).
    cbn [DecoderV2_dropout DecoderV2_train]. rewrite Hdrop.
    rewrite (bind_Ok _ Hd). reflexivity. }
  split; [exact Sy|]. split; [exact Hnone|]. split; [|exact Hmask].
  intros Hm. destruct (Hev Hm) as (-> & ->). split; [reflexivity|].
  rewrite (Hw2 Hm). apply Hw1. exact Hm.
Qed.

(** ** ASPPModule *)

Lemma SeperableConv2DBNActiv_call_size (self : @SeperableConv2DBNActiv T)
    nin nout k s p d a m mode (x : Tensor) n h w (wd : World) :
  SeperableConv2DBNActiv_is self nin nout k s p d a m ->
  1 <= nin ->
  size x = [n; nin; h; w] ->
  1 <= k -> 1 <= s -> 0 <= p -> 1 <= d ->
  fits h k p d -> fits w k p d ->
  bn_ok mode n (conv_out h k s p d) (conv_out w k s p d) ->
  exists y wd',
    SeperableConv2DBNActiv_call (SeperableConv2DBNActiv_train mode self) x wd =
      (Ok y, wd') /\
    size y = [n; nout; conv_out h k s p d; conv_out w k s p d] /\
    (mode = false -> wd' = wd).
Proof.
  intros His Hnin Hx Hk Hs Hp Hd Fh Fw Hok.
  destruct (SeperableConv2DBNActiv_call_Ok self nin nout k s p d a m mode x
              n h w wd His Hnin Hx Hk Hs Hp Hd Fh Fw Hok)
    as (_ & _ & _ & Spw & wd' & Hcall & Hw).
  eexists. exists wd'. split; [exact Hcall|]. split; [|exact Hw].
  rewrite activ_call_size, BatchNorm2d_result_size. exact Spw.
Qed.

(** A kernel of size 3 dilated by [d] with padding [d] keeps the plane. *)
Lemma conv_out_atrous (n d : Z) : conv_out n 3 1 d d = n.
Proof. unfold conv_out. rewrite Z.div_1_r. lia. Qed.

Lemma AdaptiveAvgPool2d_global (x : @Tensor T) (n c h w : Z) :
  size x = [n; c; h; w] -> 1 <= c -> 1 <= h -> 1 <= w ->
  exists pooled,
    AdaptiveAvgPool2d_call {| output_size := (1, 1) |} x = Ok pooled /\
    size pooled = [n; c; 1; 1] /\
    forall b ch,
      item pooled [b; ch; 0; 0] =
      fdiv (fsum h (fun i => fsum w (fun j => item x [b; ch; i; j])))
           (of_Z (h * w)).
Proof.
  intros Hx Hc Hh Hw. unfold AdaptiveAvgPool2d_call. cbn [output_size].
  rewrite Hx.
  rewrite (proj2 (Z.leb_gt h 0)), (proj2 (Z.leb_gt w 0)),
          (proj2 (Z.leb_gt c 0)) by lia.
  cbn [orb]. eexists. split; [reflexivity|]. split; [reflexivity|].
  intros b ch. cbn [item]. unfold bin_start, bin_end.
  replace (0 * h / 1) with 0 by (rewrite Z.div_1_r; lia).
  replace (0 * w / 1) with 0 by (rewrite Z.div_1_r; lia).
  replace (- (- ((0 + 1) * h) / 1) - 0) with h by (rewrite Z.div_1_r; lia).
  replace (- (- ((0 + 1) * w) / 1) - 0) with w by (rewrite Z.div_1_r; lia).
  reflexivity.
Qed.

Lemma F_interpolate_size (x : @Tensor T) (n c h w oh ow : Z) :
  size x = [n; c; h; w] -> 1 <= h -> 1 <= w -> 1 <= oh -> 1 <= ow ->
  F_interpolate x (Some (oh, ow)) None bilinear true =
  Ok {| size := [n; c; oh; ow]; item := bilinear_item x true h w oh ow |}.
Proof.
  intros Hx Hh Hw Hoh How. unfold F_interpolate, resize. rewrite Hx.
  rewrite (proj2 (Z.leb_gt h 0)), (proj2 (Z.leb_gt w 0)),
          (proj2 (Z.leb_gt oh 0)), (proj2 (Z.leb_gt ow 0)) by lia.
  reflexivity.
Qed.

Lemma torch_cat_five (t1 t2 t3 t4 t5 : @Tensor T) (n c h w : Z) :
  size t1 = [n; c; h; w] -> size t2 = [n; c; h; w] ->
  size t3 = [n; c; h; w] -> size t4 = [n; c; h; w] ->
  size t5 = [n; c; h; w] ->
  exists out,
    torch_cat [t1; t2; t3; t4; t5] 1 = Ok out /\ size out = [n; c * 5; h; w].
Proof.
  intros H1 H2 H3 H4 H5. unfold torch_cat. cbn [forallb fold_right].
  rewrite H1, H2, H3, H4, H5. cbn. rewrite !Z.eqb_refl. cbn.
  eexists. split; [reflexivity|]. cbn.
  replace (c + (c + (c + (c + (c + 0))))) with (c * 5) by lia. reflexivity.
Qed.

Lemma ASPPModule_init_Ok (nin d0 d1 d2 : Z) (w : @World T) :
  1 <= nin ->
  exists self w',
    ASPPModule_init nin (d0, d1, d2) w = (Ok self, w') /\
    ASPPModule_conv1_0 self = {| output_size := (1, 1) |} /\
    Conv2DBNActiv_is (ASPPModule_conv1_1 self) nin nin 1 1 0 1 nn_LeakyReLU true /\
    Conv2DBNActiv_is (ASPPModule_conv2 self) nin nin 1 1 0 1 nn_LeakyReLU true /\
    SeperableConv2DBNActiv_is (ASPPModule_conv3 self)
      nin nin 3 1 d0 d0 nn_LeakyReLU true /\
    SeperableConv2DBNActiv_is (ASPPModule_conv4 self)
      nin nin 3 1 d1 d1 nn_LeakyReLU true /\
    SeperableConv2DBNActiv_is (ASPPModule_conv5 self)
      nin nin 3 1 d2 d2 nn_LeakyReLU true /\
    Conv2DBNActiv_is (ASPPModule_bottleneck_0 self)
      (nin * 5) nin 1 1 0 1 nn_LeakyReLU true /\
    ASPPModule_bottleneck_1 self = {| dp_p := 1 # 10; dp_training := true |}.
Proof.
  intros Hnin. unfold ASPPModule_init, nn_AdaptiveAvgPool2d.
  rewrite (bind_Ok _ (eq_refl : ret _ w = (Ok _, w))).
  destruct (Conv2DBNActiv_init_Ok nin nin 1 1 0 1 nn_LeakyReLU w)
    as (c1 & w1 & H1 & I1); try lia.
  destruct (Conv2DBNActiv_init_Ok nin nin 1 1 0 1 nn_LeakyReLU w1)
    as (c2 & w2 & H2 & I2); try lia.
  destruct (SeperableConv2DBNActiv_init_Ok nin nin 3 1 d0 d0 nn_LeakyReLU w2)
    as (c3 & w3 & H3 & I3); try lia.
  destruct (SeperableConv2DBNActiv_init_Ok nin nin 3 1 d1 d1 nn_LeakyReLU w3)
    as (c4 & w4 & H4 & I4); try lia.
  destruct (SeperableConv2DBNActiv_init_Ok nin nin 3 1 d2 d2 nn_LeakyReLU w4)
    as (c5 & w5 & H5 & I5); try lia.
  destruct (Conv2DBNActiv_init_Ok (nin * 5) nin 1 1 0 1 nn_LeakyReLU w5)
    as (c6 & w6 & H6 & I6); try lia.
  rewrite (bind_Ok _ H1), (bind_Ok _ H2), (bind_Ok _ H3), (bind_Ok _ H4),
          (bind_Ok _ H5), (bind_Ok _ H6).
  eexists. eexists. split; [reflexivity|]. cbn.
  repeat (split; [first [assumption | reflexivity]|]). reflexivity.
Qed.

Lemma bn_ok_batch (mode : bool) (n h w : Z) :
  mode = false \/ 2 <= n -> 1 <= h -> 1 <= w -> bn_ok mode n h w.
Proof.
  intros [Hm | Hn] Hh Hw; [left; exact Hm | right; nia].
Qed.

(** C4.  [ASPPModule(nin, dilations)] computes five branches from its
    input: the mean over the plane, through a 1x1 convolution block and
    resized bilinearly to the plane of the input; a 1x1 convolution block;
    and three separable convolution blocks of kernel 3 whose dilation and
    padding are the three dilations (4, 8 and 16 by default).  Each has [nin]
    channels and the plane of the input.  Their concatenation along the
    channel axis has [5*nin] channels; a 1x1 convolution block projects it to
    [nin] channels and a dropout of rate 0.1 follows, so the result has the
    channels and the plane of the input.  The pooled branch normalises one
    value per channel and sample, so when training the batch needs at least
    two samples. *)
Theorem ASPPModule_contract
    (nin d0 d1 d2 : Z) (mode : bool)
    (x : @Tensor T) (n h w : Z) (w0 wd : World) :
  1 <= nin -> 1 <= d0 -> 1 <= d1 -> 1 <= d2 ->
  size x = [n; nin; h; w] -> 1 <= n -> 1 <= h -> 1 <= w ->
  mode = false \/ 2 <= n ->
  exists self w1 pooled p feat1 feat2 feat3 feat4 feat5 out b y,
  exists wa wb wc we wf wg wd',
    ASPPModule_init nin (d0, d1, d2) w0 = (Ok self, w1) /\
    ASPPModule_new nin w0 = ASPPModule_init nin (4, 8, 16) w0 /\
    (* (a) global average pooling, 1x1 block, bilinear resizing *)
    AdaptiveAvgPool2d_call (ASPPModule_conv1_0 self) x = Ok pooled /\
    size pooled = [n; nin; 1; 1] /\
    (forall i c,
       item pooled [i; c; 0; 0] =
       fdiv (fsum h (fun r => fsum w (fun q => item x [i; c; r; q])))
            (of_Z (h * w))) /\
    Conv2DBNActiv_is (ASPPModule_conv1_1 self) nin nin 1 1 0 1 nn_LeakyReLU true /\
    Conv2DBNActiv_call (ASPPModule_conv1_1 (ASPPModule_train mode self)) pooled wd =
      (Ok p, wa) /\
    F_interpolate p (Some (h, w)) None bilinear true = Ok feat1 /\
    size feat1 = [n; nin; h; w] /\
    (* (b) 1x1 block *)
    Conv2DBNActiv_is (ASPPModule_conv2 self) nin nin 1 1 0 1 nn_LeakyReLU true /\
    Conv2DBNActiv_call (ASPPModule_conv2 (ASPPModule_train mode self)) x wa =
      (Ok feat2, wb) /\
    size feat2 = [n; nin; h; w] /\
    (* (c)-(e) separable blocks with the three dilations *)
    SeperableConv2DBNActiv_is (ASPPModule_conv3 self)
      nin nin 3 1 d0 d0 nn_LeakyReLU true /\
    SeperableConv2DBNActiv_call (ASPPModule_conv3 (ASPPModule_train mode self)) x wb =
      (Ok feat3, wc) /\
    size feat3 = [n; nin; h; w] /\
    SeperableConv2DBNActiv_is (ASPPModule_conv4 self)
      nin nin 3 1 d1 d1 nn_LeakyReLU true /\
    SeperableConv2DBNActiv_call (ASPPModule_conv4 (ASPPModule_train mode self)) x wc =
      (Ok feat4, we) /\
    size feat4 = [n; nin; h; w] /\
    SeperableConv2DBNActiv_is (ASPPModule_conv5 self)
      nin nin 3 1 d2 d2 nn_LeakyReLU true /\
    SeperableConv2DBNActiv_call (ASPPModule_conv5 (ASPPModule_train mode self)) x we =
      (Ok feat5, wf) /\
    size feat5 = [n; nin; h; w] /\
    (* concatenation, projection, dropout *)
    torch_cat [feat1; feat2; feat3; feat4; feat5] 1 = Ok out /\
    size out = [n; nin * 5; h; w] /\
    Conv2DBNActiv_is (ASPPModule_bottleneck_0 self)
      (nin * 5) nin 1 1 0 1 nn_LeakyReLU true /\
    Conv2DBNActiv_call (ASPPModule_bottleneck_0 (ASPPModule_train mode self)) out wf =
      (Ok b, wg) /\
    size b = [n; nin; h; w] /\
    dp_p (ASPPModule_bottleneck_1 self) = 1 # 10 /\
    Dropout2d_call (ASPPModule_bottleneck_1 (ASPPModule_train mode self)) b wg =
      (Ok y, wd') /\
    ASPPModule_forward (ASPPModule_train mode self) x wd = (Ok y, wd') /\
    size y = [n; nin; h; w] /\
    (mode = false -> y = b /\ wd' = wd).
Proof.
  intros Hnin Hd0 Hd1 Hd2 Hx Hn Hh Hw Hmode.
  pose proof (bn_ok_batch mode n 1 1 Hmode ltac:(lia) ltac:(lia)) as Hok1.
  pose proof (bn_ok_batch mode n h w Hmode Hh Hw) as Hok.
  destruct (ASPPModule_init_Ok nin d0 d1 d2 w0 Hnin)
    as (self & w1 & Hinit & Ipool & I1 & I2 & I3 & I4 & I5 & I6 & Idrop).
  destruct (AdaptiveAvgPool2d_global x n nin h w Hx Hnin Hh Hw)
    as (pooled & Hpool & Spool & Ipooled).
  rewrite <- Ipool in Hpool.
  destruct (Conv2DBNActiv_call_size (ASPPModule_conv1_1 self) nin nin 1 1 0 1
              nn_LeakyReLU true mode pooled n 1 1 wd I1 Spool)
    as (p & wa & Hp & Sp & Wp);
    try (unfold fits; lia); try (rewrite !conv_out_pointwise; assumption).
  rewrite !conv_out_pointwise in Sp.
  pose proof (F_interpolate_size p n nin 1 1 h w Sp ltac:(lia) ltac:(lia) Hh Hw)
    as Hf1.
  set (feat1 := {| size := [n; nin; h; w];
                   item := bilinear_item p true 1 1 h w |}) in *.
  destruct (Conv2DBNActiv_call_size (ASPPModule_conv2 self) nin nin 1 1 0 1
              nn_LeakyReLU true mode x n h w wa I2 Hx)
    as (feat2 & wb & Hf2 & S2 & W2);
    try (unfold fits; lia); try (rewrite !conv_out_pointwise; assumption).
  rewrite !conv_out_pointwise in S2.
  destruct (SeperableConv2DBNActiv_call_size (ASPPModule_conv3 self) nin nin
              3 1 d0 d0 nn_LeakyReLU true mode x n h w wb I3 Hnin Hx)
    as (feat3 & wc & Hf3 & S3 & W3);
    try (unfold fits; lia); try (rewrite !conv_out_atrous; assumption).
  rewrite !conv_out_atrous in S3.
  destruct (SeperableConv2DBNActiv_call_size (ASPPModule_conv4 self) nin nin
              3 1 d1 d1 nn_LeakyReLU true mode x n h w wc I4 Hnin Hx)
    as (feat4 & we & Hf4 & S4 & W4);
    try (unfold fits; lia); try (rewrite !conv_out_atrous; assumption).
  rewrite !conv_out_atrous in S4.
  destruct (SeperableConv2DBNActiv_call_size (ASPPModule_conv5 self) nin nin
              3 1 d2 d2 nn_LeakyReLU true mode x n h w we I5 Hnin Hx)
    as (feat5 & wf & Hf5 & S5 & W5);
    try (unfold fits; lia); try (rewrite !conv_out_atrous; assumption).
  rewrite !conv_out_atrous in S5.
  destruct (torch_cat_five feat1 feat2 feat3 feat4 feat5 n nin h w
              eq_refl S2 S3 S4 S5) as (out & Hcat & Sout).
  destruct (Conv2DBNActiv_call_size (ASPPModule_bottleneck_0 self) (nin * 5)
              nin 1 1 0 1 nn_LeakyReLU true mode out n h w wf I6 Sout)
    as (b & wg & Hb & Sb & Wb);
    try (unfold fits; lia); try (rewrite !conv_out_pointwise; assumption).
  rewrite !conv_out_pointwise in Sb.
  destruct (Dropout2d_call_Ok (ASPPModule_bottleneck_1 self) mode b n nin
              [h; w] wg Sb) as (y & wd' & Hy & Sy & Ey).
  exists self, w1, pooled, p, feat1, feat2, feat3, feat4, feat5, out, b, y.
  exists wa, wb, wc, we, wf, wg, wd'.
  split; [exact Hinit|]. split; [reflexivity|].
  split; [exact Hpool|]. split; [exact Spool|]. split; [exact Ipooled|].
  split; [exact I1|]. split; [exact Hp|]. split; [exact Hf1|].
  split; [reflexivity|].
  split; [exact I2|]. split; [exact Hf2|]. split; [exact S2|].
  split; [exact I3|]. split; [exact Hf3|]. split; [exact S3|].
  split; [exact I4|]. split; [exact Hf4|]. split; [exact S4|].
  split; [exact I5|]. split; [exact Hf5|]. split; [exact S5|].
  split; [exact Hcat|]. split; [exact Sout|].
  split; [exact I6|]. split; [exact Hb|]. split; [exact Sb|].
  split; [rewrite Idrop; reflexivity|]. split; [exact Hy|].
  split.
  { unfold ASPPModule_forward. rewrite Hx.
    change (ASPPModule_conv1_0 (ASPPModule_train mode self))
      with (ASPPModule_conv1_0 self).
    rewrite (bind_lift_Ok _ wd Hpool).
    rewrite (bind_Ok _ Hp). rewrite (bind_lift_Ok _ wa Hf1).
    rewrite (bind_Ok _ Hf2). rewrite (bind_Ok _ Hf3).
    rewrite (bind_Ok _ Hf4). rewrite (bind_Ok _ Hf5).
    rewrite (bind_lift_Ok _ wf Hcat). rewrite (bind_Ok _ Hb).
    rewrite (bind_Ok _ Hy). reflexivity. }
  split; [congruence|].
  intros Hm. destruct (Ey Hm) as (-> & ->). split; [reflexivity|].
  rewrite (Wb Hm), (W5 Hm), (W4 Hm), (W3 Hm), (W2 Hm). apply Wp. exact Hm.
Qed.

(** ** CBAM *)

Lemma nn_Conv2d_None (nout k s p d g : Z) (b : bool) (w : @World T) :
  0 < g -> nn_Conv2d PyNone nout k s p d g b w = (Raise TypeError, w).
Proof.
  intros Hg. unfold nn_Conv2d.
  rewrite (proj2 (Z.leb_gt g 0)) by lia. reflexivity.
Qed.

Lemma nn_Linear_run (i o : Z) (w : @World T) :
  (exists l w', nn_Linear i o w = (Ok l, w')) /\
    (o <? 0) || (i <? 0) = false \/
  (exists w', nn_Linear i o w = (Raise RuntimeError, w')) /\
    (o <? 0) || (i <? 0) = true.
Proof.
  unfold nn_Linear, bind, torch_empty, negative_dim. cbn [existsb].
  destruct (o <? 0); cbn [orb].
  - right. split; [eexists; reflexivity | reflexivity].
  - rewrite orb_false_r. destruct (i <? 0).
    + right. split; [eexists; reflexivity | reflexivity].
    + left. split; [eexists; eexists; reflexivity | reflexivity].
Qed.

(** C5.  No [CBAM] can be constructed: its constructor builds the
    convolution of the spatial attention with [None] for the number of input
    channels, which the constructor of [nn.Conv2d] rejects with TypeError,
    so that number is never bound to 2 (an earlier statement raises when
    [ratio] is 0 or a dimension of a linear layer is negative).  The
    attention computation is therefore never run. *)
Theorem CBAM_init_raises (ch ratio : Z) (w : @World T) :
  exists e w',
    CBAM_init ch ratio w = (Raise e, w') /\
    e = (if ratio =? 0 then ZeroDivisionError
         else if (ch / ratio <? 0) || (ch <? 0) then RuntimeError
         else TypeError).
Proof.
  unfold CBAM_init, floordiv.
  destruct (ratio =? 0).
  { exists ZeroDivisionError, w. split; reflexivity. }
  rewrite (bind_lift_Ok _ w eq_refl).
  destruct (nn_Linear_run ch (ch / ratio) w)
    as [((sqz & w1 & Hs) & Hb) | ((w1 & Hs) & Hb)]; rewrite Hb.
  - rewrite (bind_Ok _ Hs). rewrite (bind_lift_Ok _ w1 eq_refl).
    destruct (nn_Linear_run (ch / ratio) ch w1)
      as [((ext & w2 & He) & Hb2) | ((w2 & He) & Hb2)].
    + rewrite (bind_Ok _ He).
      exists TypeError, w2. split; [|reflexivity].
      apply bind_Raise. apply nn_Conv2d_None. lia.
    + rewrite orb_comm in Hb2. congruence.
  - exists RuntimeError, w1. split; [|reflexivity].
    apply bind_Raise. exact Hs.
Qed.

Lemma remove_at_length (k : nat) (l : list Z) :
  (k < length l)%nat -> length (remove_at k l) = pred (length l).
Proof.
  revert l. induction k as [|k IH]; intros [|a l] H; simpl in *; try lia.
  rewrite IH by lia. destruct l; simpl in *; lia.
Qed.

Lemma mean_along_run (d : nat) (x : @Tensor T) :
  (exists y, mean_along d x = Ok y /\ size y = remove_at d (size x)) /\
    (length (size x) <=? d)%nat = false \/
  mean_along d x = Raise IndexError /\ (length (size x) <=? d)%nat = true.
Proof.
  unfold mean_along. destruct (length (size x) <=? d)%nat.
  - right. split; reflexivity.
  - left. split; [|reflexivity]. eexists. split; reflexivity.
Qed.

(** C3.  Whatever the module and the input, a call of [CBAM] raises and
    returns no tensor: on an input of at least four axes the averages over
    the plane are computed and then [x.max(dim=(2, 3))] is rejected with
    TypeError, since [max] takes a single axis (on fewer axes the average
    already raises IndexError).  No output, hence no attention weight, is
    ever produced. *)
Theorem CBAM_call_raises (self : @CBAM T) (x : Tensor) (e : option Tensor)
    (w : World) :
  exists err,
    CBAM_call self x e w = (Raise err, w) /\
    err = (if (length (size x) <=? 3)%nat then IndexError else TypeError).
Proof.
  unfold CBAM_call, Tensor_mean. cbn [fold_right].
  destruct (mean_along_run 3 x) as [((y & Hy & Sy) & Hl) | (Hy & Hl)];
    rewrite Hy, Hl.
  - destruct (mean_along_run 2 y) as [((z & Hz & _) & _) | (_ & Hl2)].
    + exists TypeError. split; [|reflexivity].
      rewrite (bind_lift_Ok _ w Hz). reflexivity.
    + exfalso. rewrite Sy in Hl2.
      apply Nat.leb_gt in Hl. apply Nat.leb_le in Hl2.
      rewrite remove_at_length in Hl2 by lia. lia.
  - exists IndexError. split; reflexivity.
Qed.

(** ** Determinism in inference mode *)

Lemma reads_only_stats_ret {A} (a : A) : @reads_only_stats T A (ret a).
Proof. intros w w2 _. split; reflexivity. Qed.

Lemma reads_only_stats_raise {A} (e : exn) : @reads_only_stats T A (raise e).
Proof. intros w w2 _. split; reflexivity. Qed.

Lemma reads_only_stats_lift {A} (r : result A) : @reads_only_stats T A (lift r).
Proof. intros w w2 _. split; reflexivity. Qed.

Lemma reads_only_stats_bind {A B} (m : @M T A) (k : A -> @M T B) :
  reads_only_stats m -> (forall a, reads_only_stats (k a)) ->
  reads_only_stats (bind m k).
Proof.
  intros Hm Hk w w2 Hb.
  destruct (Hm w w2 Hb) as (Hf & Hs).
  destruct (Hm w2 w2 eq_refl) as (_ & Hs2).
  unfold bind.
  destruct (m w) as [r wa] eqn:Ew. destruct (m w2) as [r2 wb] eqn:Ew2.
  cbn in Hf, Hs, Hs2. subst r2 wa wb.
  destruct r as [a|e].
  - apply Hk. exact Hb.
  - split; reflexivity.
Qed.

Lemma BatchNorm2d_eval_reads_only_stats (self : @BatchNorm2d T) (x : Tensor) :
  reads_only_stats (BatchNorm2d_call (BatchNorm2d_train false self) x).
Proof.
  unfold BatchNorm2d_call. cbn [bn_training BatchNorm2d_train num_features].
  destruct (size x) as [|n [|c [|h [|w [|]]]]];
    try apply reads_only_stats_raise.
  destruct (negb (c =? num_features self)); [apply reads_only_stats_raise|].
  intros w1 w2 Hb. unfold bind, read_stats, ret. cbn. rewrite Hb.
  split; reflexivity.
Qed.

Lemma Dropout2d_eval_reads_only_stats (self : Dropout2d) (x : @Tensor T) :
  reads_only_stats (Dropout2d_call (Dropout2d_train false self) x).
Proof. unfold Dropout2d_call. cbn. apply reads_only_stats_ret. Qed.

Lemma optional_dropout_eval_reads_only_stats (d : option Dropout2d)
    (x : @Tensor T) :
  reads_only_stats
    (match option_map (Dropout2d_train false) d with
     | Some dropout => Dropout2d_call dropout x
     | None => ret x
     end).
Proof.
  destruct d as [d|]; cbn [option_map].
  - apply Dropout2d_eval_reads_only_stats.
  - apply reads_only_stats_ret.
Qed.

Lemma Conv2DBNActiv_eval_reads_only_stats (self : @Conv2DBNActiv T) (x : Tensor) :
  reads_only_stats (Conv2DBNActiv_call (Conv2DBNActiv_train false self) x).
Proof.
  unfold Conv2DBNActiv_call.
  apply reads_only_stats_bind; [apply reads_only_stats_lift|]. intros c.
  apply reads_only_stats_bind;
    [apply BatchNorm2d_eval_reads_only_stats | intros b; apply reads_only_stats_ret].
Qed.

Lemma SeperableConv2DBNActiv_eval_reads_only_stats
    (self : @SeperableConv2DBNActiv T) (x : Tensor) :
  reads_only_stats
    (SeperableConv2DBNActiv_call (SeperableConv2DBNActiv_train false self) x).
Proof.
  unfold SeperableConv2DBNActiv_call.
  apply reads_only_stats_bind; [apply reads_only_stats_lift|]. intros c.
  apply reads_only_stats_bind; [apply reads_only_stats_lift|]. intros c'.
  apply reads_only_stats_bind;
    [apply BatchNorm2d_eval_reads_only_stats | intros b; apply reads_only_stats_ret].
Qed.

Lemma Encoder_eval_reads_only_stats (self : @Encoder T) (x : Tensor) :
  reads_only_stats (Encoder_call (Encoder_train false self) x).
Proof.
  unfold Encoder_call.
  apply reads_only_stats_bind;
    [apply Conv2DBNActiv_eval_reads_only_stats|]. intros skip.
  apply reads_only_stats_bind;
    [apply Conv2DBNActiv_eval_reads_only_stats|]. intros h.
  apply reads_only_stats_ret.
Qed.

Lemma Decoder_eval_reads_only_stats (self : @Decoder T) (x : Tensor)
    (skip : option Tensor) :
  reads_only_stats (Decoder_call (Decoder_train false self) x skip).
Proof.
  unfold Decoder_call.
  apply reads_only_stats_bind; [apply reads_only_stats_lift|]. intros up.
  apply reads_only_stats_bind.
  { destruct skip; [apply reads_only_stats_lift | apply reads_only_stats_ret]. }
  intros z.
  apply reads_only_stats_bind;
    [apply Conv2DBNActiv_eval_reads_only_stats|]. intros h.
  apply reads_only_stats_bind;
    [apply optional_dropout_eval_reads_only_stats|]. intros y.
  apply reads_only_stats_ret.
Qed.

Lemma DecoderV2_eval_reads_only_stats (self : @DecoderV2 T) (x : Tensor)
    (skip : option Tensor) :
  reads_only_stats (DecoderV2_call (DecoderV2_train false self) x skip).
Proof.
  unfold DecoderV2_call.
  apply reads_only_stats_bind.
  { destruct skip; [apply reads_only_stats_lift | apply reads_only_stats_ret]. }
  intros z.
  apply reads_only_stats_bind;
    [apply Conv2DBNActiv_eval_reads_only_stats|]. intros h.
  apply reads_only_stats_bind; [apply reads_only_stats_lift|]. intros up.
  apply reads_only_stats_bind;
    [apply Conv2DBNActiv_eval_reads_only_stats|]. intros h2.
  apply reads_only_stats_bind;
    [apply optional_dropout_eval_reads_only_stats|]. intros y.
  apply reads_only_stats_ret.
Qed.

Lemma ASPPModule_eval_reads_only_stats (self : @ASPPModule T) (x : Tensor) :
  reads_only_stats (ASPPModule_forward (ASPPModule_train false self) x).
Proof.
  unfold ASPPModule_forward.
  destruct (size x) as [|n [|c [|h [|w [|]]]]];
    try apply reads_only_stats_raise.
  apply reads_only_stats_bind; [apply reads_only_stats_lift|]. intros pooled.
  apply reads_only_stats_bind;
    [apply Conv2DBNActiv_eval_reads_only_stats|]. intros p.
  apply reads_only_stats_bind; [apply reads_only_stats_lift|]. intros feat1.
  apply reads_only_stats_bind;
    [apply Conv2DBNActiv_eval_reads_only_stats|]. intros feat2.
  apply reads_only_stats_bind;
    [apply SeperableConv2DBNActiv_eval_reads_only_stats|]. intros feat3.
  apply reads_only_stats_bind;
    [apply SeperableConv2DBNActiv_eval_reads_only_stats|]. intros feat4.
  apply reads_only_stats_bind;
    [apply SeperableConv2DBNActiv_eval_reads_only_stats|]. intros feat5.
  apply reads_only_stats_bind; [apply reads_only_stats_lift|]. intros out.
  apply reads_only_stats_bind;
    [apply Conv2DBNActiv_eval_reads_only_stats|]. intros b.
  apply reads_only_stats_bind;
    [apply Dropout2d_eval_reads_only_stats|]. intros y.
  apply reads_only_stats_ret.
Qed.

Lemma CBAM_reads_only_stats (self : @CBAM T) (x : Tensor) (e : option Tensor) :
  reads_only_stats (CBAM_call self x e).
Proof.
  unfold CBAM_call.
  repeat (apply reads_only_stats_bind; [apply reads_only_stats_lift|]; intro).
  apply reads_only_stats_ret.
Qed.

Lemma reads_only_stats_deterministic {A} (m : @M T A) :
  reads_only_stats m -> deterministic m.
Proof.
  intros H. split; [exact H|]. intros w.
  destruct (H w w eq_refl) as (_ & ->). reflexivity.
Qed.

(** C9.  After [eval()] (that is, [train(False)]) every block of the file is
    deterministic: the result of a call (a tensor, a pair of tensors, or an
    exception) is the same whatever the state of the random source, the call
    leaves the running statistics and the random source as they were, and so
    a second call on the same input returns the same result.  Dropout is the
    identity there.  ([CBAM] has no mode and raises in every call.) *)
Theorem inference_deterministic :
  (forall (self : @CBAM T) x e, deterministic (CBAM_call self x e)) /\
  (forall (self : @Conv2DBNActiv T) x,
     deterministic (Conv2DBNActiv_call (Conv2DBNActiv_train false self) x)) /\
  (forall (self : @SeperableConv2DBNActiv T) x,
     deterministic
       (SeperableConv2DBNActiv_call (SeperableConv2DBNActiv_train false self) x)) /\
  (forall (self : @Encoder T) x,
     deterministic (Encoder_call (Encoder_train false self) x)) /\
  (forall (self : @Decoder T) x skip,
     deterministic (Decoder_call (Decoder_train false self) x skip)) /\
  (forall (self : @DecoderV2 T) x skip,
     deterministic (DecoderV2_call (DecoderV2_train false self) x skip)) /\
  (forall (self : @ASPPModule T) x,
     deterministic (ASPPModule_forward (ASPPModule_train false self) x)) /\
  (forall (d : Dropout2d) (x : @Tensor T) w,
     Dropout2d_call (Dropout2d_train false d) x w = (Ok x, w)).
Proof.
  split; [intros; apply reads_only_stats_deterministic,
           CBAM_reads_only_stats|].
  split; [intros; apply reads_only_stats_deterministic,
           Conv2DBNActiv_eval_reads_only_stats|].
  split; [intros; apply reads_only_stats_deterministic,
           SeperableConv2DBNActiv_eval_reads_only_stats|].
  split; [intros; apply reads_only_stats_deterministic,
           Encoder_eval_reads_only_stats|].
  split; [intros; apply reads_only_stats_deterministic,
           Decoder_eval_reads_only_stats|].
  split; [intros; apply reads_only_stats_deterministic,
           DecoderV2_eval_reads_only_stats|].
  split; [intros; apply reads_only_stats_deterministic,
           ASPPModule_eval_reads_only_stats|].
  intros d x w. reflexivity.
Qed.

(** ** Training mode *)

(** Counting a batch changes the counter at its address and nothing else. *)
Lemma count_batch_counted (a : nat) (wd : @World T) :
  counted_only a wd (snd (count_batch a wd)).
Proof.
  unfold counted_only, frame, tracked_once, count_batch. cbn.
  rewrite Nat.eqb_refl. cbn. repeat split.
  intros b Hb. destruct (Nat.eqb_spec b a) as [-> | _]; [|reflexivity].
  exfalso. apply Hb. left. reflexivity.
Qed.

(** The guard of batch normalisation: when training, one value per channel
    is rejected, after the batch has been counted. *)
Lemma BatchNorm2d_training_single_value (b : @BatchNorm2d T) (x : Tensor)
    (n c h w : Z) (wd : World) :
  size x = [n; c; h; w] -> n * h * w = 1 ->
  BatchNorm2d_call (BatchNorm2d_train true b) x wd =
    (Raise ValueError, snd (count_batch (bn_stats b) wd)).
Proof.
  intros Hx H1. unfold BatchNorm2d_call.
  cbn [bn_training BatchNorm2d_train bn_stats num_features]. rewrite Hx, H1.
  reflexivity.
Qed.

Lemma Conv2DBNActiv_training_single_value (self : @Conv2DBNActiv T)
    nin nout a m (x : Tensor) (wd : World) :
  Conv2DBNActiv_is self nin nout 1 1 0 1 a m ->
  size x = [1; nin; 1; 1] ->
  exists wd',
    Conv2DBNActiv_call (Conv2DBNActiv_train true self) x wd =
      (Raise ValueError, wd') /\
    counted_only (Conv2DBNActiv_stats self) wd wd'.
Proof.
  intros (Hc & Hn & _ & _) Hx.
  pose proof (Conv2d_call_Ok _ x _ _ _ _ _ _ _ 1 1 1 Hc Hx
                ltac:(lia) ltac:(lia) ltac:(lia) ltac:(lia)
                ltac:(unfold fits; lia) ltac:(unfold fits; lia)) as Hcall.
  exists (snd (count_batch (Conv2DBNActiv_stats self) wd)).
  split; [|apply count_batch_counted].
  unfold Conv2DBNActiv_call.
  change (Conv2DBNActiv_conv_0 (Conv2DBNActiv_train true self))
    with (Conv2DBNActiv_conv_0 self).
  rewrite (bind_lift_Ok _ wd Hcall). apply bind_Raise.
  change (Conv2DBNActiv_conv_1 (Conv2DBNActiv_train true self))
    with (BatchNorm2d_train true (Conv2DBNActiv_conv_1 self)).
  apply (BatchNorm2d_training_single_value _ _ 1 nout 1 1 wd);
    reflexivity.
Qed.

(** X11.  In training mode a batch of one sample is rejected by
    [ASPPModule] with ValueError, whatever the plane: its pooled branch
    normalises a single value per channel.  By then the normalisation of
    that branch has counted the batch; nothing else has changed. *)
Lemma ASPPModule_training_single_sample (nin d0 d1 d2 : Z)
    (x : @Tensor T) (h w : Z) (w0 wd : World) :
  1 <= nin -> size x = [1; nin; h; w] -> 1 <= h -> 1 <= w ->
  exists self w1 wd',
    ASPPModule_init nin (d0, d1, d2) w0 = (Ok self, w1) /\
    ASPPModule_forward (ASPPModule_train true self) x wd =
      (Raise ValueError, wd') /\
    counted_only (Conv2DBNActiv_stats (ASPPModule_conv1_1 self)) wd wd'.
Proof.
  intros Hnin Hx Hh Hw.
  destruct (ASPPModule_init_Ok nin d0 d1 d2 w0 Hnin)
    as (self & w1 & Hinit & Ipool & I1 & _).
  destruct (AdaptiveAvgPool2d_global x 1 nin h w Hx Hnin Hh Hw)
    as (pooled & Hpool & Spool & _).
  rewrite <- Ipool in Hpool.
  destruct (Conv2DBNActiv_training_single_value _ nin nin nn_LeakyReLU true
              pooled wd I1 Spool) as (wd' & Hraise & Hcount).
  exists self, w1, wd'. split; [exact Hinit|]. split; [|exact Hcount].
  unfold ASPPModule_forward. rewrite Hx.
  change (ASPPModule_conv1_0 (ASPPModule_train true self))
    with (ASPPModule_conv1_0 self).
  rewrite (bind_lift_Ok _ wd Hpool). apply bind_Raise. exact Hraise.
Qed.

(** * Effects, errors and composition *)

(** ** Inversion of computations *)

Lemma bind_inv {S A B} (m : ST S A) (k : A -> ST S B) w b w' :
  bind m k w = (Ok b, w') ->
  exists a w1, m w = (Ok a, w1) /\ k a w1 = (Ok b, w').
Proof.
  unfold bind. destruct (m w) as [[a|e] w1]; intros H.
  - exists a, w1. split; [reflexivity | exact H].
  - discriminate.
Qed.

Lemma torch_empty_inv (s : list Z) (w w' : @World T) t :
  torch_empty s w = (Ok t, w') ->
  allocated w' = allocated w /\ buffers w' = buffers w.
Proof.
  unfold torch_empty. destruct (negative_dim s); intros H; [discriminate|].
  injection H as _ <-. split; reflexivity.
Qed.

Lemma nn_Conv2d_inv (nin : pyint) nout k s p d g (w w' : @World T) c :
  nn_Conv2d nin nout k s p d g false w = (Ok c, w') ->
  allocated w' = allocated w /\ buffers w' = buffers w.
Proof.
  unfold nn_Conv2d. destruct (g <=? 0); [discriminate|].
  destruct nin as [i|]; [|discriminate].
  destruct (negb (i mod g =? 0)); [discriminate|].
  destruct (negb (nout mod g =? 0)); [discriminate|].
  intros H. apply bind_inv in H. destruct H as (t & w1 & Ht & H).
  cbn in H. injection H as _ <-. eapply torch_empty_inv; exact Ht.
Qed.

Lemma nn_BatchNorm2d_inv (nf : Z) (w w' : @World T) b :
  nn_BatchNorm2d nf w = (Ok b, w') ->
  bn_stats b = allocated w /\ allocated w' = S (allocated w).
Proof.
  unfold nn_BatchNorm2d, torch_ones, torch_zeros, torch_full.
  destruct (negative_dim [nf]); [discriminate|].
  cbn. intros H. injection H as <- <-. split; reflexivity.
Qed.

(** A block takes the next free address for its statistics. *)
Lemma Conv2DBNActiv_init_inv (nin nout ksize stride pad dilation : Z)
    (a : activ) (w w' : @World T) self :
  Conv2DBNActiv_init nin nout ksize stride pad dilation a w = (Ok self, w') ->
  Conv2DBNActiv_stats self = allocated w /\ allocated w' = S (allocated w).
Proof.
  unfold Conv2DBNActiv_init. intros H.
  apply bind_inv in H. destruct H as (c & w1 & Hc & H).
  apply bind_inv in H. destruct H as (b & w2 & Hb & H).
  cbn in H. injection H as <- <-.
  destruct (nn_Conv2d_inv _ _ _ _ _ _ _ _ _ _ Hc) as (Ha & _).
  destruct (nn_BatchNorm2d_inv _ _ _ _ Hb) as (Hs & Ha2).
  unfold Conv2DBNActiv_stats. cbn. rewrite Hs, Ha2, Ha. split; reflexivity.
Qed.

(** ** What a training-mode call does to the world *)

Lemma BatchNorm2d_training_effect (b : @BatchNorm2d T) (x : Tensor) (wd : World) :
  match BatchNorm2d_call (BatchNorm2d_train true b) x wd with
  | (Ok _, wd') => frame [bn_stats b] wd wd' /\ tracked_once (bn_stats b) wd wd'
  | (Raise _, wd') => wd' = wd \/ counted_only (bn_stats b) wd wd'
  end.
Proof.
  unfold BatchNorm2d_call.
  cbn [bn_training BatchNorm2d_train num_features bn_stats].
  destruct (size x) as [|n [|c [|h [|w [|]]]]]; try (left; reflexivity).
  pose proof (count_batch_counted (bn_stats b) wd) as Hc.
  unfold bind at 1.
  change (count_batch (bn_stats b) wd)
    with (@Ok unit tt, snd (count_batch (bn_stats b) wd)) in *.
  cbv iota beta.
  destruct (n * h * w =? 1); [right; exact Hc|].
  destruct (negb (c =? num_features b)); [right; exact Hc|].
  clear Hc.
  unfold bind, track, ret, count_batch, frame, tracked_once. cbn.
  rewrite Nat.eqb_refl. cbn.
  repeat split. intros a Ha.
  destruct (Nat.eqb_spec a (bn_stats b)) as [-> | _]; [|reflexivity].
  exfalso. apply Ha. left. reflexivity.
Qed.

(** A training-mode call of any [Conv2DBNActiv] that returns has tracked one
    batch in its own statistics and nothing else.  One that raises has
    changed nothing, or has counted the batch and nothing else: the
    normalisation counts the batch before it looks at the values. *)
Lemma Conv2DBNActiv_training_effect_gen (self : @Conv2DBNActiv T) (x : Tensor)
    (wd : World) :
  match Conv2DBNActiv_call (Conv2DBNActiv_train true self) x wd with
  | (Ok _, wd') =>
    frame [Conv2DBNActiv_stats self] wd wd' /\
    tracked_once (Conv2DBNActiv_stats self) wd wd'
  | (Raise _, wd') =>
    wd' = wd \/ counted_only (Conv2DBNActiv_stats self) wd wd'
  end.
Proof.
  unfold Conv2DBNActiv_call, Conv2DBNActiv_stats.
  cbn [Conv2DBNActiv_conv_0 Conv2DBNActiv_conv_1 Conv2DBNActiv_conv_2
       Conv2DBNActiv_train].
  unfold bind at 1. unfold lift.
  destruct (Conv2d_call (Conv2DBNActiv_conv_0 self) x) as [c|e];
    [|left; reflexivity].
  pose proof (BatchNorm2d_training_effect (Conv2DBNActiv_conv_1 self) c wd) as H.
  unfold bind.
  destruct (BatchNorm2d_call (BatchNorm2d_train true (Conv2DBNActiv_conv_1 self))
              c wd) as [[y|e] wd']; exact H.
Qed.


(** Batch normalisation over planes takes 4-D input only, in either mode; it
    looks at the rank before it counts the batch. *)
Lemma BatchNorm2d_call_rank (b : @BatchNorm2d T) (x : Tensor) (wd : World) :
  length (size x) <> 4%nat ->
  BatchNorm2d_call b x wd = (Raise ValueError, wd).
Proof.
  intros H. unfold BatchNorm2d_call.
  destruct (size x) as [|n [|c [|h [|w [|]]]]]; try reflexivity.
  exfalso. apply H. reflexivity.
Qed.

(** A convolution that accepts its input was given three or four
    dimensions, and gives back as many. *)
Lemma Conv2d_call_rank (self : @Conv2d T) (x y : Tensor) :
  Conv2d_call self x = Ok y ->
  length (size y) = length (size x) /\
  (length (size x) = 3%nat \/ length (size x) = 4%nat).
Proof.
  unfold Conv2d_call, conv2d_batched.
  destruct (size x) as [|n [|c [|h [|w [|]]]]]; try discriminate; cbv zeta;
    repeat match goal with
           | |- context [if ?b then _ else _] => destruct b
           end; try discriminate;
    intros H; injection H as <-; split; auto.
Qed.

(** A convolution rejects a 4-D input with the wrong number of channels or
    planes in which its dilated kernel does not fit. *)
Lemma Conv2d_call_rejects (self : @Conv2d T) nin nout k s p d g (x : Tensor) :
  conv_is self nin nout k s p d g ->
  1 <= k -> 1 <= s -> 0 <= p -> 1 <= d ->
  length (size x) = 4%nat ->
  (forall n h w, size x = [n; nin; h; w] -> fits h k p d -> fits w k p d -> False) ->
  Conv2d_call self x = Raise RuntimeError.
Proof.
  intros (Hi & Ho & Hk & Hs & Hp & Hd & _ & _) Hk1 Hs1 Hp0 Hd1 H4 Hrej.
  unfold Conv2d_call.
  destruct (size x) as [|n [|c [|h [|w [|]]]]] eqn:Hx; try discriminate H4.
  unfold conv2d_batched. rewrite Hi, Hk, Hs, Hp, Hd.
  destruct (Z.eqb_spec c nin) as [-> | Hc]; [|reflexivity]. cbn [negb].
  rewrite (proj2 (Z.leb_gt k 0)), (proj2 (Z.leb_gt s 0)),
          (proj2 (Z.ltb_ge p 0)), (proj2 (Z.leb_gt d 0)) by lia.
  cbn [orb]. cbv zeta.
  destruct (Z.ltb_spec (h + 2 * p) (d * (k - 1) + 1)); [reflexivity|].
  destruct (Z.ltb_spec (w + 2 * p) (d * (k - 1) + 1)); [reflexivity|].
  exfalso. apply (Hrej n h w eq_refl); unfold fits; lia.
Qed.

(** No block returns on an input its convolution has no valid reading of:
    the call raises, in either mode, before anything is counted.  What the
    convolution rejects raises RuntimeError; a 3-D input it reads as one
    unbatched sample is rejected by the normalisation with ValueError. *)
Lemma Conv2DBNActiv_call_rejects_gen (self : @Conv2DBNActiv T)
    nin nout k s p d a m mode (x : Tensor) (wd : World) :
  Conv2DBNActiv_is self nin nout k s p d a m ->
  1 <= k -> 1 <= s -> 0 <= p -> 1 <= d ->
  (forall n h w, size x = [n; nin; h; w] -> fits h k p d -> fits w k p d -> False) ->
  exists e,
    Conv2DBNActiv_call (Conv2DBNActiv_train mode self) x wd = (Raise e, wd) /\
    (length (size x) <> 3%nat -> e = RuntimeError).
Proof.
  intros (Hc & _) Hk1 Hs1 Hp0 Hd1 Hrej.
  unfold Conv2DBNActiv_call.
  change (Conv2DBNActiv_conv_0 (Conv2DBNActiv_train mode self))
    with (Conv2DBNActiv_conv_0 self).
  destruct (Conv2d_call (Conv2DBNActiv_conv_0 self) x) as [y|e] eqn:Hcall.
  - destruct (Conv2d_call_rank _ _ _ Hcall) as (Hy & [H3 | H4]).
    + exists ValueError. split; [|intros H; contradiction].
      rewrite (bind_lift_Ok _ wd eq_refl). apply bind_Raise.
      apply BatchNorm2d_call_rank. rewrite Hy, H3. discriminate.
    + rewrite (Conv2d_call_rejects _ _ _ _ _ _ _ _ x Hc Hk1 Hs1 Hp0 Hd1 H4 Hrej)
        in Hcall.
      discriminate.
  - exists e. split; [apply bind_lift_Raise; reflexivity|].
    intros H3. unfold Conv2d_call in Hcall.
    destruct (size x) as [|n [|c [|h [|w [|]]]]] eqn:Hx;
      try (injection Hcall as <-; reflexivity).
    + exfalso. apply H3. reflexivity.
    + assert (H4 : length (size x) = 4%nat) by (rewrite Hx; reflexivity).
      assert (Hrej' : forall n h w, size x = [n; nin; h; w] ->
                fits h k p d -> fits w k p d -> False).
      { intros n' h' w' E. rewrite Hx in E. intros F1 F2.
        apply (Hrej n' h' w' E F1 F2). }
      pose proof (Conv2d_call_rejects _ _ _ _ _ _ _ _ x Hc Hk1 Hs1 Hp0 Hd1
                    H4 Hrej') as R.
      unfold Conv2d_call in R. rewrite Hx in R. rewrite R in Hcall.
      injection Hcall as <-. reflexivity.
Qed.

(** What the convolution of a block rejects, the block rejects with
    RuntimeError, in either mode and before anything is counted. *)
Lemma Conv2DBNActiv_call_rejects (self : @Conv2DBNActiv T)
    nin nout k s p d a m mode (x : Tensor) (wd : World) :
  Conv2DBNActiv_is self nin nout k s p d a m ->
  1 <= k -> 1 <= s -> 0 <= p -> 1 <= d ->
  length (size x) <> 3%nat ->
  (forall n h w, size x = [n; nin; h; w] -> fits h k p d -> fits w k p d -> False) ->
  Conv2DBNActiv_call (Conv2DBNActiv_train mode self) x wd = (Raise RuntimeError, wd).
Proof.
  intros His Hk1 Hs1 Hp0 Hd1 H3 Hrej.
  destruct (Conv2DBNActiv_call_rejects_gen self nin nout k s p d a m mode x wd
              His Hk1 Hs1 Hp0 Hd1 Hrej) as (e & Hcall & He).
  rewrite Hcall, (He H3). reflexivity.
Qed.

(** X1.  A [Conv2DBNActiv] called on anything but a 4-D tensor with [nin]
    channels in which the dilated kernel fits raises, in either mode, and
    leaves the world untouched: nothing is counted or tracked for a rejected
    input.  Unless the input is 3-D the exception is RuntimeError, raised by
    the convolution. *)
Theorem Conv2DBNActiv_rejects
    (nin nout ksize stride pad dilation : Z) (a : activ) (mode : bool)
    (x : @Tensor T) (w0 wd : World) :
  0 <= nin -> 0 <= nout ->
  1 <= ksize -> 1 <= stride -> 0 <= pad -> 1 <= dilation ->
  (forall n h w, size x = [n; nin; h; w] ->
     fits h ksize pad dilation -> fits w ksize pad dilation -> False) ->
  exists self w1 e,
    Conv2DBNActiv_init nin nout ksize stride pad dilation a w0 = (Ok self, w1) /\
    Conv2DBNActiv_call (Conv2DBNActiv_train mode self) x wd = (Raise e, wd) /\
    (length (size x) <> 3%nat -> e = RuntimeError).
Proof.
  intros Hnin Hnout Hk Hs Hp Hd Hrej.
  destruct (Conv2DBNActiv_init_Ok nin nout ksize stride pad dilation a w0)
    as (self & w1 & Hinit & His); try lia.
  destruct (Conv2DBNActiv_call_rejects_gen self nin nout ksize stride pad
              dilation a true mode x wd His Hk Hs Hp Hd Hrej)
    as (e & Hcall & He).
  exists self, w1, e. split; [exact Hinit|]. split; [exact Hcall | exact He].
Qed.


(** ** Encoder: statistics of its two blocks *)

Lemma Encoder_init_inv (nin nout ksize stride pad : Z) (a : activ)
    (w w' : @World T) self :
  Encoder_init nin nout ksize stride pad a w = (Ok self, w') ->
  Conv2DBNActiv_stats (Encoder_conv1 self) = allocated w /\
  Conv2DBNActiv_stats (Encoder_conv2 self) = S (allocated w).
Proof.
  unfold Encoder_init. intros H.
  apply bind_inv in H. destruct H as (c1 & w1 & H1 & H).
  apply bind_inv in H. destruct H as (c2 & w2 & H2 & H).
  cbn in H. injection H as <- <-.
  destruct (Conv2DBNActiv_init_inv _ _ _ _ _ _ _ _ _ _ H1) as (S1 & A1).
  destruct (Conv2DBNActiv_init_inv _ _ _ _ _ _ _ _ _ _ H2) as (S2 & _).
  cbn. rewrite S1, S2, A1. split; reflexivity.
Qed.

Lemma frame_tracked_other (a b : nat) (w w' : @World T) :
  frame [a] w w' -> b <> a -> buffers w' b = buffers w b.
Proof.
  intros (_ & _ & _ & H) Hb. apply H. intros [E | []]. congruence.
Qed.

(** Two steps that each count a batch at their own address. *)
Lemma frame_tracked_compose (a1 a2 : nat) (w w1 w2 : @World T) :
  a1 <> a2 ->
  frame [a1] w w1 -> tracked_once a1 w w1 ->
  frame [a2] w1 w2 -> tracked_once a2 w1 w2 ->
  frame [a1; a2] w w2 /\ tracked_once a1 w w2 /\ tracked_once a2 w w2.
Proof.
  intros Hne F1 T1 F2 T2.
  pose proof (frame_tracked_other _ _ _ _ F1 (not_eq_sym Hne)) as B21.
  pose proof (frame_tracked_other _ _ _ _ F2 Hne) as B12.
  destruct F1 as (s1 & d1 & al1 & b1). destruct F2 as (s2 & d2 & al2 & b2).
  split; [|split].
  - repeat split; try congruence.
    intros b Hb. rewrite b2, b1; [reflexivity| |];
      intros [E | []]; apply Hb; [left | right; left]; exact E.
  - unfold tracked_once in *. rewrite B12. exact T1.
  - unfold tracked_once in *. rewrite T2, B21. reflexivity.
Qed.

Lemma Encoder_training_effect_gen (self : @Encoder T) (x : Tensor) (wd : World) :
  Conv2DBNActiv_stats (Encoder_conv1 self) <>
  Conv2DBNActiv_stats (Encoder_conv2 self) ->
  match Encoder_call (Encoder_train true self) x wd with
  | (Ok _, wd') =>
    frame [Conv2DBNActiv_stats (Encoder_conv1 self);
           Conv2DBNActiv_stats (Encoder_conv2 self)] wd wd' /\
    tracked_once (Conv2DBNActiv_stats (Encoder_conv1 self)) wd wd' /\
    tracked_once (Conv2DBNActiv_stats (Encoder_conv2 self)) wd wd'
  | (Raise _, wd') =>
    wd' = wd \/
    (frame [Conv2DBNActiv_stats (Encoder_conv1 self)] wd wd' /\
     tracked_once (Conv2DBNActiv_stats (Encoder_conv1 self)) wd wd') \/
    (frame [Conv2DBNActiv_stats (Encoder_conv1 self);
            Conv2DBNActiv_stats (Encoder_conv2 self)] wd wd' /\
     tracked_once (Conv2DBNActiv_stats (Encoder_conv1 self)) wd wd' /\
     tracked_once (Conv2DBNActiv_stats (Encoder_conv2 self)) wd wd')
  end.
Proof.
  intros Hne. unfold Encoder_call.
  cbn [Encoder_conv1 Encoder_conv2 Encoder_train].
  pose proof (Conv2DBNActiv_training_effect_gen (Encoder_conv1 self) x wd) as E1.
  unfold bind at 1.
  destruct (Conv2DBNActiv_call (Conv2DBNActiv_train true (Encoder_conv1 self))
              x wd) as [[skip|e] wd1].
  2: { destruct E1 as [E1 | (F1 & T1 & _)];
         [left; exact E1 | right; left; split; assumption]. }
  destruct E1 as (F1 & T1).
  pose proof (Conv2DBNActiv_training_effect_gen (Encoder_conv2 self) skip wd1) as E2.
  unfold bind.
  destruct (Conv2DBNActiv_call (Conv2DBNActiv_train true (Encoder_conv2 self))
              skip wd1) as [[h|e] wd2].
  - destruct E2 as (F2 & T2). cbn.
    apply (frame_tracked_compose _ _ wd wd1 wd2 Hne F1 T1 F2 T2).
  - destruct E2 as [-> | (F2 & T2 & _)].
    + right. left. split; assumption.
    + right. right.
      apply (frame_tracked_compose _ _ wd wd1 wd2 Hne F1 T1 F2 T2).
Qed.

(** X3.  The two blocks of a constructed [Encoder] keep their running
    statistics at distinct addresses.  A training-mode call that returns has
    tracked exactly one batch in each and touched nothing else.  One that
    raises has changed nothing, or has counted the batch in the first block
    and touched nothing but that block's statistics, or has counted it in
    both blocks and touched nothing but their statistics. *)
Theorem Encoder_training_effect
    (nin nout ksize stride pad : Z) (a : activ) (w0 : @World T) :
  0 <= nin -> 0 <= nout -> 0 <= ksize ->
  exists self w1,
    Encoder_init nin nout ksize stride pad a w0 = (Ok self, w1) /\
    let a1 := Conv2DBNActiv_stats (Encoder_conv1 self) in
    let a2 := Conv2DBNActiv_stats (Encoder_conv2 self) in
    a1 <> a2 /\
    forall x wd,
      match Encoder_call (Encoder_train true self) x wd with
      | (Ok _, wd') =>
        frame [a1; a2] wd wd' /\ tracked_once a1 wd wd' /\ tracked_once a2 wd wd'
      | (Raise _, wd') =>
        wd' = wd \/
        (frame [a1] wd wd' /\ tracked_once a1 wd wd') \/
        (frame [a1; a2] wd wd' /\ tracked_once a1 wd wd' /\ tracked_once a2 wd wd')
      end.
Proof.
  intros Hnin Hnout Hk.
  destruct (Encoder_init_Ok nin nout ksize stride pad a w0)
    as (self & w1 & Hinit & _); try assumption.
  destruct (Encoder_init_inv _ _ _ _ _ _ _ _ _ Hinit) as (S1 & S2).
  exists self, w1. split; [exact Hinit|]. cbv zeta.
  assert (Hne : Conv2DBNActiv_stats (Encoder_conv1 self) <>
                Conv2DBNActiv_stats (Encoder_conv2 self))
    by (rewrite S1, S2; apply n_Sn).
  split; [exact Hne|]. intros x wd.
  apply (Encoder_training_effect_gen self x wd Hne).
Qed.


(** ** Training mode without dropout: the world is not read *)

Lemma ignores_world_ret {A} (a : A) : @ignores_world T A (ret a).
Proof. intros w w2. reflexivity. Qed.

Lemma ignores_world_raise {A} (e : exn) : @ignores_world T A (raise e).
Proof. intros w w2. reflexivity. Qed.

Lemma ignores_world_lift {A} (r : result A) : @ignores_world T A (lift r).
Proof. intros w w2. reflexivity. Qed.

Lemma ignores_world_bind {A B} (m : @M T A) (k : A -> @M T B) :
  ignores_world m -> (forall a, ignores_world (k a)) ->
  ignores_world (bind m k).
Proof.
  intros Hm Hk w w2. specialize (Hm w w2). unfold bind.
  destruct (m w) as [r wa]. destruct (m w2) as [r2 wb]. cbn in Hm. subst r2.
  destruct r as [a|e]; [apply Hk | reflexivity].
Qed.

Lemma BatchNorm2d_training_ignores_world (self : @BatchNorm2d T) (x : Tensor) :
  ignores_world (BatchNorm2d_call (BatchNorm2d_train true self) x).
Proof.
  unfold BatchNorm2d_call. cbn [bn_training BatchNorm2d_train num_features].
  destruct (size x) as [|n [|c [|h [|w [|]]]]]; try apply ignores_world_raise.
  apply ignores_world_bind; [intros w1 w2; reflexivity|]. intros _.
  destruct (n * h * w =? 1); [apply ignores_world_raise|].
  destruct (negb (c =? num_features self)); [apply ignores_world_raise|].
  intros w1 w2. reflexivity.
Qed.

Lemma Conv2DBNActiv_training_ignores_world (self : @Conv2DBNActiv T) (x : Tensor) :
  ignores_world (Conv2DBNActiv_call (Conv2DBNActiv_train true self) x).
Proof.
  unfold Conv2DBNActiv_call.
  apply ignores_world_bind; [apply ignores_world_lift|]. intros c.
  apply ignores_world_bind;
    [apply BatchNorm2d_training_ignores_world | intros b; apply ignores_world_ret].
Qed.

Lemma SeperableConv2DBNActiv_training_ignores_world
    (self : @SeperableConv2DBNActiv T) (x : Tensor) :
  ignores_world
    (SeperableConv2DBNActiv_call (SeperableConv2DBNActiv_train true self) x).
Proof.
  unfold SeperableConv2DBNActiv_call.
  apply ignores_world_bind; [apply ignores_world_lift|]. intros c.
  apply ignores_world_bind; [apply ignores_world_lift|]. intros c'.
  apply ignores_world_bind;
    [apply BatchNorm2d_training_ignores_world | intros b; apply ignores_world_ret].
Qed.

(** X5.  In training mode the blocks without dropout do not read the world:
    normalisation uses the statistics of the batch itself, so what the call
    returns (or raises) is the same whatever the running statistics and the
    random source.  This holds for [Conv2DBNActiv],
    [SeperableConv2DBNActiv], [Encoder], and for [Decoder] and [DecoderV2]
    built without dropout. *)
Theorem training_ignores_world :
  (forall (self : @Conv2DBNActiv T) x,
     ignores_world (Conv2DBNActiv_call (Conv2DBNActiv_train true self) x)) /\
  (forall (self : @SeperableConv2DBNActiv T) x,
     ignores_world
       (SeperableConv2DBNActiv_call (SeperableConv2DBNActiv_train true self) x)) /\
  (forall (self : @Encoder T) x,
     ignores_world (Encoder_call (Encoder_train true self) x)) /\
  (forall (self : @Decoder T) x skip,
     Decoder_dropout self = None ->
     ignores_world (Decoder_call (Decoder_train true self) x skip)) /\
  (forall (self : @DecoderV2 T) x skip,
     DecoderV2_dropout self = None ->
     ignores_world (DecoderV2_call (DecoderV2_train true self) x skip)).
Proof.
  split; [exact Conv2DBNActiv_training_ignores_world|].
  split; [exact SeperableConv2DBNActiv_training_ignores_world|].
  split.
  { intros self x. unfold Encoder_call.
    apply ignores_world_bind;
      [apply Conv2DBNActiv_training_ignores_world|]. intros skip.
    apply ignores_world_bind;
      [apply Conv2DBNActiv_training_ignores_world|]. intros h.
    apply ignores_world_ret. }
  split.
  { intros self x skip Hnone. unfold Decoder_call.
    apply ignores_world_bind; [apply ignores_world_lift|]. intros up.
    apply ignores_world_bind.
    { destruct skip; [apply ignores_world_lift | apply ignores_world_ret]. }
    intros z.
    apply ignores_world_bind;
      [apply Conv2DBNActiv_training_ignores_world|]. intros h.
    cbn [Decoder_dropout Decoder_train]. rewrite Hnone. cbn [option_map].
    apply ignores_world_bind; [apply ignores_world_ret|]. intros y.
    apply ignores_world_ret. }
  intros self x skip Hnone. unfold DecoderV2_call.
  apply ignores_world_bind.
  { destruct skip; [apply ignores_world_lift | apply ignores_world_ret]. }
  intros z.
  apply ignores_world_bind;
    [apply Conv2DBNActiv_training_ignores_world|]. intros h.
  apply ignores_world_bind; [apply ignores_world_lift|]. intros up.
  apply ignores_world_bind;
    [apply Conv2DBNActiv_training_ignores_world|]. intros h2.
  cbn [DecoderV2_dropout DecoderV2_train]. rewrite Hnone. cbn [option_map].
  apply ignores_world_bind; [apply ignores_world_ret|]. intros y.
  apply ignores_world_ret.
Qed.

(** ** DecoderV2: the other paths *)

(** X6.  Without a skip [DecoderV2] needs an input of [nin] channels: it
    applies the 1x1 block, doubles the plane and applies the second block, so
    the result is [n] x [nout] x [2h + 2*pad - ksize + 1] x
    [2w + 2*pad - ksize + 1]. *)
Theorem DecoderV2_contract_no_skip
    (nin nout ksize stride pad : Z) (dropout mode : bool)
    (x : @Tensor T) (n h w : Z) (w0 wd : World) :
  1 <= nin -> 1 <= nout -> 1 <= ksize -> 0 <= pad ->
  size x = [n; nin; h; w] -> 1 <= n -> 1 <= h -> 1 <= w ->
  fits (2 * h) ksize pad 1 -> fits (2 * w) ksize pad 1 ->
  bn_ok mode n h w ->
  bn_ok mode n (2 * h + 2 * pad - ksize + 1) (2 * w + 2 * pad - ksize + 1) ->
  exists self w1 y wd',
    DecoderV2_init nin nout ksize stride pad dropout w0 = (Ok self, w1) /\
    DecoderV2_call (DecoderV2_train mode self) x None wd = (Ok y, wd') /\
    size y = [n; nout; 2 * h + 2 * pad - ksize + 1; 2 * w + 2 * pad - ksize + 1] /\
    (mode = false -> wd' = wd).
Proof.
  intros Hnin Hnout Hk Hp Hx Hn Hh Hw Fh Fw Hok1 Hok2.
  destruct (DecoderV2_init_Ok nin nout ksize stride pad dropout w0)
    as (self & w1 & Hinit & I1 & I2 & Hdrop); try lia.
  destruct (Conv2DBNActiv_call_size (DecoderV2_conv1 self) nin nout 1 1 0 1
              nn_ReLU true mode x n h w wd I1 Hx)
    as (h1 & wd1 & Hc1 & Sh1 & Hw1);
    try (unfold fits; lia); try (rewrite !conv_out_pointwise; assumption).
  rewrite !conv_out_pointwise in Sh1.
  pose proof (F_interpolate_scale2 h1 n nout h w Sh1 Hh Hw) as Hup.
  set (up := {| size := [n; nout; 2 * h; 2 * w];
                item := bilinear_item h1 true h w (h * 2) (w * 2) |}) in *.
  destruct (Conv2DBNActiv_call_size (DecoderV2_conv2 self) nout nout ksize 1
              pad 1 nn_ReLU true mode up n (2 * h) (2 * w) wd1 I2 eq_refl)
    as (h2 & wd2 & Hc2 & Sh2 & Hw2);
    try assumption; try lia;
    try (rewrite !conv_out_unit_stride; assumption).
  rewrite !conv_out_unit_stride in Sh2.
  destruct (dropout_tail dropout mode h2 n nout _ wd2 Sh2)
    as (y & wd' & Hd & Sy & _ & Hev & _).
  exists self, w1, y, wd'. split; [exact Hinit|]. split.
  { unfold DecoderV2_call. unfold bind at 1. unfold ret at 1.
    rewrite (bind_Ok _ Hc1). rewrite (bind_lift_Ok _ wd1 Hup).
    rewrite (bind_Ok _ Hc2).
    cbn [DecoderV2_dropout DecoderV2_train]. rewrite Hdrop.
    rewrite (bind_Ok _ Hd). reflexivity. }
  split; [congruence|].
  intros Hm. destruct (Hev Hm) as (_ & ->). rewrite (Hw2 Hm). apply Hw1, Hm.
Qed.

(** X7.  With a skip, [DecoderV2] has to be built with [nin] equal to the
    channels of the input plus those of the skip: for any other [nin] the
    concatenation succeeds and the 1x1 block rejects it with RuntimeError,
    leaving the world untouched. *)
Theorem DecoderV2_channels_must_add_up
    (nin nout ksize stride pad : Z) (dropout mode : bool)
    (x skip : @Tensor T) (n c1 c2 h w : Z) (w0 wd : World) :
  0 <= nin -> 0 <= nout -> 0 <= ksize ->
  size x = [n; c1; h; w] -> size skip = [n; c2; h; w] ->
  nin <> c1 + c2 ->
  exists self w1,
    DecoderV2_init nin nout ksize stride pad dropout w0 = (Ok self, w1) /\
    DecoderV2_call (DecoderV2_train mode self) x (Some skip) wd =
      (Raise RuntimeError, wd).
Proof.
  intros Hnin Hnout Hk Hx Hsk Hne.
  destruct (DecoderV2_init_Ok nin nout ksize stride pad dropout w0)
    as (self & w1 & Hinit & I1 & _); try lia.
  destruct (torch_cat_channels x skip n c1 c2 h w Hx Hsk)
    as (cat & Hcat & Scat & _).
  exists self, w1. split; [exact Hinit|].
  unfold DecoderV2_call. rewrite (bind_lift_Ok _ wd Hcat). apply bind_Raise.
  apply (Conv2DBNActiv_call_rejects (DecoderV2_conv1 self) nin nout 1 1 0 1
           nn_ReLU true mode cat wd I1); try lia.
  - rewrite Scat. discriminate.
  - intros n' h' w' Hs' _ _. rewrite Scat in Hs'. injection Hs' as _ E _ _.
    congruence.
Qed.

(** ** Encoder followed by a decoder *)

Lemma halving (h : Z) : 1 <= h -> conv_out h 3 2 1 1 = (h + 1) / 2.
Proof.
  intros Hh. unfold conv_out.
  replace (h + 2 * 1 - 1 * (3 - 1) - 1) with (h - 1) by lia.
  replace (h + 1) with (h - 1 + 1 * 2) by lia.
  rewrite Z.div_add by lia. reflexivity.
Qed.

(** An [Encoder] with kernel 3, stride 2, padding 1. *)
Lemma Encoder_halving_call (self : @Encoder T) nin nout a m1 m2 mode
    (x : Tensor) n h w (wd : World) :
  Conv2DBNActiv_is (Encoder_conv1 self) nin nout 3 1 1 1 a m1 ->
  Conv2DBNActiv_is (Encoder_conv2 self) nout nout 3 2 1 1 a m2 ->
  size x = [n; nin; h; w] -> 1 <= n -> 1 <= h -> 1 <= w ->
  mode = false \/ 2 <= n ->
  exists out skip wd1,
    Encoder_call (Encoder_train mode self) x wd = (Ok (out, skip), wd1) /\
    size skip = [n; nout; h; w] /\
    size out = [n; nout; (h + 1) / 2; (w + 1) / 2].
Proof.
  intros I1 I2 Hx Hn Hh Hw Hmode.
  assert (Eh : conv_out h 3 1 1 1 = h) by (rewrite conv_out_unit_stride; lia).
  assert (Ew : conv_out w 3 1 1 1 = w) by (rewrite conv_out_unit_stride; lia).
  assert (Ph : 1 <= (h + 1) / 2) by (apply Z.div_le_lower_bound; lia).
  assert (Pw : 1 <= (w + 1) / 2) by (apply Z.div_le_lower_bound; lia).
  destruct (Conv2DBNActiv_call_size (Encoder_conv1 self) nin nout 3 1 1 1
              a m1 mode x n h w wd I1 Hx)
    as (skip & wd1 & Hc1 & Hs1 & _);
    try (unfold fits; lia);
    try (rewrite Eh, Ew; apply bn_ok_batch; assumption).
  rewrite Eh, Ew in Hs1.
  destruct (Conv2DBNActiv_call_size (Encoder_conv2 self) nout nout 3 2 1 1
              a m2 mode skip n h w wd1 I2 Hs1)
    as (out & wd2 & Hc2 & Hs2 & _);
    try (unfold fits; lia);
    try (rewrite !halving by assumption; apply bn_ok_batch; assumption).
  rewrite !halving in Hs2 by assumption.
  exists out, skip, wd2. split; [|split; assumption].
  unfold Encoder_call.
  change (Encoder_conv1 (Encoder_train mode self))
    with (Conv2DBNActiv_train mode (Encoder_conv1 self)).
  rewrite (bind_Ok _ Hc1).
  change (Encoder_conv2 (Encoder_train mode self))
    with (Conv2DBNActiv_train mode (Encoder_conv2 self)).
  rewrite (bind_Ok _ Hc2). reflexivity.
Qed.

(** X8.  Halving and doubling do not cancel.  After [Encoder(nin, mid, 3,
    2, 1)] and then [Decoder(mid, nout)] without a skip, the plane is
    [2*floor((h+1)/2)] by [2*floor((w+1)/2)]: never smaller than the plane of
    the encoder's input, equal to it along an even axis and one pixel larger
    along an odd one. *)
Theorem Encoder_then_Decoder_plane
    (nin mid nout : Z) (a : activ) (dropout mode : bool)
    (x : @Tensor T) (n h w : Z) (w0 wd : World) :
  1 <= nin -> 1 <= mid -> 1 <= nout ->
  size x = [n; nin; h; w] -> 1 <= n -> 1 <= h -> 1 <= w ->
  mode = false \/ 2 <= n ->
  exists enc dec w1 w2 y wd',
    Encoder_init nin mid 3 2 1 a w0 = (Ok enc, w1) /\
    Decoder_init mid nout 3 1 1 dropout w1 = (Ok dec, w2) /\
    (r <- Encoder_call (Encoder_train mode enc) x ;;
     Decoder_call (Decoder_train mode dec) (fst r) None) wd = (Ok y, wd') /\
    size y = [n; nout; 2 * ((h + 1) / 2); 2 * ((w + 1) / 2)] /\
    h <= 2 * ((h + 1) / 2) <= h + 1 /\
    w <= 2 * ((w + 1) / 2) <= w + 1 /\
    (2 * ((h + 1) / 2) = h <-> h mod 2 = 0) /\
    (2 * ((w + 1) / 2) = w <-> w mod 2 = 0).
Proof.
  intros Hnin Hmid Hnout Hx Hn Hh Hw Hmode.
  destruct (Encoder_init_Ok nin mid 3 2 1 a w0)
    as (enc & w1 & Henc & I1 & I2); try lia.
  destruct (Decoder_init_Ok mid nout 3 1 1 dropout w1)
    as (dec & w2 & Hdec & Ic & _); try lia.
  destruct (Encoder_halving_call enc nin mid a true true mode x n h w wd
              I1 I2 Hx Hn Hh Hw Hmode)
    as (out & skip & wd1 & Hcall & _ & Sout).
  assert (Ph : 1 <= (h + 1) / 2) by (apply Z.div_le_lower_bound; lia).
  assert (Pw : 1 <= (w + 1) / 2) by (apply Z.div_le_lower_bound; lia).
  pose proof (F_interpolate_scale2 out n mid _ _ Sout Ph Pw) as Hup.
  set (up := {| size := [n; mid; 2 * ((h + 1) / 2); 2 * ((w + 1) / 2)];
                item := bilinear_item out true ((h + 1) / 2) ((w + 1) / 2)
                          ((h + 1) / 2 * 2) ((w + 1) / 2 * 2) |}) in *.
  destruct (Decoder_tail dec mid nout 1 dropout true mode up n
              (2 * ((h + 1) / 2)) (2 * ((w + 1) / 2)) wd1 Ic ltac:(lia) eq_refl)
    as (c & y & wd2 & wd' & Hc & _ & Hd & Sy & _);
    try lia; try (apply bn_ok_batch; assumption || lia).
  exists enc, dec, w1, w2, y, wd'.
  split; [exact Henc|]. split; [exact Hdec|]. split.
  { rewrite (bind_Ok _ Hcall). cbn [fst]. unfold Decoder_call.
    rewrite (bind_lift_Ok _ wd1 Hup). unfold bind at 1. unfold ret at 1.
    rewrite (bind_Ok _ Hc). rewrite (bind_Ok _ Hd). reflexivity. }
  split; [exact Sy|].
  pose proof (Z.div_mod (h + 1) 2 ltac:(lia)) as Dh.
  pose proof (Z.mod_pos_bound (h + 1) 2 ltac:(lia)) as Bh.
  pose proof (Z.div_mod (w + 1) 2 ltac:(lia)) as Dw.
  pose proof (Z.mod_pos_bound (w + 1) 2 ltac:(lia)) as Bw.
  pose proof (Z.div_mod h 2 ltac:(lia)) as Dh'.
  pose proof (Z.mod_pos_bound h 2 ltac:(lia)) as Bh'.
  pose proof (Z.div_mod w 2 ltac:(lia)) as Dw'.
  pose proof (Z.mod_pos_bound w 2 ltac:(lia)) as Bw'.
  repeat split; lia.
Qed.

(** X9.  The pair an [Encoder] with stride 2 returns cannot be handed to
    [DecoderV2] as (input, skip): the skip keeps the plane of the encoder's
    input and the output has half of it, so unless the plane is a single
    pixel the concatenation is rejected with RuntimeError, whatever the
    [DecoderV2]. *)
Theorem Encoder_pair_into_DecoderV2_raises
    (nin mid : Z) (a : activ) (mode : bool) (dec : @DecoderV2 T)
    (x : Tensor) (n h w : Z) (w0 wd : World) :
  1 <= nin -> 1 <= mid ->
  size x = [n; nin; h; w] -> 1 <= n -> 1 <= h -> 1 <= w ->
  mode = false \/ 2 <= n ->
  2 <= h \/ 2 <= w ->
  exists enc w1 wd',
    Encoder_init nin mid 3 2 1 a w0 = (Ok enc, w1) /\
    (r <- Encoder_call (Encoder_train mode enc) x ;;
     DecoderV2_call dec (fst r) (Some (snd r))) wd = (Raise RuntimeError, wd').
Proof.
  intros Hnin Hmid Hx Hn Hh Hw Hmode Hbig.
  destruct (Encoder_init_Ok nin mid 3 2 1 a w0)
    as (enc & w1 & Henc & I1 & I2); try lia.
  destruct (Encoder_halving_call enc nin mid a true true mode x n h w wd
              I1 I2 Hx Hn Hh Hw Hmode)
    as (out & skip & wd1 & Hcall & Sskip & Sout).
  exists enc, w1, wd1. split; [exact Henc|].
  rewrite (bind_Ok _ Hcall). cbn [fst snd]. unfold DecoderV2_call.
  apply bind_lift_Raise.
  apply (torch_cat_mismatch out skip n mid ((h + 1) / 2) ((w + 1) / 2)
           n mid h w Sout Sskip).
  right.
  pose proof (Z.div_mod (h + 1) 2 ltac:(lia)) as Dh.
  pose proof (Z.mod_pos_bound (h + 1) 2 ltac:(lia)) as Bh.
  pose proof (Z.div_mod (w + 1) 2 ltac:(lia)) as Dw.
  pose proof (Z.mod_pos_bound (w + 1) 2 ltac:(lia)) as Bw.
  destruct Hbig; [left | right]; lia.
Qed.

(** ** ASPPModule: the pooled branch and the rejected inputs *)

(** Resizing a plane of one pixel reads that pixel with weights that do not
    depend on the position. *)
Lemma bilinear_item_single (p : @Tensor T) (h w b c i j i' j' : Z) :
  bilinear_item p true 1 1 h w [b; c; i; j] =
  bilinear_item p true 1 1 h w [b; c; i'; j'].
Proof.
  unfold bilinear_item, source_coord.
  replace (1 - 1) with 0 by reflexivity. rewrite !Z.mul_0_r.
  destruct (h <=? 1); destruct (w <=? 1); reflexivity.
Qed.

(** X10.  The first branch of [ASPPModule] is constant over the plane: each
    channel of [feat1] has the same value at every pixel, so this branch
    adds one global value per channel and sample to the concatenation. *)
Theorem ASPPModule_pooled_branch_constant
    (nin d0 d1 d2 : Z) (mode : bool)
    (x : @Tensor T) (n h w : Z) (w0 wd : World) :
  1 <= nin ->
  size x = [n; nin; h; w] -> 1 <= n -> 1 <= h -> 1 <= w ->
  mode = false \/ 2 <= n ->
  exists self w1 pooled p feat1 wa,
    ASPPModule_init nin (d0, d1, d2) w0 = (Ok self, w1) /\
    AdaptiveAvgPool2d_call (ASPPModule_conv1_0 self) x = Ok pooled /\
    Conv2DBNActiv_call (ASPPModule_conv1_1 (ASPPModule_train mode self)) pooled wd =
      (Ok p, wa) /\
    F_interpolate p (Some (h, w)) None bilinear true = Ok feat1 /\
    size feat1 = [n; nin; h; w] /\
    forall b c i j i' j',
      item feat1 [b; c; i; j] = item feat1 [b; c; i'; j'].
Proof.
  intros Hnin Hx Hn Hh Hw Hmode.
  destruct (ASPPModule_init_Ok nin d0 d1 d2 w0 Hnin)
    as (self & w1 & Hinit & Ipool & I1 & _).
  destruct (AdaptiveAvgPool2d_global x n nin h w Hx Hnin Hh Hw)
    as (pooled & Hpool & Spool & _).
  rewrite <- Ipool in Hpool.
  destruct (Conv2DBNActiv_call_size (ASPPModule_conv1_1 self) nin nin 1 1 0 1
              nn_LeakyReLU true mode pooled n 1 1 wd I1 Spool)
    as (p & wa & Hp & Sp & _);
    try (unfold fits; lia);
    try (rewrite !conv_out_pointwise; apply bn_ok_batch; assumption || lia).
  rewrite !conv_out_pointwise in Sp.
  pose proof (F_interpolate_size p n nin 1 1 h w Sp ltac:(lia) ltac:(lia) Hh Hw)
    as Hf1.
  eexists self, w1, pooled, p, _, wa.
  split; [exact Hinit|]. split; [exact Hpool|]. split; [exact Hp|].
  split; [exact Hf1|]. split; [reflexivity|].
  intros b c i j i' j'. cbn [item]. apply bilinear_item_single.
Qed.

(** X12.  [ASPPModule.forward] unpacks the size of its input into four
    names: on a tensor that is not 4-D it raises ValueError before any layer
    is called, in either mode. *)
Theorem ASPPModule_rejects_rank (self : @ASPPModule T) (x : Tensor) (wd : World) :
  length (size x) <> 4%nat ->
  ASPPModule_forward self x wd = (Raise ValueError, wd).
Proof.
  intros Hr. unfold ASPPModule_forward.
  destruct (size x) as [|n [|c [|h [|w [|]]]]]; try reflexivity.
  exfalso. apply Hr. reflexivity.
Qed.

(** X13.  On a 4-D input whose channel count is not [nin], [ASPPModule]
    raises RuntimeError in its first branch and leaves the world untouched,
    in either mode. *)
Theorem ASPPModule_rejects_channels
    (nin d0 d1 d2 : Z) (mode : bool)
    (x : @Tensor T) (n c h w : Z) (w0 wd : World) :
  1 <= nin ->
  size x = [n; c; h; w] -> c <> nin ->
  exists self w1,
    ASPPModule_init nin (d0, d1, d2) w0 = (Ok self, w1) /\
    ASPPModule_forward (ASPPModule_train mode self) x wd =
      (Raise RuntimeError, wd).
Proof.
  intros Hnin Hx Hc.
  destruct (ASPPModule_init_Ok nin d0 d1 d2 w0 Hnin)
    as (self & w1 & Hinit & Ipool & I1 & _).
  exists self, w1. split; [exact Hinit|].
  unfold ASPPModule_forward. rewrite Hx.
  change (ASPPModule_conv1_0 (ASPPModule_train mode self))
    with (ASPPModule_conv1_0 self).
  rewrite Ipool. unfold AdaptiveAvgPool2d_call. cbn [output_size]. rewrite Hx.
  destruct ((h <=? 0) || (w <=? 0) || (c <=? 0)); [reflexivity|].
  rewrite (bind_lift_Ok _ wd eq_refl). apply bind_Raise.
  change (ASPPModule_conv1_1 (ASPPModule_train mode self))
    with (Conv2DBNActiv_train mode (ASPPModule_conv1_1 self)).
  apply (Conv2DBNActiv_call_rejects (ASPPModule_conv1_1 self) nin nin 1 1 0 1
           nn_LeakyReLU true mode _ wd I1); try lia.
  - cbn [size]. discriminate.
  - intros n' h' w' Hs' _ _. cbn [size] in Hs'. injection Hs' as _ E _ _.
    contradiction.
Qed.

(** ** Number of convolution weights *)

Lemma nn_Conv2d_weight (nin nout k s p d g : Z) (w w' : @World T) c :
  nn_Conv2d nin nout k s p d g false w = (Ok c, w') ->
  size (weight c) = [nout; nin / g; k; k].
Proof.
  unfold nn_Conv2d. destruct (g <=? 0); [discriminate|].
  destruct (negb (nin mod g =? 0)); [discriminate|].
  destruct (negb (nout mod g =? 0)); [discriminate|].
  intros H. apply bind_inv in H. destruct H as (t & w1 & Ht & H).
  cbn in H. injection H as <- _. cbn [weight].
  unfold torch_empty in Ht. destruct (negative_dim _); [discriminate|].
  injection Ht as <- _. reflexivity.
Qed.

Lemma numel4 (a b c d : Z) : numel [a; b; c; d] = a * b * c * d.
Proof. unfold numel. cbn. lia. Qed.

(** X14.  The two convolutions of [SeperableConv2DBNActiv] hold
    [nin*ksize^2 + nout*nin] weights and the convolution of [Conv2DBNActiv]
    holds [nout*nin*ksize^2].  The separable block has fewer weights as soon
    as the kernel and [nout] are at least 2, and more when the kernel is
    1. *)
Theorem separable_weight_count
    (nin nout ksize stride pad dilation : Z) (a : activ) (w0 : @World T) :
  1 <= nin -> 1 <= nout -> 1 <= ksize ->
  exists sep dense w1 w2,
    SeperableConv2DBNActiv_init nin nout ksize stride pad dilation a w0 =
      (Ok sep, w1) /\
    Conv2DBNActiv_init nin nout ksize stride pad dilation a w0 = (Ok dense, w2) /\
    let depthwise := numel (size (weight (SeperableConv2DBNActiv_conv_0 sep))) in
    let pointwise := numel (size (weight (SeperableConv2DBNActiv_conv_1 sep))) in
    let full := numel (size (weight (Conv2DBNActiv_conv_0 dense))) in
    depthwise = nin * ksize * ksize /\
    pointwise = nout * nin /\
    full = nout * nin * ksize * ksize /\
    (2 <= ksize -> 2 <= nout -> depthwise + pointwise < full) /\
    (ksize = 1 -> full < depthwise + pointwise).
Proof.
  intros Hnin Hnout Hk.
  destruct (SeperableConv2DBNActiv_init_Ok nin nout ksize stride pad dilation
              a w0) as (sep & w1 & Hsep & _); try lia.
  destruct (Conv2DBNActiv_init_Ok nin nout ksize stride pad dilation a w0)
    as (dense & w2 & Hdense & _); try lia.
  exists sep, dense, w1, w2. split; [exact Hsep|]. split; [exact Hdense|].
  pose proof Hsep as H. unfold SeperableConv2DBNActiv_init in H.
  apply bind_inv in H. destruct H as (dw & wa & Hdw & H).
  apply bind_inv in H. destruct H as (pw & wb & Hpw & H).
  apply bind_inv in H. destruct H as (b & wc & _ & H).
  cbn in H. injection H as <- _.
  pose proof Hdense as H. unfold Conv2DBNActiv_init in H.
  apply bind_inv in H. destruct H as (c & wd & Hc & H).
  apply bind_inv in H. destruct H as (b' & we & _ & H).
  cbn in H. injection H as <- _.
  cbn [SeperableConv2DBNActiv_conv_0 SeperableConv2DBNActiv_conv_1
       Conv2DBNActiv_conv_0].
  rewrite (nn_Conv2d_weight _ _ _ _ _ _ _ _ _ _ Hdw),
          (nn_Conv2d_weight _ _ _ _ _ _ _ _ _ _ Hpw),
          (nn_Conv2d_weight _ _ _ _ _ _ _ _ _ _ Hc).
  rewrite !numel4, Z.div_same, !Z.div_1_r by lia.
  cbv zeta.
  split; [lia|]. split; [lia|]. split; [lia|]. split.
  - intros Hk2 Hn2.
    assert (4 <= ksize * ksize) by nia.
    assert (nin * (ksize * ksize) + nin * nout < nin * (nout * (ksize * ksize)));
      [|lia].
    apply Z.mul_lt_mono_pos_l with (p := nin); [lia|].
    rewrite <- Z.mul_add_distr_l.
    apply Z.mul_lt_mono_pos_l; [lia|]. nia.
  - intros ->. lia.
Qed.

End Properties.

(** * The properties at concrete inputs *)

#[local] Existing Instance Q_float.

(** A 1 x 32 x 64 x 64 input. *)
Lemma Conv2DBNActiv_contract_witness :
  exists self w1 y wd',
    Conv2DBNActiv_init (FT := Q_float) 32 64 3 1 1 1 nn_ReLU world0 = (Ok self, w1) /\
    Conv2DBNActiv_call (Conv2DBNActiv_train true self)
                       (full [1; 32; 64; 64] 0%Q) world0 = (Ok y, wd') /\
    size y = [1; 64; 64; 64].
Proof.
  destruct (Conv2DBNActiv_contract (FT := Q_float) 32 64 3 1 1 1 nn_ReLU true
              (full [1; 32; 64; 64] 0%Q) 1 64 64 world0 world0)
    as (self & w1 & wd' & Hinit & H);
    try (unfold fits; lia); try reflexivity.
  - right. vm_compute. discriminate.
  - cbv zeta in H. destruct H as (_ & _ & _ & Hcall & _ & Hsize & _).
    exists self, w1. eexists. exists wd'.
    split; [exact Hinit|]. split; [exact Hcall|]. exact Hsize.
Defined.

(** A 1 x 32 x 64 x 64 input through [Encoder(32, 64, stride=2)], in the
    training mode it is constructed in. *)
Lemma Encoder_contract_witness :
  exists self w1 skip out wd',
    Encoder_init 32 64 3 2 1 nn_LeakyReLU world0 = (Ok self, w1) /\
    Encoder_call self (full [1; 32; 64; 64] 0%Q) world0 =
      (Ok (out, skip), wd') /\
    size skip = [1; 64; 64; 64] /\
    size out = [1; 64; 32; 32].
Proof.
  destruct (Encoder_contract 32 64 3 2 1 nn_LeakyReLU true
              (full [1; 32; 64; 64] 0%Q) 1 64 64 world0 world0)
    as (self & w1 & skip & out & wd1 & wd2 & Hinit & _ & _ & _ & _ & Hcall
        & _ & _ & Hsz & Hsame);
    try (unfold fits; rewrite ?conv_out_unit_stride; lia); try reflexivity;
    try (right; vm_compute; discriminate).
  destruct (Hsz eq_refl) as (Hskip & Hout). rewrite Hsame in Hcall.
  exists self, w1, skip, out, wd2.
  split; [exact Hinit|]. split; [exact Hcall|]. split; [exact Hskip|].
  exact Hout.
Defined.

(** [Decoder(64, 32)] on a 1 x 64 x 16 x 16 input with a 1 x 32 x 31 x 31
    skip: the upsampled 32 x 32 plane is cropped to 31 x 31. *)
Lemma Decoder_contract_skip_witness :
  exists self w1 y wd',
    Decoder_init 64 32 3 1 1 false world0 = (Ok self, w1) /\
    Decoder_call (Decoder_train true self) (full [1; 64; 16; 16] 0%Q)
                 (Some (full [1; 32; 31; 31] 0%Q)) world0 = (Ok y, wd') /\
    size y = [1; 32; 31; 31].
Proof.
  destruct (Decoder_contract_skip 64 32 3 1 1 false true
              (full [1; 64; 16; 16] 0%Q) (full [1; 32; 31; 31] 0%Q)
              1 16 16 1 32 31 31 world0 world0)
    as (self & w1 & up & cropped & c & y & wd1 & wd' & Hinit & _ & _ & _ & _
        & _ & _ & Hcall & Hsize & _);
    try lia; try reflexivity; try (right; vm_compute; discriminate).
  exists self, w1, y, wd'.
  split; [exact Hinit|]. split; [exact Hcall|]. exact Hsize.
Defined.

(** [Decoder(64, 32)] on a 1 x 64 x 16 x 16 input without a skip. *)
Lemma Decoder_contract_no_skip_witness :
  exists self w1 y wd',
    Decoder_init 64 32 3 1 1 false world0 = (Ok self, w1) /\
    Decoder_call (Decoder_train true self) (full [1; 64; 16; 16] 0%Q)
                 None world0 = (Ok y, wd') /\
    size y = [1; 32; 32; 32].
Proof.
  destruct (Decoder_contract_no_skip 64 32 3 1 1 false true
              (full [1; 64; 16; 16] 0%Q) 1 16 16 world0 world0)
    as (self & w1 & up & c & y & wd1 & wd' & Hinit & _ & _ & _ & Hcall
        & Hsize & _);
    try lia; try reflexivity; try (right; vm_compute; discriminate).
  exists self, w1, y, wd'.
  split; [exact Hinit|]. split; [exact Hcall|]. exact Hsize.
Defined.

(** [DecoderV2(96, 32, dropout=True)] on a 1 x 64 x 16 x 16 input with a
    1 x 32 x 16 x 16 skip. *)
Lemma DecoderV2_contract_witness :
  exists self w1 y wd',
    DecoderV2_init 96 32 3 1 1 true world0 = (Ok self, w1) /\
    DecoderV2_call (DecoderV2_train true self) (full [1; 64; 16; 16] 0%Q)
                   (Some (full [1; 32; 16; 16] 0%Q)) world0 = (Ok y, wd') /\
    size y = [1; 32; 32; 32] /\
    DecoderV2_call (DecoderV2_train true self) (full [1; 64; 16; 16] 0%Q)
                   (Some (full [1; 32; 17; 16] 0%Q)) world0 =
      (Raise RuntimeError, world0).
Proof.
  destruct (DecoderV2_contract 96 32 3 1 1 true true
              (full [1; 64; 16; 16] 0%Q) (full [1; 32; 16; 16] 0%Q)
              1 64 32 16 16 world0 world0)
    as (self & w1 & cat & h1 & up & h2 & y & wd1 & wd2 & wd' & Hinit & _ & _
        & _ & _ & Hnocrop & _ & _ & _ & _ & _ & _ & _ & Hs2 & _ & Hcall
        & Hsize & _);
    try lia; try reflexivity; try (unfold fits; lia);
    try (right; vm_compute; discriminate).
  exists self, w1, y, wd'.
  split; [exact Hinit|]. split; [exact Hcall|].
  split; [rewrite Hsize; exact Hs2|].
  apply (Hnocrop (full [1; 32; 17; 16] 0%Q) 1 32 17 16 eq_refl).
  right. left. lia.
Defined.

(** [SeperableConv2DBNActiv(32, 64, 3, 1, 4, 4)] on a 1 x 32 x 16 x 16
    input. *)
Lemma SeperableConv2DBNActiv_contract_witness :
  exists self w1 y wd',
    SeperableConv2DBNActiv_init 32 64 3 1 4 4 nn_LeakyReLU world0 = (Ok self, w1) /\
    SeperableConv2DBNActiv_call (SeperableConv2DBNActiv_train true self)
      (full [1; 32; 16; 16] 0%Q) world0 = (Ok y, wd') /\
    size y = [1; 64; 16; 16].
Proof.
  destruct (SeperableConv2DBNActiv_contract 32 64 3 1 4 4 nn_LeakyReLU true
              (full [1; 32; 16; 16] 0%Q) 1 16 16 world0 world0)
    as (self & w1 & wd' & Hinit & H);
    try lia; try reflexivity; try (unfold fits; lia);
    try (right; vm_compute; discriminate).
  cbv zeta in H.
  destruct H as (_ & _ & _ & _ & _ & _ & _ & _ & _ & Hcall & Hsize & _).
  exists self, w1. eexists. exists wd'.
  split; [exact Hinit|]. split; [exact Hcall|]. exact Hsize.
Defined.

(** [ASPPModule(32)] on a 2 x 32 x 16 x 16 input, in training mode. *)
Lemma ASPPModule_contract_witness :
  exists self w1 y wd',
    ASPPModule_new 32 world0 = (Ok self, w1) /\
    ASPPModule_forward (ASPPModule_train true self)
      (full [2; 32; 16; 16] 0%Q) world0 = (Ok y, wd') /\
    size y = [2; 32; 16; 16].
Proof.
  destruct (ASPPModule_contract 32 4 8 16 true
              (full [2; 32; 16; 16] 0%Q) 2 16 16 world0 world0)
    as (self & w1 & pooled & p & feat1 & feat2 & feat3 & feat4 & feat5 & out
        & b & y & wa & wb & wc & we & wf & wg & wd' & Hinit & H);
    try lia; try reflexivity; try (right; lia).
  exists self, w1, y, wd'. split; [exact Hinit|].
  split; [apply H | apply H].
Defined.

(** [ASPPModule(32)], as constructed, on one sample of 32 x 16 x 16: the call
    raises ValueError and returns no output. *)
Lemma ASPPModule_contract_counterexample :
  fst ((self <- ASPPModule_new 32 ;;
        ASPPModule_forward self (full [1; 32; 16; 16] 0%Q)) world0) =
    Raise ValueError.
Proof. vm_compute. reflexivity. Qed.

(** * The model at work *)

(** Bilinear upsampling by 2 with aligned corners keeps the four corners. *)
Example F_interpolate_x22 :
  plane 4 4 (F_interpolate x22 None (Some 2) bilinear true) =
  [[0; 1 # 3; 2 # 3; 1]; [2 # 3; 1; 4 # 3; 5 # 3];
   [4 # 3; 5 # 3; 2; 7 # 3]; [2; 7 # 3; 8 # 3; 3]]%Q.
Proof. vm_compute. reflexivity. Qed.

(** A 3 x 3 kernel with padding 1 keeps the plane at stride 1 and halves it
    (rounding up) at stride 2. *)
Example Conv2d_call_box3 :
  plane 3 3 (Conv2d_call (box3 1) x33) =
    [[12; 21; 16]; [27; 45; 33]; [24; 39; 28]]%Q /\
  plane 2 2 (Conv2d_call (box3 2) x33) = [[12; 16]; [24; 28]]%Q.
Proof. split; vm_compute; reflexivity. Qed.

(** The centre crop of a 3 x 3 plane to 2 x 2 trims the last row and column. *)
Example crop_center_x33 :
  plane 2 2 (crop_center x33 x22) = [[1; 2]; [4; 5]]%Q.
Proof. vm_compute. reflexivity. Qed.

(** Batch normalisation counts the batch before it rejects it: after a
    [BatchNorm2d(2)] in training mode has raised on a 1 x 2 x 1 x 1 input, its
    counter reads 1. *)
Example BatchNorm2d_counts_then_raises :
  let r := (b <- nn_BatchNorm2d 2 ;;
            BatchNorm2d_call b (full [1; 2; 1; 1] 0%Q)) world0 in
  fst r = Raise ValueError /\ num_batches_tracked (buffers (snd r) 0) = 1.
Proof. cbv zeta. split; vm_compute; reflexivity. Qed.

(** A 3-D input is convolved as one unbatched sample and then rejected by the
    normalisation, which has counted nothing. *)
Example Conv2DBNActiv_unbatched :
  let r := (self <- Conv2DBNActiv_init 2 4 3 1 1 1 nn_ReLU ;;
            Conv2DBNActiv_call self (full [2; 4; 4] 0%Q)) world0 in
  fst r = Raise ValueError /\ num_batches_tracked (buffers (snd r) 0) = 0.
Proof. cbv zeta. split; vm_compute; reflexivity. Qed.

(** [CBAM(32)], with the default [ratio=16], raises TypeError. *)
Example CBAM_init_32 : fst (CBAM_init 32 16 world0) = Raise TypeError.
Proof. vm_compute. reflexivity. Qed.

(** In training mode dropout reads the random source: two consecutive calls
    on the same input differ. *)
Example Dropout2d_training_differs :
  let d := {| dp_p := 1 # 10; dp_training := true |} in
  let x := full [1; 2; 1; 1] 1%Q in
  exists y1 w1 y2 w2,
    Dropout2d_call d x world0 = (Ok y1, w1) /\
    Dropout2d_call d x w1 = (Ok y2, w2) /\
    item y1 [0; 0; 0; 0] = 0%Q /\
    Qred (item y2 [0; 0; 0; 0]) = (10 # 9)%Q.
Proof.
  cbv zeta. eexists. eexists. eexists. eexists.
  split; [reflexivity|]. split; [reflexivity|].
  split; vm_compute; reflexivity.
Qed.

(** * The further properties at concrete inputs *)

(** [Conv2DBNActiv(32, 64)] on an input of 16 channels. *)
Lemma Conv2DBNActiv_rejects_witness :
  exists self w1,
    Conv2DBNActiv_init 32 64 3 1 1 1 nn_ReLU world0 = (Ok self, w1) /\
    Conv2DBNActiv_call (Conv2DBNActiv_train true self)
      (full [1; 16; 8; 8] 0%Q) world0 = (Raise RuntimeError, world0).
Proof.
  destruct (Conv2DBNActiv_rejects 32 64 3 1 1 1 nn_ReLU true
              (full [1; 16; 8; 8] 0%Q) world0 world0)
    as (self & w1 & e & Hinit & Hcall & He); try lia;
    [intros n h w H; discriminate H|].
  exists self, w1. split; [exact Hinit|].
  rewrite Hcall, He; [reflexivity | cbn; discriminate].
Defined.

(** [Encoder(32, 64, stride=2)]: its two blocks use the first two free
    addresses. *)
Lemma Encoder_training_effect_witness :
  exists self w1,
    Encoder_init 32 64 3 2 1 nn_LeakyReLU world0 = (Ok self, w1) /\
    Conv2DBNActiv_stats (Encoder_conv1 self) <>
    Conv2DBNActiv_stats (Encoder_conv2 self).
Proof.
  destruct (Encoder_training_effect 32 64 3 2 1 nn_LeakyReLU world0)
    as (self & w1 & Hinit & Hne & _); try lia.
  exists self, w1. split; [exact Hinit | exact Hne].
Defined.


(** [DecoderV2(64, 32)] on a 1 x 64 x 16 x 16 input without a skip. *)
Lemma DecoderV2_contract_no_skip_witness :
  exists self w1 y wd',
    DecoderV2_init 64 32 3 1 1 false world0 = (Ok self, w1) /\
    DecoderV2_call (DecoderV2_train true self) (full [1; 64; 16; 16] 0%Q)
                   None world0 = (Ok y, wd') /\
    size y = [1; 32; 32; 32].
Proof.
  destruct (DecoderV2_contract_no_skip 64 32 3 1 1 false true
              (full [1; 64; 16; 16] 0%Q) 1 16 16 world0 world0)
    as (self & w1 & y & wd' & Hinit & Hcall & Hsize & _);
    try lia; try reflexivity; try (unfold fits; lia);
    try (right; vm_compute; discriminate).
  exists self, w1, y, wd'.
  split; [exact Hinit|]. split; [exact Hcall | exact Hsize].
Defined.

(** [DecoderV2(64, 32)] given a 64-channel input and a 32-channel skip. *)
Lemma DecoderV2_channels_must_add_up_witness :
  exists self w1,
    DecoderV2_init 64 32 3 1 1 false world0 = (Ok self, w1) /\
    DecoderV2_call (DecoderV2_train true self) (full [1; 64; 16; 16] 0%Q)
                   (Some (full [1; 32; 16; 16] 0%Q)) world0 =
      (Raise RuntimeError, world0).
Proof.
  apply (DecoderV2_channels_must_add_up 64 32 3 1 1 false true
           (full [1; 64; 16; 16] 0%Q) (full [1; 32; 16; 16] 0%Q)
           1 64 32 16 16 world0 world0); try lia; reflexivity.
Defined.

(** A 2 x 16 x 15 x 16 input through [Encoder(16, 32, 3, 2, 1)] and
    [Decoder(32, 16)]: the plane comes back as 16 x 16. *)
Lemma Encoder_then_Decoder_plane_witness :
  exists enc dec w1 w2 y wd',
    Encoder_init 16 32 3 2 1 nn_LeakyReLU world0 = (Ok enc, w1) /\
    Decoder_init 32 16 3 1 1 false w1 = (Ok dec, w2) /\
    (r <- Encoder_call (Encoder_train true enc) (full [2; 16; 15; 16] 0%Q) ;;
     Decoder_call (Decoder_train true dec) (fst r) None) world0 = (Ok y, wd') /\
    size y = [2; 16; 16; 16].
Proof.
  destruct (Encoder_then_Decoder_plane 16 32 16 nn_LeakyReLU false true
              (full [2; 16; 15; 16] 0%Q) 2 15 16 world0 world0)
    as (enc & dec & w1 & w2 & y & wd' & Henc & Hdec & Hcall & Hsize & _);
    try lia; try reflexivity; try (right; lia).
  exists enc, dec, w1, w2, y, wd'.
  split; [exact Henc|]. split; [exact Hdec|]. split; [exact Hcall|].
  exact Hsize.
Defined.

(** The pair [Encoder(16, 32, 3, 2, 1)] returns on a 2 x 16 x 16 x 16 input,
    handed to a [DecoderV2(64, 16)]. *)
Lemma Encoder_pair_into_DecoderV2_raises_witness :
  exists dec w1 enc w2 wd',
    DecoderV2_init 64 16 3 1 1 false world0 = (Ok dec, w1) /\
    Encoder_init 16 32 3 2 1 nn_LeakyReLU w1 = (Ok enc, w2) /\
    (r <- Encoder_call (Encoder_train true enc) (full [2; 16; 16; 16] 0%Q) ;;
     DecoderV2_call dec (fst r) (Some (snd r))) world0 =
      (Raise RuntimeError, wd').
Proof.
  destruct (DecoderV2_init_Ok (FT := Q_float) 64 16 3 1 1 false world0)
    as (dec & w1 & Hdec & _); try lia.
  destruct (Encoder_pair_into_DecoderV2_raises 16 32 nn_LeakyReLU true dec
              (full [2; 16; 16; 16] 0%Q) 2 16 16 w1 world0)
    as (enc & w2 & wd' & Henc & Hcall);
    try lia; try reflexivity; try (right; lia).
  exists dec, w1, enc, w2, wd'.
  split; [exact Hdec|]. split; [exact Henc | exact Hcall].
Defined.

(** [ASPPModule(32)] on a 2 x 32 x 16 x 16 input. *)
Lemma ASPPModule_pooled_branch_constant_witness :
  exists self w1 pooled p feat1 wa,
    ASPPModule_new 32 world0 = (Ok self, w1) /\
    AdaptiveAvgPool2d_call (ASPPModule_conv1_0 self)
      (full [2; 32; 16; 16] 0%Q) = Ok pooled /\
    Conv2DBNActiv_call (ASPPModule_conv1_1 (ASPPModule_train true self))
      pooled world0 = (Ok p, wa) /\
    F_interpolate p (Some (16, 16)) None bilinear true = Ok feat1 /\
    item feat1 [0; 0; 0; 0] = item feat1 [0; 0; 15; 7].
Proof.
  destruct (ASPPModule_pooled_branch_constant 32 4 8 16 true
              (full [2; 32; 16; 16] 0%Q) 2 16 16 world0 world0)
    as (self & w1 & pooled & p & feat1 & wa & Hinit & Hpool & Hp & Hf & _ & Hc);
    try lia; try reflexivity; try (right; lia).
  exists self, w1, pooled, p, feat1, wa.
  split; [exact Hinit|]. split; [exact Hpool|]. split; [exact Hp|].
  split; [exact Hf | apply Hc].
Defined.

(** [ASPPModule(32)], as constructed, on a 1 x 32 x 16 x 16 input. *)
Lemma ASPPModule_training_single_sample_witness :
  exists self w1 wd',
    ASPPModule_new 32 world0 = (Ok self, w1) /\
    ASPPModule_forward (ASPPModule_train true self)
      (full [1; 32; 16; 16] 0%Q) world0 = (Raise ValueError, wd') /\
    tracked_once (Conv2DBNActiv_stats (ASPPModule_conv1_1 self)) world0 wd'.
Proof.
  destruct (ASPPModule_training_single_sample 32 4 8 16
              (full [1; 32; 16; 16] 0%Q) 16 16 world0 world0)
    as (self & w1 & wd' & Hinit & Hcall & _ & Ht & _);
    try lia; try reflexivity.
  exists self, w1, wd'. split; [exact Hinit|]. split; [exact Hcall | exact Ht].
Defined.

(** [ASPPModule(32)] on a 3-D tensor. *)
Lemma ASPPModule_rejects_rank_witness :
  exists self w1,
    ASPPModule_new 32 world0 = (Ok self, w1) /\
    ASPPModule_forward self (full [32; 16; 16] 0%Q) world0 =
      (Raise ValueError, world0).
Proof.
  destruct (ASPPModule_init_Ok (FT := Q_float) 32 4 8 16 world0)
    as (self & w1 & Hinit & _); [lia|].
  exists self, w1. split; [exact Hinit|].
  apply (ASPPModule_rejects_rank self (full [32; 16; 16] 0%Q) world0).
  cbn. discriminate.
Defined.

(** [ASPPModule(32)] on an input of 16 channels. *)
Lemma ASPPModule_rejects_channels_witness :
  exists self w1,
    ASPPModule_new 32 world0 = (Ok self, w1) /\
    ASPPModule_forward (ASPPModule_train false self)
      (full [1; 16; 8; 8] 0%Q) world0 = (Raise RuntimeError, world0).
Proof.
  apply (ASPPModule_rejects_channels 32 4 8 16 false
           (full [1; 16; 8; 8] 0%Q) 1 16 8 8 world0 world0); try lia.
  reflexivity.
Defined.

(** [SeperableConv2DBNActiv(32, 64)] against [Conv2DBNActiv(32, 64)], with
    the default kernel of 3: 2336 weights against 18432. *)
Lemma separable_weight_count_witness :
  exists sep dense w1 w2,
    SeperableConv2DBNActiv_init 32 64 3 1 1 1 nn_ReLU world0 = (Ok sep, w1) /\
    Conv2DBNActiv_init 32 64 3 1 1 1 nn_ReLU world0 = (Ok dense, w2) /\
    numel (size (weight (SeperableConv2DBNActiv_conv_0 sep))) +
    numel (size (weight (SeperableConv2DBNActiv_conv_1 sep))) = 2336 /\
    numel (size (weight (Conv2DBNActiv_conv_0 dense))) = 18432.
Proof.
  destruct (separable_weight_count 32 64 3 1 1 1 nn_ReLU world0)
    as (sep & dense & w1 & w2 & Hsep & Hdense & H); try lia.
  cbv zeta in H. destruct H as (Hd & Hp & Hf & _).
  exists sep, dense, w1, w2.
  split; [exact Hsep|]. split; [exact Hdense|].
  split; [rewrite Hd, Hp; reflexivity | rewrite Hf; reflexivity].
Defined.

